(** * BookingAutomation: a shallow embedding of the Nusuk registration bot

    The development follows the layout of the repository:

    - [Text]        Python string primitives used by the services
                    ([str.lower], [in], [str.isdigit]) on code points
                    U+0000 .. U+00FF;
    - [Re]          the fragment of Python's [re] module used by the OTP
                    extraction (backtracking matcher and [re.findall]);
    - [TempEmail], [TempEmailV2]
                    [src/services/temp_email.py] and
                    [src/services/temp_email_v2.py];
    - [GoogleSheets] [src/services/google_sheets.py];
    - [NusukBot]    [src/automation/nusuk_bot.py].

    Logger calls never influence control flow and are left out; an
    expression that is evaluated only to build a log message but calls
    the browser driver (for instance [element.text]) is kept, because it
    can raise. *)

From Stdlib Require Import Ascii String List ZArith Bool Lia.
From stdpp Require Import base option list gmap strings pretty.

Local Open Scope string_scope.
Local Open Scope nat_scope.

(** ** Results of fallible Python code *)

(** A Python call either returns a value or raises. *)
Inductive Result (E A : Type) : Type :=
| Ret (a : A)
| Raise (e : E).
Arguments Ret {E A} a.
Arguments Raise {E A} e.

(** The exceptions the code distinguishes: the two Selenium exceptions
    named in [except] clauses, the Sheets client's [HttpError], and any
    other [Exception] with its message. *)
Inductive exn : Type :=
| TimeoutException
| NoSuchElementException
| HttpError (msg : string)
| OtherException (msg : string).

(** [str(e)] of a Selenium exception that carries an empty message, no
    screenshot and no stack trace, which is how the model raises them
    (and how [WebDriverWait.until] raises its [TimeoutException]):
    [WebDriverException.__str__] gives "Message: " and a newline. *)
Definition selenium_text : string := "Message: " ++ String "010"%char "".

(** [str(e)] *)
Definition str_of_exn (e : exn) : string :=
  match e with
  | TimeoutException => selenium_text
  | NoSuchElementException => selenium_text
  | HttpError msg => msg
  | OtherException msg => msg
  end.

(** * Python strings *)

Module Text.

(** A character is a code point below 256; [code] is Python's [ord]. *)
Definition code (c : ascii) : nat := nat_of_ascii c.

Definition in_range (lo hi : nat) (c : ascii) : bool :=
  (lo <=? code c) && (code c <=? hi).

(** [\d] of a [str] pattern: Unicode category Nd, which below U+0100
    is exactly [0-9]. *)
Definition is_decimal (c : ascii) : bool := in_range 48 57 c.

(** [\s] of a [str] pattern ([str.isspace] of the character). *)
Definition is_space (c : ascii) : bool :=
  in_range 9 13 c || in_range 28 32 c || (code c =? 133) || (code c =? 160).

(** [\w] of a [str] pattern: [str.isalnum] of the character, or an
    underscore. *)
Definition is_word (c : ascii) : bool :=
  in_range 48 57 c || in_range 65 90 c || (code c =? 95)
  || in_range 97 122 c || (code c =? 170) || in_range 178 179 c
  || (code c =? 181) || in_range 185 186 c || in_range 188 190 c
  || in_range 192 214 c || in_range 216 246 c || in_range 248 255 c.

(** [str.isdigit] of one character: the decimal digits and the
    superscripts U+00B2, U+00B3, U+00B9. *)
Definition is_digit_char (c : ascii) : bool :=
  in_range 48 57 c || in_range 178 179 c || (code c =? 185).

(** [str.lower] of one character. *)
Definition lower_char (c : ascii) : ascii :=
  if in_range 65 90 c || in_range 192 214 c || in_range 216 222 c
  then ascii_of_nat (code c + 32)
  else c.

(** [s.lower()] *)
Fixpoint lower (s : string) : string :=
  match s with
  | EmptyString => EmptyString
  | String c s' => String (lower_char c) (lower s')
  end.

(** [s.isdigit()]: false on the empty string. *)
Definition isdigit (s : string) : bool :=
  negb (String.eqb s "") && forallb is_digit_char (list_ascii_of_string s).

(** [sub in s] *)
Fixpoint contains (sub s : string) : bool :=
  String.prefix sub s
  || match s with
     | EmptyString => false
     | String _ s' => contains sub s'
     end.

(** The code points of [s]. *)
Definition codes (s : string) : list N :=
  map N_of_ascii (list_ascii_of_string s).

Fixpoint starts_with (needle hay : list N) : bool :=
  match needle, hay with
  | [], _ => true
  | _ :: _, [] => false
  | a :: needle', b :: hay' => N.eqb a b && starts_with needle' hay'
  end.

Fixpoint contains_points (needle hay : list N) : bool :=
  starts_with needle hay
  || match hay with
     | [] => false
     | _ :: hay' => contains_points needle hay'
     end.

(** [sub in s] for a literal [sub] given by its code points, which may
    lie above U+00FF. *)
Definition contains_wide (sub : list N) (s : string) : bool :=
  contains_points sub (codes s).

(** [str.upper] of one character. The capitals of U+00B5, U+00DF and
    U+00FF lie outside the character set and these three are left
    alone; the bot only compares the result with ASCII words. *)
Definition upper_char (c : ascii) : ascii :=
  if in_range 97 122 c || in_range 224 246 c || in_range 248 254 c
  then ascii_of_nat (code c - 32)
  else c.

(** [s.upper()] *)
Fixpoint upper (s : string) : string :=
  match s with
  | EmptyString => EmptyString
  | String c s' => String (upper_char c) (upper s')
  end.

(** [len(s.strip()) > 0]: some character is not white space. *)
Definition has_visible (s : string) : bool :=
  existsb (fun c => negb (is_space c)) (list_ascii_of_string s).

(** [s.replace(a, b)] for single characters. *)
Fixpoint replace_char (a b : ascii) (s : string) : string :=
  match s with
  | EmptyString => EmptyString
  | String c s' =>
      String (if Ascii.eqb c a then b else c) (replace_char a b s')
  end.

(** Truthiness of a [str]: non-empty. *)
Definition truthy (s : string) : bool := negb (String.eqb s "").

(** [a or b] on strings. *)
Definition or_else (a b : string) : string := if truthy a then a else b.

End Text.

(** * The fragment of [re] used by the services *)

Module Re.

(** One item of a bracket expression. *)
Inductive class_item : Type :=
| ItemChar (c : ascii)
| ItemSpace.

Inductive regex : Type :=
| Lit (c : ascii)
| Digit
| OneOf (items : list class_item)
| WordBoundary
| Seq (r1 r2 : regex)
| Repeat (lo : nat) (hi : option nat) (r : regex)
| Group (r : regex).

(** The literal word [w] as a sequence of [Lit], followed by [k]. *)
Fixpoint word (w : string) (k : regex) : regex :=
  match w with
  | EmptyString => k
  | String c w' => Seq (Lit c) (word w' k)
  end.

(** [findall] returns the groups when the pattern has one. *)
Fixpoint has_group (r : regex) : bool :=
  match r with
  | Group _ => true
  | Seq r1 r2 => has_group r1 || has_group r2
  | Repeat _ _ r' => has_group r'
  | _ => false
  end.

Definition item_matches (x : ascii) (i : class_item) : bool :=
  match i with
  | ItemChar c => Ascii.eqb x c
  | ItemSpace => Text.is_space x
  end.

(** A capture is the span of the group, when it took part in the match. *)
Definition capture : Type := option (nat * nat).

Section Matcher.
Variable ignorecase : bool.
Variable text : list ascii.

Definition lit_matches (c x : ascii) : bool :=
  if ignorecase
  then Ascii.eqb (Text.lower_char x) (Text.lower_char c)
  else Ascii.eqb x c.

Definition word_at (i : nat) : bool :=
  match text !! i with
  | Some x => Text.is_word x
  | None => false
  end.

(** [\b]: exactly one side of the position is a word character. *)
Definition at_boundary (pos : nat) : bool :=
  xorb (match pos with 0 => false | S p => word_at p end) (word_at pos).

Definition one (p : ascii → bool) (pos : nat) (cap : capture)
  : list (nat * capture) :=
  match text !! pos with
  | Some x => if p x then [(S pos, cap)] else []
  | None => []
  end.

(** Greedy repetition: one more iteration is tried before stopping.
    An iteration that consumes nothing is abandoned, as in the
    engine. [fuel] bounds the number of iterations. *)
Fixpoint repeat_loop (body : nat → capture → list (nat * capture))
    (lo : nat) (hi : option nat) (fuel count pos : nat) (cap : capture)
  : list (nat * capture) :=
  let stop := if lo <=? count then [(pos, cap)] else [] in
  match fuel with
  | 0 => stop
  | S fuel' =>
      let more :=
        if match hi with Some h => count <? h | None => true end
        then flat_map
               (fun '(p, c) =>
                  if p =? pos then []
                  else repeat_loop body lo hi fuel' (S count) p c)
               (body pos cap)
        else [] in
      more ++ stop
  end.

(** All ways to match [r] at [pos], in backtracking order: each is the
    end position with the capture. *)
Fixpoint run (r : regex) (pos : nat) (cap : capture)
  : list (nat * capture) :=
  match r with
  | Lit c => one (lit_matches c) pos cap
  | Digit => one Text.is_decimal pos cap
  | OneOf items => one (fun x => existsb (item_matches x) items) pos cap
  | WordBoundary => if at_boundary pos then [(pos, cap)] else []
  | Seq r1 r2 => flat_map (fun '(p, c) => run r2 p c) (run r1 pos cap)
  | Repeat lo hi r' =>
      repeat_loop (run r') lo hi (S (length text)) 0 pos cap
  | Group r' => map (fun '(p, _) => (p, Some (pos, p))) (run r' pos cap)
  end.

Definition slice (i j : nat) : string :=
  string_of_list_ascii (take (j - i) (drop i text)).

(** What [findall] reports for a match of [r] from [pos] to [e]. *)
Definition report (r : regex) (pos e : nat) (cap : capture) : string :=
  if has_group r
  then match cap with Some (i, j) => slice i j | None => "" end
  else slice pos e.

(** Scan for non-overlapping matches, leftmost first. *)
Fixpoint scan (r : regex) (fuel pos : nat) : list string :=
  match fuel with
  | 0 => []
  | S fuel' =>
      if length text <? pos then []
      else match run r pos None with
           | (e, cap) :: _ =>
               report r pos e cap
               :: scan r fuel' (if e =? pos then S pos else e)
           | [] => scan r fuel' (S pos)
           end
  end.

End Matcher.

(** [re.findall(pattern, text, re.IGNORECASE)] *)
Definition findall_ignorecase (r : regex) (text : string) : list string :=
  let t := list_ascii_of_string text in
  scan true t r (S (length t)) 0.

End Re.

(** The pattern list shared by both e-mail services:
<<
    r'\b\d{4,6}\b', r'OTP[:\s]*(\d{4,6})', r'verification[:\s]*(\d{4,6})',
    r'code[:\s]*(\d{4,6})', r'(\d{4,6})'
>> *)
Module Patterns.
Import Re.

Definition digits_4_6 : regex := Repeat 4 (Some 6) Digit.
Definition colon_or_space : regex :=
  Repeat 0 None (OneOf [ItemChar ":"%char; ItemSpace]).

Definition bounded_digits : regex :=
  Seq WordBoundary (Seq digits_4_6 WordBoundary).
Definition labelled (label : string) : regex :=
  word label (Seq colon_or_space (Group digits_4_6)).
Definition bare_digits : regex := Group digits_4_6.

Definition otp_patterns : list regex :=
  [ bounded_digits;
    labelled "OTP";
    labelled "verification";
    labelled "code";
    bare_digits ].
End Patterns.

(** * [services/temp_email_v2.py] *)

Module TempEmailV2.

(** The loop of [_extract_otp_from_text] over the patterns: the first
    match of a pattern is returned when it passes the length and digit
    check, otherwise the next pattern is tried. *)
Fixpoint extract_with (patterns : list Re.regex) (text : string)
  : option string :=
  match patterns with
  | [] => None
  | pattern :: rest =>
      match Re.findall_ignorecase pattern text with
      | otp :: _ =>
          if (4 <=? String.length otp) && (String.length otp <=? 6)
             && Text.isdigit otp
          then Some otp
          else extract_with rest text
      | [] => extract_with rest text
      end
  end.

Definition _extract_otp_from_text (text : string) : option string :=
  extract_with Patterns.otp_patterns text.

(** *** The Mail.tm inbox *)

(** An HTTP response with its decoded JSON body. *)
Record response (A : Type) : Type := {
  status_code : nat;
  json : A
}.
Arguments status_code {A} _.
Arguments json {A} _.

(** The body of [GET /messages/{id}]: [text] is the entry ['text']
    (['']  when missing) and [html] the list under ['html'] (empty when
    missing). *)
Record message_content : Type := {
  text : string;
  html : list string
}.

(** The Mail.tm API as the service sees it. A request either raises
    (network error, undecodable body) or yields a response; an entry of
    ['hydra:member'] is represented by its ['id'], if it has one. *)
Record MailTm : Type := {
  get_messages : Result exn (response (list (option string)));
  get_message : string → Result exn (response message_content)
}.

(** The attributes of the service object read by [get_otp]. *)
Record service : Type := {
  service_used : option string;
  auth_token : option string
}.

Definition token_set (s : service) : bool :=
  match auth_token s with
  | Some t => Text.truthy t
  | None => false
  end.

(** [message_content.get('html', [''])[0] if message_content.get('html')
    else ''] *)
Definition html_content (m : message_content) : string :=
  match html m with
  | h :: _ => h
  | [] => ""
  end.

(** The loop of [_get_mailtm_otp] over [messages[:5]]; a raising request
    aborts the loop. *)
Fixpoint check_messages (api : MailTm) (messages : list (option string))
  : Result exn (option string) :=
  match messages with
  | [] => Ret None
  | message :: rest =>
      match message with
      | None => check_messages api rest
      | Some message_id =>
          if negb (Text.truthy message_id) then check_messages api rest
          else
            match get_message api message_id with
            | Raise e => Raise e
            | Ret message_response =>
                if negb (status_code message_response =? 200)
                then check_messages api rest
                else
                  let message_content := json message_response in
                  let otp :=
                    _extract_otp_from_text
                      (text message_content ++ " "
                       ++ html_content message_content) in
                  match otp with
                  | Some code =>
                      if Text.truthy code then Ret (Some code)
                      else check_messages api rest
                  | None => check_messages api rest
                  end
            end
      end
  end.

Definition _get_mailtm_otp (api : MailTm) (s : service) : option string :=
  let attempt : Result exn (option string) :=
    if negb (token_set s) then Ret None
    else
      match get_messages api with
      | Raise e => Raise e
      | Ret messages_response =>
          if negb (status_code messages_response =? 200) then Ret None
          else
            match json messages_response with
            | [] => Ret None
            | messages => check_messages api (take 5 messages)
            end
      end in
  match attempt with
  | Ret otp => otp
  | Raise _ => None
  end.

(** The two fallbacks are stubs in the source. *)
Definition _try_10minutemail_otp (email : string) : option string := None.
Definition _try_tempmail_otp (email : string) : option string := None.

Definition get_otp (api : MailTm) (s : service) (email : string)
  : option string :=
  if bool_decide (service_used s = Some "Mail.tm") && token_set s
  then _get_mailtm_otp api s
  else
    match _try_10minutemail_otp email with
    | Some otp => Some otp
    | None =>
        match _try_tempmail_otp email with
        | Some otp => Some otp
        | None => None
        end
    end.

End TempEmailV2.

(** * [services/temp_email.py] *)

Module TempEmail.

(** The dictionary built by [get_email_content]; only the two entries
    read by the extraction are kept. *)
Record email_content : Type := {
  subject : string;
  body : string
}.

(** One of the two loops of [extract_otp_from_email]: the first match of
    the first pattern that matches, unchecked. *)
Fixpoint search (patterns : list Re.regex) (text : string) : option string :=
  match patterns with
  | [] => None
  | pattern :: rest =>
      match Re.findall_ignorecase pattern text with
      | otp :: _ => Some otp
      | [] => search rest text
      end
  end.

Definition extract_otp_from_email (content : email_content) : option string :=
  match search Patterns.otp_patterns (body content) with
  | Some otp => Some otp
  | None => search Patterns.otp_patterns (subject content)
  end.

End TempEmail.


(** * [services/google_sheets.py] *)

Module GoogleSheets.

(** A pending record: [{'row_number': ..., 'data': {...}}]. *)
Record record : Type := {
  row_number : Z;
  data : gmap string string
}.

(** The spreadsheet behind [self.service], as the service sees it.

    - [values_get] is the outcome of the one read the service makes,
      [values().get(range="'Sample '!A:N").execute()]: the call raises,
      or it returns a result whose ['values'] entry may be missing.
      Cells are strings (the API's default rendering).
    - [accepts_updates] tells whether [values().update(...).execute()]
      goes through; when it does not, the call raises.
    - [cells] is the content of the Sample tab written so far, by column
      letter and row number. *)
Record sheet : Type := {
  values_get : Result exn (option (list (list string)));
  accepts_updates : bool;
  cells : gmap (string * Z) string
}.

(** [values().update(range="'Sample '!<column><row>", valueInputOption=
    'RAW', body={'values': [[value]]}).execute()]: overwrites one cell.
    A row below 1 is not an A1 reference and the request is refused. *)
Definition values_update (column : string) (row : Z) (value : string)
    (s : sheet) : Result exn unit * sheet :=
  if accepts_updates s && (1 <=? row)%Z
  then (Ret tt,
        {| values_get := values_get s;
           accepts_updates := accepts_updates s;
           cells := <[(column, row) := value]> (cells s) |})
  else (Raise (HttpError "update failed"), s).

(** The shape shared by the three writers: [True] after the update,
    [False] when it raised. *)
Definition write_cell (column : string) (row : Z) (value : string)
    (s : sheet) : bool * sheet :=
  match values_update column row value s with
  | (Ret _, s') => (true, s')
  | (Raise _, s') => (false, s')
  end.

(** Status is column H. *)
Definition update_record_status (row_number : Z) (status : string)
  : sheet → bool * sheet :=
  write_cell "H" row_number status.

(** The error log is column N. *)
Definition log_error (row_number : Z) (error_message : string)
  : sheet → bool * sheet :=
  write_cell "N" row_number error_message.

(** The e-mail used is column M. *)
Definition update_email_used (row_number : Z) (email : string)
  : sheet → bool * sheet :=
  write_cell "M" row_number email.

(** [header and 'status' in header.lower()] *)
Definition is_status_header (header : string) : bool :=
  Text.truthy header && Text.contains "status" (Text.lower header).

(** The search for the STATUS column: index of the first matching
    header. *)
Fixpoint find_status_column (headers : list string) (i : nat) : option nat :=
  match headers with
  | [] => None
  | header :: rest =>
      if is_status_header header then Some i
      else find_status_column rest (S i)
  end.

(** [status and status.lower() in ['pending', 'pending']] *)
Definition is_pending (status : string) : bool :=
  Text.truthy status
  && existsb (String.eqb (Text.lower status)) ["pending"; "pending"].

(** The dictionary of a row: header name, or [Column_<i+1>] past the
    last header; a later duplicate key overwrites an earlier one. *)
Fixpoint record_data (headers row : list string) (i : nat)
    (acc : gmap string string) : gmap string string :=
  match row with
  | [] => acc
  | value :: rest =>
      let key :=
        match headers !! i with
        | Some header => header
        | None => "Column_" ++ pretty (i + 1)
        end in
      record_data headers rest (S i) (<[key := value]> acc)
  end.

(** The loop over [enumerate(values[1:], start=2)]. *)
Fixpoint pending_rows (headers : list string) (status_column_index : nat)
    (rows : list (list string)) (row_index : Z) : list record :=
  match rows with
  | [] => []
  | row :: rest =>
      let others :=
        pending_rows headers status_column_index rest (row_index + 1) in
      if status_column_index <? length row then
        match row !! status_column_index with
        | Some status =>
            if is_pending status
            then {| row_number := row_index;
                    data := record_data headers row 0 ∅ |} :: others
            else others
        | None => others
        end
      else others
  end.

(** The [try] block of [get_pending_records]. *)
Definition get_pending_records_body (s : sheet) : Result exn (list record) :=
  match values_get s with
  | Raise e => Raise e
  | Ret result =>
      match default [] result with
      | [] => Ret []
      | headers :: rows =>
          match find_status_column headers 0 with
          | None => Ret []
          | Some status_column_index =>
              Ret (pending_rows headers status_column_index rows 2)
          end
      end
  end.

(** [get_pending_records]: any exception of the block is logged and an
    empty list returned. *)
Definition get_pending_records (s : sheet) : Result exn (list record) :=
  match get_pending_records_body s with
  | Ret pending_records => Ret pending_records
  | Raise _ => Ret []
  end.

End GoogleSheets.

(** * State and effects of the bot *)

(** Code with side effects is a function from the state to a result and
    the state left behind; an exception leaves the state as it was when
    raised. *)
Module Eff.

Definition Eff (S A : Type) : Type := S → Result exn A * S.

Definition ret {S A} (a : A) : Eff S A := fun s => (Ret a, s).

Definition raise {S A} (e : exn) : Eff S A := fun s => (Raise e, s).

Definition bind {S A B} (m : Eff S A) (k : A → Eff S B) : Eff S B :=
  fun s =>
    let '(r, s') := m s in
    match r with
    | Ret a => k a s'
    | Raise e => (Raise e, s')
    end.

(** [try: m  except Exception as e: handler e] (also the bare
    [except:]). *)
Definition try_except {S A} (m : Eff S A) (handler : exn → Eff S A)
  : Eff S A :=
  fun s =>
    let '(r, s') := m s in
    match r with
    | Ret a => (Ret a, s')
    | Raise e => handler e s'
    end.

Definition is_lookup_failure (e : exn) : bool :=
  match e with
  | TimeoutException | NoSuchElementException => true
  | _ => false
  end.

(** [try: m  except (TimeoutException, NoSuchElementException): h]:
    other exceptions pass through. *)
Definition try_except_lookup {S A} (m : Eff S A) (h : Eff S A) : Eff S A :=
  try_except m (fun e => if is_lookup_failure e then h else raise e).

(** [try: m  except TimeoutException: h] *)
Definition try_except_timeout {S A} (m : Eff S A) (h : Eff S A) : Eff S A :=
  try_except m
    (fun e => match e with TimeoutException => h | _ => raise e end).

(** [try: m  finally: cleanup]: an exception of [cleanup] replaces the
    outcome of [m]. *)
Definition try_finally {S A} (m : Eff S A) (cleanup : Eff S unit)
  : Eff S A :=
  fun s =>
    let '(r, s') := m s in
    let '(c, s'') := cleanup s' in
    match c with
    | Ret _ => (r, s'')
    | Raise e => (Raise e, s'')
    end.

(** Read and write access to the state. *)
Definition gets {S A} (f : S → A) : Eff S A := fun s => (Ret (f s), s).
Definition modify {S} (f : S → S) : Eff S unit := fun s => (Ret tt, f s).

(** Run a computation on a component of the state. *)
Definition zoom {S T A} (get : T → S) (set : S → T → T) (m : Eff S A)
  : Eff T A :=
  fun t => let '(r, s') := m (get t) in (r, set s' t).

End Eff.

Declare Scope eff_scope.
Delimit Scope eff_scope with eff.
Notation "x <- m ;; k" := (Eff.bind m (fun x => k))
  (at level 100, m at next level, k at level 200, right associativity)
  : eff_scope.
Notation "m ;; k" := (Eff.bind m (fun _ => k))
  (at level 100, k at level 200, right associativity) : eff_scope.

(** * [automation/nusuk_bot.py] *)

Module NusukBot.
Import Eff.
Local Open Scope eff_scope.

(** ** The world outside the bot *)

(** Browser sessions, page elements and temporary directories are
    handles; sessions and directories are numbered in order of
    creation. *)
Definition session : Type := nat.
Definition element : Type := nat.
Definition path : Type := nat.

(** Locator strategies ([By.ID], [By.XPATH], [By.CSS_SELECTOR]). *)
Inductive By : Type := ID | XPATH | CSS_SELECTOR.

(** Expected conditions passed to [WebDriverWait.until]. *)
Inductive condition : Type :=
| element_to_be_clickable
| presence_of_element_located.

(** The JavaScript snippets handed to [execute_script]; their text is
    parameter data. *)
Inductive script : Type :=
| HideWebdriver | FakePlugins | FakeLanguages | FakePermissions
| RandomizeFingerprint
| MouseMovements | Scrolling | FocusChanges
| ClickArgument            (* "arguments[0].click();" *)
| ScrollIntoView.          (* "arguments[0].scrollIntoView(true);" *)

(** What [send_keys] receives. *)
Inductive keys : Type :=
| Text (s : string)
| TAB.

(** [time.sleep]: a number of seconds, or [random.uniform] between two
    bounds in milliseconds. *)
Inductive pause : Type :=
| Seconds (n : nat)
| Uniform (lo_ms hi_ms : N).
Arguments Uniform (lo_ms hi_ms)%_N.

(** A request to the outside world, indexed by the type of its answer. *)
Inductive call : Type → Type :=
(* WebDriver *)
| Get (d : session) (url : string) : call unit
| FindElement (d : session) (b : By) (value : string) : call element
| FindElements (d : session) (b : By) (value : string) : call (list element)
| ExecuteScript (d : session) (s : script) (args : list element) : call unit
| PageSource (d : session) : call string
| Title (d : session) : call string
| CurrentUrl (d : session) : call string
| MaximizeWindow (d : session) : call unit
| Quit (d : session) : call unit
(* WebDriverWait bound to a session *)
| Until (d : session) (c : condition) (b : By) (value : string) : call element
(* WebDriverWait(driver, t).until(lambda ...) on the title and on the
   size of the page source *)
| UntilTitle (d : session) : call unit
| UntilContent (d : session) : call unit
(* WebElement *)
| Click (e : element) : call unit
| Clear (e : element) : call unit
| SendKeys (e : element) (k : keys) : call unit
| GetText (e : element) : call string
| GetAttribute (e : element) (name : string) : call (option string)
| IsDisplayed (e : element) : call bool
(* the host: imports, browser launches, the profile directory *)
| ImportFirefox : call unit
| LaunchFirefox : call unit
| ImportUndetected : call unit
| LaunchUndetected (profile : option path) (headless : bool) : call unit
| LaunchChromeManaged (profile : option path) (headless : bool) : call unit
| LaunchChrome (profile : option path) (headless : bool) : call unit
| Mkdtemp : call unit
| WriteProfile (dir : path) : call unit.

(** What the bot did and what it was answered. *)
Inductive event : Type :=
| Called {A : Type} (c : call A) (r : Result exn A)
| Slept (p : pause).

(** The outside world answers a request knowing everything that
    happened before. *)
Definition Env : Type := ∀ A, list event → call A → Result exn A.

(** ** The bot object *)

(** The attributes of a [NusukBot] together with the history of its
    interaction. [wait] is the session the [WebDriverWait] is bound
    to. *)
Record State : Type := {
  driver : option session;
  wait : option session;
  headless : bool;
  current_record : option GoogleSheets.record;
  current_email : option string;
  cloned_profile_path : option path;
  temp_dir : option path;
  trace : list event
}.

Definition log_event (ev : event) (st : State) : State :=
  {| driver := driver st; wait := wait st; headless := headless st;
     current_record := current_record st;
     current_email := current_email st;
     cloned_profile_path := cloned_profile_path st;
     temp_dir := temp_dir st;
     trace := trace st ++ [ev] |}.

Definition set_driver (d : session) (st : State) : State :=
  {| driver := Some d; wait := wait st; headless := headless st;
     current_record := current_record st;
     current_email := current_email st;
     cloned_profile_path := cloned_profile_path st;
     temp_dir := temp_dir st;
     trace := trace st |}.

Definition set_wait (d : option session) (st : State) : State :=
  {| driver := driver st; wait := d; headless := headless st;
     current_record := current_record st;
     current_email := current_email st;
     cloned_profile_path := cloned_profile_path st;
     temp_dir := temp_dir st;
     trace := trace st |}.

Definition set_current_record (r : GoogleSheets.record) (st : State) : State :=
  {| driver := driver st; wait := wait st; headless := headless st;
     current_record := Some r;
     current_email := current_email st;
     cloned_profile_path := cloned_profile_path st;
     temp_dir := temp_dir st;
     trace := trace st |}.

Definition set_current_email (email : string) (st : State) : State :=
  {| driver := driver st; wait := wait st; headless := headless st;
     current_record := current_record st;
     current_email := Some email;
     cloned_profile_path := cloned_profile_path st;
     temp_dir := temp_dir st;
     trace := trace st |}.

Definition set_profile (profile dir : path) (st : State) : State :=
  {| driver := driver st; wait := wait st; headless := headless st;
     current_record := current_record st;
     current_email := current_email st;
     cloned_profile_path := Some profile;
     temp_dir := Some dir;
     trace := trace st |}.

(** [NusukBot(headless)] before [setup_driver]. *)
Definition new_bot (headless : bool) : State :=
  {| driver := None; wait := None; headless := headless;
     current_record := None; current_email := None;
     cloned_profile_path := None; temp_dir := None; trace := [] |}.

Definition M : Type → Type := Eff State.

(** Using an attribute that is still [None]. *)
Definition attribute_error : exn :=
  OtherException "'NoneType' object has no attribute".

Section Driver.
Variable env : Env.

(** [Config.NUSUK_BASE_URL] *)
Variable NUSUK_BASE_URL : string.

(** Send a request and record it with its answer. *)
Definition perform {A} (c : call A) : M A :=
  fun st =>
    let r := env A (trace st) c in
    (r, log_event (Called c r) st).

Definition sleep (p : pause) : M unit :=
  modify (log_event (Slept p)).

(** A method of [self.driver]. *)
Definition on_driver {A} (c : session → call A) : M A :=
  fun st =>
    match driver st with
    | Some d => perform (c d) st
    | None => raise attribute_error st
    end.

(** [self.wait.until(condition((b, value)))] *)
Definition until (c : condition) (b : By) (value : string) : M element :=
  fun st =>
    match wait st with
    | Some d => perform (Until d c b value) st
    | None => raise attribute_error st
    end.

(** The choice made by [if selector.startswith("//")]. *)
Definition by_of (selector : string) : By :=
  if String.prefix "//" selector then XPATH else CSS_SELECTOR.

(** The loop of [simulate_human_typing] over the characters. *)
Fixpoint type_chars (e : element) (chars : list ascii) : M unit :=
  match chars with
  | [] => ret tt
  | char :: rest =>
      perform (SendKeys e (Text (String char ""))) ;;
      sleep (Uniform 50 150) ;;
      type_chars e rest
  end.

Definition simulate_human_typing (e : element) (text : string) : M unit :=
  try_except
    (perform (Clear e) ;;
     type_chars e (list_ascii_of_string text))
    (fun _ =>
       perform (Clear e) ;;
       perform (SendKeys e (Text text))).

Definition simulate_human_click (e : element) : M unit :=
  try_except
    (sleep (Uniform 100 500) ;;
     try_except
       (on_driver (fun d => ExecuteScript d ClickArgument [e]))
       (fun _ => perform (Click e)) ;;
     sleep (Uniform 200 800))
    (fun _ => perform (Click e)).

(** *** [navigate_to_nusuk] *)

Definition navigate_to_nusuk : M bool :=
  try_except
    (on_driver (fun d => Get d NUSUK_BASE_URL) ;;
     sleep (Seconds 5) ;;
     try_except_timeout
       (on_driver UntilTitle ;;
        _ <- on_driver Title ;;
        ret tt)
       (ret tt) ;;
     try_except_timeout (on_driver UntilContent) (ret tt) ;;
     sleep (Seconds 5) ;;
     title <- on_driver Title ;;
     if Text.contains "nusuk" (Text.lower title) then
       _ <- on_driver Title ;;
       ret true
     else
       title <- on_driver Title ;;
       nonblank <-
         (if Text.truthy title
          then title <- on_driver Title ;; ret (Text.has_visible title)
          else ret false) ;;
       if nonblank then
         _ <- on_driver Title ;;
         page_source <- on_driver PageSource ;;
         if 1000 <? String.length page_source then ret true
         else ret false
       else ret false)
    (fun _ => ret false).

(** *** [switch_to_english] *)

(** A loop that keeps the first element located: [current] is the
    variable the loop assigns ([en_option], [ar_button]). The element
    is assigned before its text is read for the log, so a lookup
    failure while reading leaves it assigned and moves on. *)
Fixpoint locate_first (pick : string → By) (selectors : list string)
    (current : option element) : M (option element) :=
  match selectors with
  | [] => ret current
  | selector :: rest =>
      located <-
        try_except_lookup
          (e <- until element_to_be_clickable (pick selector) selector ;;
           ret (Some e))
          (ret None) ;;
      match located with
      | None => locate_first pick rest current
      | Some e =>
          logged <-
            try_except_lookup
              (_ <- perform (GetText e) ;; ret true)
              (ret false) ;;
          if logged then ret (Some e)
          else locate_first pick rest (Some e)
      end
  end.

Definition en_selectors : list string :=
  [ "//a[contains(text(), 'En') or contains(text(), 'EN') or contains(text(), 'English')]";
    "//li[contains(text(), 'En') or contains(text(), 'EN') or contains(text(), 'English')]";
    "//div[contains(text(), 'En') or contains(text(), 'EN') or contains(text(), 'English')]" ].

Definition ar_selectors : list string :=
  [ "//a[contains(text(), 'AR') or contains(text(), 'Ar')]";
    "//span[contains(text(), 'AR') or contains(text(), 'Ar')]";
    "//div[contains(text(), 'AR') or contains(text(), 'Ar')]";
    "//button[contains(text(), 'AR') or contains(text(), 'Ar')]";
    ".dropdown-toggle";
    "[id*='dropdown']";
    "[class*='dropdown']";
    "[class*='language']";
    "[class*='lang']" ].

(** Shared by both paths: with the dropdown open, pick the English
    entry and check that the page is now in English. *)
Definition choose_english : M bool :=
  en_option <- locate_first (fun _ => XPATH) en_selectors None ;;
  match en_option with
  | Some en_option =>
      simulate_human_click en_option ;;
      sleep (Seconds 3) ;;
      page_source <- on_driver PageSource ;;
      let page_text := Text.lower page_source in
      if Text.contains "create account" page_text
         || Text.contains "foreign guest" page_text
      then ret true
      else ret false
  | None => ret false
  end.

Definition switch_to_english : M bool :=
  try_except
    (sleep (Seconds 8) ;;
     try_except
       (ar_button <- on_driver (fun d => FindElement d ID "dropdownMenuLink") ;;
        _ <- perform (GetText ar_button) ;;
        simulate_human_click ar_button ;;
        sleep (Seconds 3) ;;
        choose_english)
       (fun _ =>
          ar_button <- locate_first by_of ar_selectors None ;;
          match ar_button with
          | Some ar_button =>
              simulate_human_click ar_button ;;
              sleep (Seconds 3) ;;
              choose_english
          | None => ret false
          end))
    (fun _ => ret false).

(** *** [select_foreign_guest] *)

(** [زائر دولي], "international visitor", by code points. *)
Definition international_visitor : list N :=
  [1586; 1575; 1574; 1585; 32; 1583; 1608; 1604; 1610]%N.

(** Selector texts are opaque to the bot except for their first two
    characters; the three Arabic ones are written as in the source. *)
Definition foreign_guest_selectors : list string :=
  [ "//label[contains(text(), 'Foreign Guest')]";
    "//div[contains(text(), 'Foreign Guest')]";
    "//span[contains(text(), 'Foreign Guest')]";
    "//label[contains(text(), 'زائر دولي')]";
    "//div[contains(text(), 'زائر دولي')]";
    "//span[contains(text(), 'زائر دولي')]";
    "//input[@type='radio'][@id='type3']";
    "//p-radiobutton[@id='type3']";
    "#type3";
    "[id='type3']";
    ".p-radiobutton.p-component" ].

(** The [try] block of the fallback loop for one selector. *)
Definition foreign_guest_attempt (selector : string) : M bool :=
  element <- until element_to_be_clickable (by_of selector) selector ;;
  _ <- perform (GetText element) ;;
  on_driver (fun d => ExecuteScript d ScrollIntoView [element]) ;;
  sleep (Seconds 1) ;;
  perform (Click element) ;;
  sleep (Seconds 2) ;;
  ret true.

(** The fallback loop over the selectors: [true] when an element was
    clicked (the source returns [True] from inside the loop), [false]
    when the list is exhausted. Both [except] clauses continue. *)
Fixpoint foreign_guest_fallback (selectors : list string) : M bool :=
  match selectors with
  | [] => ret false
  | selector :: rest =>
      try_except
        (foreign_guest_attempt selector)
        (fun _ => foreign_guest_fallback rest)
  end.

Definition mentions_foreign_guest (element_text : string) : bool :=
  Text.contains "foreign guest" element_text
  || Text.contains_wide international_visitor element_text.

(** The loop over [clickable_elements]. *)
Fixpoint click_by_text (elements : list element) : M bool :=
  match elements with
  | [] => ret false
  | element :: rest =>
      clicked <-
        try_except
          (text <- perform (GetText element) ;;
           let element_text := Text.lower text in
           if mentions_foreign_guest element_text
           then
             _ <- perform (GetText element) ;;
             perform (Click element) ;;
             sleep (Seconds 2) ;;
             ret true
           else ret false)
          (fun _ => ret false) ;;
      if clicked then ret true else click_by_text rest
  end.

Definition clickable_xpath : string :=
  "//input[@type='radio'] | //p-radiobutton | //label | //div[@role='button'] | //div[contains(@class, 'card')] | //div[contains(@class, 'btn')]".

(** The last resort: search the page text. *)
Definition foreign_guest_text_search : M bool :=
  try_except
    (page_text <- on_driver PageSource ;;
     if Text.contains "Foreign Guest" page_text
        || Text.contains_wide international_visitor page_text
     then
       clickable_elements <-
         on_driver (fun d => FindElements d XPATH clickable_xpath) ;;
       click_by_text clickable_elements
     else ret false)
    (fun _ => ret false).

Definition select_foreign_guest : M bool :=
  try_except
    (sleep (Seconds 3) ;;
     try_except
       (foreign_guest_radio <- on_driver (fun d => FindElement d ID "type3") ;;
        _ <- perform (GetAttribute foreign_guest_radio "aria-label") ;;
        perform (Click foreign_guest_radio) ;;
        sleep (Seconds 2) ;;
        ret true)
       (fun _ =>
          clicked <- foreign_guest_fallback foreign_guest_selectors ;;
          if clicked then ret true
          else
            clicked <- foreign_guest_text_search ;;
            if clicked then ret true else ret false))
    (fun _ => ret false).

(** *** [fill_initial_info] *)

(** [record_data.get(key, '')] *)
Definition get_field (record_data : gmap string string) (key : string)
  : string :=
  default "" (record_data !! key).

Definition visa_selectors : list string :=
  [ "//input[@placeholder='Visa Number']";
    "//input[contains(@placeholder, 'Visa')]";
    "//input[@name='visa']";
    "//input[@id='visa']";
    "#visa-number";
    "[data-field='visa']" ].

(** The visa loop; the result is [visa_filled]. *)
Fixpoint fill_visa (record_data : gmap string string)
    (selectors : list string) : M bool :=
  match selectors with
  | [] => ret false
  | selector :: rest =>
      try_except_lookup
        (element <- until presence_of_element_located (by_of selector) selector ;;
         perform (Clear element) ;;
         let visa_number := get_field record_data "VISA NO" in
         simulate_human_typing element visa_number ;;
         ret true)
        (fill_visa record_data rest)
  end.

Definition nationality_selectors : list string :=
  [ "//span[@role='combobox' and contains(@aria-label, 'Select Nationality')]";
    "//span[contains(@class, 'p-dropdown-label') and contains(text(), 'Select Nationality')]";
    "//span[contains(@class, 'p-dropdown-label')]";
    "//span[@role='combobox']";
    "//input[@placeholder='Select Nationality']";
    "//input[contains(@placeholder, 'Nationality')]";
    "//input[@name='nationality']";
    "//input[@id='nationality']";
    "#nationality";
    "[data-field='nationality']" ].

Definition search_xpath : string := "//input[@placeholder='Search']".

Definition dropdown_items_xpath : string :=
  "//li[contains(@class, 'p-dropdown-item')] | //li[contains(@class, 'dropdown-item')] | //li[contains(@class, 'option')]".

(** The branch for India: type the name in the search field, then take
    the second option. The result is [nationality_selected]. *)
Definition select_india : M bool :=
  try_except
    (search_input <- on_driver (fun d => FindElement d XPATH search_xpath) ;;
     perform (Clear search_input) ;;
     simulate_human_typing search_input "India" ;;
     sleep (Seconds 2))
    (fun _ => ret tt) ;;
  nationality_options <-
    on_driver (fun d => FindElements d XPATH dropdown_items_xpath) ;;
  if 2 <=? length nationality_options then
    try_except
      (match nationality_options !! 1 with
       | Some second_option =>
           _ <- perform (GetText second_option) ;;
           perform (Click second_option) ;;
           _ <- perform (GetText second_option) ;;
           sleep (Seconds 2) ;;
           ret true
       | None => raise (OtherException "list index out of range")
       end)
      (fun _ => ret false)
  else ret false.

Definition nationality_option_selectors (nationality : string)
  : list string :=
  [ "//li[contains(text(), '" ++ nationality ++ "')]";
    "//div[contains(text(), '" ++ nationality ++ "')]";
    "//span[contains(text(), '" ++ nationality ++ "')]";
    "//option[contains(text(), '" ++ nationality ++ "')]" ].

(** The branch for other nationalities. *)
Fixpoint select_option (option_selectors : list string) : M bool :=
  match option_selectors with
  | [] => ret false
  | option_selector :: rest =>
      selected <-
        try_except
          (nationality_option <-
             on_driver (fun d => FindElement d XPATH option_selector) ;;
           _ <- perform (GetText nationality_option) ;;
           perform (Click nationality_option) ;;
           ret true)
          (fun _ => ret false) ;;
      if selected then ret true else select_option rest
  end.

(** The retry through the search field; it reports success even when
    it fails ("continue anyway"). *)
Definition select_by_search (nationality : string) : M bool :=
  try_except
    (search_input <- on_driver (fun d => FindElement d XPATH search_xpath) ;;
     perform (Clear search_input) ;;
     perform (SendKeys search_input (Text nationality)) ;;
     sleep (Seconds 2) ;;
     search_result <-
       on_driver (fun d =>
         FindElement d XPATH
           ("//li[contains(text(), '" ++ nationality ++ "')]")) ;;
     perform (Click search_result) ;;
     ret true)
    (fun _ => ret true).

(** The [try] block of the nationality loop for one selector. *)
Definition nationality_attempt (record_data : gmap string string)
    (selector : string) : M bool :=
  element <- until element_to_be_clickable (by_of selector) selector ;;
  _ <- perform (GetText element) ;;
  simulate_human_click element ;;
  sleep (Seconds 2) ;;
  let nationality := get_field record_data "NATIONALITY" in
  nationality_selected <-
    (if String.eqb (Text.lower nationality) "india"
     then select_india
     else select_option (nationality_option_selectors nationality)) ;;
  _ <- (if negb nationality_selected
        then select_by_search nationality
        else ret nationality_selected) ;;
  ret true.

(** The nationality loop; the result is [nationality_filled]. *)
Fixpoint fill_nationality (record_data : gmap string string)
    (selectors : list string) : M bool :=
  match selectors with
  | [] => ret false
  | selector :: rest =>
      try_except_lookup
        (nationality_attempt record_data selector)
        (fill_nationality record_data rest)
  end.

Definition passport_selectors : list string :=
  [ "//input[@placeholder='Passport Number']";
    "//input[contains(@placeholder, 'Passport')]";
    "//input[@name='passport']";
    "//input[@id='passport']";
    "#passport-number";
    "[data-field='passport']" ].

(** The passport number of the record: the first non-empty of six
    column names. *)
Definition passport_number (record_data : gmap string string) : string :=
  Text.or_else
    (Text.or_else
       (Text.or_else
          (Text.or_else
             (Text.or_else (get_field record_data "Passport NO")
                           (get_field record_data "PASSPORT NO"))
             (get_field record_data "Passport Number"))
          (get_field record_data "PASSPORT NUMBER"))
       (get_field record_data "Passport"))
    (get_field record_data "PASSPORT").

Definition default_passport : string := "AB315033".

(** The [try] block of the passport loop for one selector. *)
Definition passport_attempt (record_data : gmap string string)
    (selector : string) : M bool :=
  element <- until presence_of_element_located (by_of selector) selector ;;
  perform (Clear element) ;;
  sleep (Seconds 1) ;;
  let passport_number := passport_number record_data in
  if Text.truthy passport_number then
    simulate_human_typing element passport_number ;;
    ret true
  else
    simulate_human_typing element default_passport ;;
    ret true.

(** The passport loop; the result is [passport_filled]. Every
    exception moves on to the next selector. *)
Fixpoint fill_passport (record_data : gmap string string)
    (selectors : list string) : M bool :=
  match selectors with
  | [] => ret false
  | selector :: rest =>
      try_except
        (passport_attempt record_data selector)
        (fun _ => fill_passport record_data rest)
  end.

Definition initial_next_selectors : list string :=
  [ "//button[.//span[contains(text(), 'Next')]]";
    "//button[.//span[text()='Next']]";
    "//button[contains(@class, 'btn') and contains(@class, 'login-btn')]";
    "//button[contains(@class, 'p-button')]";
    "//button[@type='submit']";
    ".btn.login-btn";
    "#next-button" ].

(** The loop over the Next-button selectors. *)
Fixpoint click_next (selectors : list string) : M bool :=
  match selectors with
  | [] => ret false
  | selector :: rest =>
      try_except_lookup
        (element <- until element_to_be_clickable (by_of selector) selector ;;
         _ <- perform (GetText element) ;;
         simulate_human_click element ;;
         sleep (Seconds 3) ;;
         ret true)
        (click_next rest)
  end.

Definition fill_initial_info (record_data : gmap string string) : M bool :=
  try_except
    (visa_filled <- fill_visa record_data visa_selectors ;;
     if negb visa_filled then ret false
     else
       nationality_filled <-
         fill_nationality record_data nationality_selectors ;;
       if negb nationality_filled then ret false
       else
         passport_filled <- fill_passport record_data passport_selectors ;;
         if negb passport_filled then ret false
         else click_next initial_next_selectors)
    (fun _ => ret false).

(** *** [fill_personal_details] *)

Definition dob_selectors : list string :=
  [ "//input[@placeholder='Specify date of birth']";
    "//input[contains(@placeholder, 'date of birth')]";
    "//input[@role='combobox']";
    "//input[contains(@class, 'p-calendar')]";
    "//input[contains(@class, 'p-inputtext')]" ].

(** The date-of-birth loop; the result is [dob_filled]. A record
    without a date leaves the loop at the first field found. *)
Fixpoint fill_dob (record_data : gmap string string)
    (selectors : list string) : M bool :=
  match selectors with
  | [] => ret false
  | selector :: rest =>
      try_except_lookup
        (element <- until presence_of_element_located XPATH selector ;;
         perform (Clear element) ;;
         sleep (Seconds 1) ;;
         let dob_value := get_field record_data "DOB" in
         if Text.truthy dob_value then
           let dob_value :=
             if Text.contains "/" dob_value
             then Text.replace_char "/" "-" dob_value
             else dob_value in
           simulate_human_typing element dob_value ;;
           perform (SendKeys element TAB) ;;
           sleep (Seconds 1) ;;
           ret true
         else ret false)
        (fill_dob record_data rest)
  end.

Definition male_selectors : list string :=
  [ "//p-radiobutton[@formcontrolname='gender' and @value='1']//div[contains(@class, 'p-radiobutton-box')]";
    "//p-radiobutton[@id='gender1']//div[contains(@class, 'p-radiobutton-box')]";
    "//div[contains(@class, 'p-radiobutton-box')][ancestor::p-radiobutton[@value='1']]";
    "//label[contains(text(), 'Male')]";
    "//input[@id='gender1']" ].

Definition female_selectors : list string :=
  [ "//p-radiobutton[@formcontrolname='gender' and @value='2']//div[contains(@class, 'p-radiobutton-box')]";
    "//p-radiobutton[@id='gender2']//div[contains(@class, 'p-radiobutton-box')]";
    "//div[contains(@class, 'p-radiobutton-box')][ancestor::p-radiobutton[@value='2']]";
    "//label[contains(text(), 'Female')]";
    "//input[@id='gender2']" ].

(** An unknown value defaults to Male. *)
Definition gender_selectors (gender : string) : list string :=
  if existsb (String.eqb gender) ["M"; "MALE"] then male_selectors
  else if existsb (String.eqb gender) ["F"; "FEMALE"] then female_selectors
  else male_selectors.

(** A loop that clicks the first element located; used for the gender
    and the disability buttons. The result is the flag
    ([gender_selected], [disability_selected]). *)
Fixpoint click_first (pick : string → By) (pause_after : nat)
    (selectors : list string) : M bool :=
  match selectors with
  | [] => ret false
  | selector :: rest =>
      try_except_lookup
        (element <- until element_to_be_clickable (pick selector) selector ;;
         _ <- perform (GetText element) ;;
         simulate_human_click element ;;
         sleep (Seconds pause_after) ;;
         ret true)
        (click_first pick pause_after rest)
  end.

Definition phone_selectors : list string :=
  [ "//input[@id='mobile']";
    "//input[@placeholder='Phone Number']";
    "//input[contains(@placeholder, 'Phone')]";
    "//input[contains(@class, 'p-inputtext')]" ].

(** The phone loop: the phone number is the visa number. *)
Fixpoint fill_phone (record_data : gmap string string)
    (selectors : list string) : M bool :=
  match selectors with
  | [] => ret false
  | selector :: rest =>
      try_except_lookup
        (element <- until presence_of_element_located XPATH selector ;;
         perform (Clear element) ;;
         let visa_number := get_field record_data "VISA NO" in
         simulate_human_typing element visa_number ;;
         ret true)
        (fill_phone record_data rest)
  end.

Definition disability_selectors : list string :=
  [ "//p-radiobutton[@formcontrolname='needAssistance' and @value='0']//div[contains(@class, 'p-radiobutton-box')]";
    "//p-radiobutton[@id='type2']//div[contains(@class, 'p-radiobutton-box')]";
    "//label[contains(text(), 'No') and contains(@for, 'type2')]";
    "//label[contains(text(), 'No')]";
    "//span[contains(text(), 'No') and ancestor::p-radiobutton]";
    "//p-radiobutton[@formcontrolname='disability' and @value='no']//div[contains(@class, 'p-radiobutton-box')]";
    "//p-radiobutton[@formcontrolname='disability' and @value='false']//div[contains(@class, 'p-radiobutton-box')]";
    "//p-radiobutton[@id='disability2']//div[contains(@class, 'p-radiobutton-box')]" ].

Definition personal_next_selectors : list string :=
  [ "//button[.//span[contains(text(), 'Next')]]";
    "//button[contains(@class, 'btn') and contains(@class, 'login-btn')]";
    "//button[contains(@class, 'p-button')]";
    "//button[@type='submit']";
    ".btn.login-btn" ].

Definition fill_personal_details (record_data : gmap string string)
  : M bool :=
  try_except
    (dob_filled <- fill_dob record_data dob_selectors ;;
     if negb dob_filled then ret false
     else
       let gender := Text.upper (get_field record_data "SEX") in
       gender_selected <-
         click_first (fun _ => XPATH) 2 (gender_selectors gender) ;;
       if negb gender_selected then ret false
       else
         phone_filled <- fill_phone record_data phone_selectors ;;
         if negb phone_filled then ret false
         else
           disability_selected <- click_first by_of 1 disability_selectors ;;
           if negb disability_selected then ret false
           else click_next personal_next_selectors)
    (fun _ => ret false).

(** *** The manual hand-off steps *)

(** The countdown [for i in range(wait_time, 0, -1): time.sleep(1)]. *)
Fixpoint countdown (wait_time : nat) : M unit :=
  match wait_time with
  | 0 => ret tt
  | S remaining => sleep (Seconds 1) ;; countdown remaining
  end.

(** A probe loop: look for the first selector whose element is
    displayed. With [read_text] the element's text is read for the log
    before the flag is set. A failing lookup moves on to the next
    selector. The result is the flag ([success_found],
    [otp_field_found]). *)
Fixpoint probe (read_text : bool) (selectors : list string) : M bool :=
  match selectors with
  | [] => ret false
  | selector :: rest =>
      found <-
        try_except
          (element <- on_driver (fun d => FindElement d XPATH selector) ;;
           displayed <- perform (IsDisplayed element) ;;
           if displayed then
             (if read_text
              then _ <- perform (GetText element) ;; ret true
              else ret true)
           else ret false)
          (fun _ => ret false) ;;
      if found then ret true else probe read_text rest
  end.

(** The loop over the error selectors: it only logs. *)
Fixpoint report_errors (selectors : list string) : M unit :=
  match selectors with
  | [] => ret tt
  | selector :: rest =>
      try_except
        (error_element <- on_driver (fun d => FindElement d XPATH selector) ;;
         displayed <- perform (IsDisplayed error_element) ;;
         if displayed then _ <- perform (GetText error_element) ;; ret tt
         else ret tt)
        (fun _ => ret tt) ;;
      report_errors rest
  end.

Definition account_success_indicators : list string :=
  [ "//div[contains(text(), 'success')]";
    "//div[contains(text(), 'Success')]";
    "//div[contains(text(), 'Account created')]";
    "//div[contains(text(), 'Verification')]";
    "//div[contains(text(), 'OTP')]";
    "//div[contains(text(), 'verification code')]";
    "//input[@name='otp']";
    "//input[@placeholder*='OTP']";
    "//input[@placeholder*='verification']" ].

Definition error_selectors : list string :=
  [ "//div[contains(@class, 'error')]";
    "//div[contains(@class, 'alert')]";
    "//span[contains(@class, 'error')]";
    "//p[contains(@class, 'error')]" ].

Definition manual_input_completed : string := "MANUAL_INPUT_COMPLETED".

(** What [create_account] does once the 15 seconds are over. *)
Definition check_account_created : M bool :=
  try_except
    (success_found <- probe true account_success_indicators ;;
     (if negb success_found then report_errors error_selectors
      else ret tt) ;;
     modify (set_current_email manual_input_completed) ;;
     ret true)
    (fun _ =>
       modify (set_current_email manual_input_completed) ;;
       ret true).

Definition create_account (record_data : gmap string string) : M bool :=
  try_except
    (countdown 15 ;;
     check_account_created)
    (fun _ => ret false).

Definition otp_selectors : list string :=
  [ "//input[@name='otp']";
    "//input[@name='verification_code']";
    "//input[@name='code']";
    "//input[@id='otp']";
    "//input[@id='verification_code']";
    "//input[@id='code']";
    "#otp";
    "#verification_code";
    "#code";
    "[data-field='otp']";
    "[data-field='verification_code']" ].

Definition otp_success_indicators : list string :=
  [ "//div[contains(text(), 'success')]";
    "//div[contains(text(), 'Success')]";
    "//div[contains(text(), 'verified')]";
    "//div[contains(text(), 'Verification successful')]";
    "//div[contains(text(), 'Account activated')]";
    "//button[contains(text(), 'Continue')]";
    "//button[contains(text(), 'Next')]";
    "//a[contains(text(), 'Continue')]" ].

(** The branch of [verify_email_otp] taken when no OTP field is
    displayed: judge by the page text. *)
Definition check_page_status : M bool :=
  _ <- on_driver CurrentUrl ;;
  _ <- on_driver Title ;;
  page_source <- on_driver PageSource ;;
  let page_text := Text.lower page_source in
  if Text.contains "error" page_text || Text.contains "failed" page_text
  then ret false
  else if Text.contains "success" page_text
          || Text.contains "verification" page_text
  then ret true
  else ret true.

(** What [verify_email_otp] does once the 20 seconds are over. *)
Definition check_otp_verified : M bool :=
  try_except
    (_ <- probe true otp_success_indicators ;;
     ret true)
    (fun _ => ret true).

Definition verify_email_otp : M bool :=
  try_except
    (sleep (Seconds 3) ;;
     otp_field_found <- probe false otp_selectors ;;
     if negb otp_field_found then check_page_status
     else
       countdown 20 ;;
       check_otp_verified)
    (fun _ => ret false).

(** *** Stealth measures *)

Definition _apply_stealth_measures : M unit :=
  try_except
    (on_driver (fun d => ExecuteScript d HideWebdriver []) ;;
     on_driver (fun d => ExecuteScript d FakePlugins []) ;;
     on_driver (fun d => ExecuteScript d FakeLanguages []) ;;
     on_driver (fun d => ExecuteScript d FakePermissions []) ;;
     on_driver (fun d => ExecuteScript d RandomizeFingerprint []))
    (fun _ => ret tt).

Definition add_human_behavior : M unit :=
  try_except
    (on_driver (fun d => ExecuteScript d MouseMovements []) ;;
     on_driver (fun d => ExecuteScript d Scrolling []) ;;
     on_driver (fun d => ExecuteScript d FocusChanges []))
    (fun _ => ret tt).

End Driver.

(** ** The run *)

(** The seven stages of [process_record], in order. *)
Inductive step_name : Type :=
| Navigate | SwitchLanguage | SelectGuestType | FillIdentity
| FillPersonal | CreateAccount | VerifyOtp.

(** The step methods of the bot object, as [process_record] calls
    them. *)
Record Steps : Type := {
  do_navigate_to_nusuk : M bool;
  do_switch_to_english : M bool;
  do_select_foreign_guest : M bool;
  do_fill_initial_info : gmap string string → M bool;
  do_fill_personal_details : gmap string string → M bool;
  do_create_account : gmap string string → M bool;
  do_verify_email_otp : M bool
}.

(** The steps of [NusukBot]. *)
Definition nusuk_steps (env : Env) (NUSUK_BASE_URL : string) : Steps :=
  {| do_navigate_to_nusuk := navigate_to_nusuk env NUSUK_BASE_URL;
     do_switch_to_english := switch_to_english env;
     do_select_foreign_guest := select_foreign_guest env;
     do_fill_initial_info := fill_initial_info env;
     do_fill_personal_details := fill_personal_details env;
     do_create_account := create_account env;
     do_verify_email_otp := verify_email_otp env |}.

(** Everything a run touches: the bot, the spreadsheet, the temporary
    directories on disk and the browser sessions that are open.
    [invoked] is bookkeeping of the model: the steps [process_record]
    has called, in order. A step sees the bot only. *)
Record World : Type := {
  bot : State;
  sheet : GoogleSheets.sheet;
  dirs : gset path;
  dirs_made : nat;
  live : gset session;
  launched : nat;
  invoked : list step_name
}.

Definition set_bot (st : State) (w : World) : World :=
  {| bot := st; sheet := sheet w; dirs := dirs w; dirs_made := dirs_made w;
     live := live w; launched := launched w; invoked := invoked w |}.

Definition set_sheet (s : GoogleSheets.sheet) (w : World) : World :=
  {| bot := bot w; sheet := s; dirs := dirs w; dirs_made := dirs_made w;
     live := live w; launched := launched w; invoked := invoked w |}.

Definition set_dirs (ds : gset path) (made : nat) (w : World) : World :=
  {| bot := bot w; sheet := sheet w; dirs := ds; dirs_made := made;
     live := live w; launched := launched w; invoked := invoked w |}.

Definition set_live (ss : gset session) (n : nat) (w : World) : World :=
  {| bot := bot w; sheet := sheet w; dirs := dirs w; dirs_made := dirs_made w;
     live := ss; launched := n; invoked := invoked w |}.

Definition note_invoked (name : step_name) (w : World) : World :=
  {| bot := bot w; sheet := sheet w; dirs := dirs w; dirs_made := dirs_made w;
     live := live w; launched := launched w;
     invoked := invoked w ++ [name] |}.

Definition W : Type → Type := Eff World.

(** Code of the bot that touches the bot only. *)
Definition on_bot {A} (m : M A) : W A := zoom bot set_bot m.

(** A call of a step method. *)
Definition invoke (name : step_name) (step : M bool) : W bool :=
  modify (note_invoked name) ;; on_bot step.

(** A call of one of the writers of [self.sheets_service]. *)
Definition on_sheet (write : GoogleSheets.sheet → bool * GoogleSheets.sheet)
  : W bool :=
  fun w => let '(ok, s) := write (sheet w) in (Ret ok, set_sheet s w).

Section Run.
Variable steps : Steps.

Definition process_record (record : GoogleSheets.record) : W bool :=
  let row := GoogleSheets.row_number record in
  try_except
    (on_bot (modify (set_current_record record)) ;;
     let record_data := GoogleSheets.data record in
     ok <- invoke Navigate (do_navigate_to_nusuk steps) ;;
     if negb ok then ret false else
     ok <- invoke SwitchLanguage (do_switch_to_english steps) ;;
     if negb ok then ret false else
     ok <- invoke SelectGuestType (do_select_foreign_guest steps) ;;
     if negb ok then ret false else
     ok <- invoke FillIdentity (do_fill_initial_info steps record_data) ;;
     if negb ok then ret false else
     ok <- invoke FillPersonal (do_fill_personal_details steps record_data) ;;
     if negb ok then ret false else
     ok <- invoke CreateAccount (do_create_account steps record_data) ;;
     if negb ok then ret false else
     ok <- invoke VerifyOtp (do_verify_email_otp steps) ;;
     if negb ok then ret false else
     on_sheet (GoogleSheets.update_record_status row "In Progress") ;;
     current_email <- gets (fun w => current_email (bot w)) ;;
     match current_email with
     | Some email =>
         if Text.truthy email
         then on_sheet (GoogleSheets.update_email_used row email) ;; ret true
         else ret true
     | None => ret true
     end)
    (fun e =>
       on_sheet (GoogleSheets.log_error row (str_of_exn e)) ;;
       ret false).

(** The body of the loop of [run_automation] for one record. *)
Definition process_one (record : GoogleSheets.record) : W unit :=
  let row := GoogleSheets.row_number record in
  try_except
    (success <- process_record record ;;
     (if success then ret tt
      else on_sheet (GoogleSheets.update_record_status row "Failed") ;;
           ret tt) ;;
     on_bot (sleep (Uniform 5000 10000)))
    (fun e =>
       on_sheet (GoogleSheets.update_record_status row "Failed") ;;
       on_sheet (GoogleSheets.log_error row (str_of_exn e)) ;;
       ret tt).

(** [for record in pending_records: ...] *)
Fixpoint process_all (pending_records : list GoogleSheets.record) : W unit :=
  match pending_records with
  | [] => ret tt
  | record :: rest => process_one record ;; process_all rest
  end.

End Run.

Section Automation.
Variable env : Env.
Variable steps : Steps.

(** A request to the host, recorded in the bot's history. *)
Definition host {A} (c : call A) : W A := on_bot (perform env c).

(** Start a browser: when the launch request goes through, a new
    session is open. *)
Definition launch (c : call unit) : W session :=
  host c ;;
  fun w =>
    let d := launched w in
    (Ret d, set_live ({[d]} ∪ live w) (S d) w).

(** [tempfile.mkdtemp]: when it goes through, a new directory
    exists. *)
Definition mkdtemp : W path :=
  host Mkdtemp ;;
  fun w =>
    let dir := dirs_made w in
    (Ret dir, set_dirs ({[dir]} ∪ dirs w) (S dir) w).

(** [shutil.rmtree(dir, ignore_errors=True)] on a file system that
    does not refuse the deletion. *)
Definition rmtree (dir : path) : W unit :=
  modify (fun w => set_dirs (dirs w ∖ {[dir]}) (dirs_made w) w).

(** The profile is the directory "User Data" inside the temporary
    directory; it is identified with it. *)
Definition _create_stealth_profile : W (option path) :=
  try_except
    (temp_dir <- mkdtemp ;;
     let stealth_profile := temp_dir in
     host (WriteProfile stealth_profile) ;;
     on_bot (modify (set_profile stealth_profile temp_dir)) ;;
     ret (Some stealth_profile))
    (fun _ => ret None).

Definition _cleanup_stealth_profile : W unit :=
  try_except
    (temp_dir <- gets (fun w => temp_dir (bot w)) ;;
     match temp_dir with
     | Some dir => rmtree dir
     | None => ret tt
     end)
    (fun _ => ret tt).

Definition _setup_firefox_driver : W bool :=
  try_except
    (imported <- try_except (host ImportFirefox ;; ret true)
                            (fun _ => ret false) ;;
     if negb imported then ret false
     else
       d <- launch LaunchFirefox ;;
       on_bot (modify (set_driver d)) ;;
       on_bot (modify (set_wait (Some d))) ;;
       on_bot (_apply_stealth_measures env) ;;
       on_bot (add_human_behavior env) ;;
       ret true)
    (fun _ => ret false).

(** The function has no [return]: when it does not raise, it returns
    [None]. *)
Definition _setup_undetected_driver : W unit :=
  try_except
    (try_except
       (host ImportUndetected)
       (fun _ => raise (OtherException "undetected_chromedriver is required")) ;;
     headless <- gets (fun w => headless (bot w)) ;;
     stealth_profile <- _create_stealth_profile ;;
     d <- launch (LaunchUndetected stealth_profile headless) ;;
     on_bot (modify (set_driver d)) ;;
     on_bot (modify (set_wait (Some d))) ;;
     on_bot (on_driver env MaximizeWindow) ;;
     on_bot (_apply_stealth_measures env) ;;
     on_bot (add_human_behavior env))
    (fun e => raise e).

(** Like [_setup_undetected_driver], it returns [None] when it does
    not raise. *)
Definition _setup_standard_driver : W unit :=
  try_except
    (headless <- gets (fun w => headless (bot w)) ;;
     stealth_profile <- _create_stealth_profile ;;
     d <- try_except
            (launch (LaunchChromeManaged stealth_profile headless))
            (fun _ =>
               try_except
                 (launch (LaunchChrome stealth_profile headless))
                 (fun _ => raise (OtherException "Chrome setup failed"))) ;;
     on_bot (modify (set_driver d)) ;;
     on_bot (on_driver env (fun d => ExecuteScript d HideWebdriver [])) ;;
     on_bot (modify (set_wait (Some d))) ;;
     on_bot (on_driver env MaximizeWindow))
    (fun e => raise e).

(** [bool(None)] *)
Definition truth_of_none (_ : unit) : bool := false.

Definition setup_driver : W bool :=
  try_except
    (ok <- _setup_firefox_driver ;;
     if ok then ret true
     else
       result <- _setup_undetected_driver ;;
       if truth_of_none result then ret true
       else
         result <- _setup_standard_driver ;;
         if truth_of_none result then ret true
         else ret false)
    (fun _ => ret false).

(** [if self.driver: self.driver.quit()]: a session that quits is no
    longer open. *)
Definition quit_driver : W unit :=
  driver <- gets (fun w => driver (bot w)) ;;
  match driver with
  | Some d =>
      host (Quit d) ;;
      modify (fun w => set_live (live w ∖ {[d]}) (launched w) w)
  | None => ret tt
  end.

Definition get_pending_records : W (list GoogleSheets.record) :=
  fun w => (GoogleSheets.get_pending_records (sheet w), w).

Definition run_automation : W unit :=
  try_finally
    (try_except
       (_ <- setup_driver ;;
        pending_records <- get_pending_records ;;
        match pending_records with
        | [] => ret tt
        | _ => process_all steps pending_records
        end)
       (fun _ => ret tt))
    (quit_driver ;;
     _cleanup_stealth_profile).

End Automation.

(** The world at the start of [main]: a fresh bot, nothing on disk, no
    browser open. *)
Definition initial_world (s : GoogleSheets.sheet) : World :=
  {| bot := new_bot false; sheet := s; dirs := ∅; dirs_made := 0;
     live := ∅; launched := 0; invoked := [] |}.

(** ** Vocabulary of the pipeline properties *)

(** The step methods in the order in which [process_record] calls
    them. *)
Definition pipeline (steps : Steps) (record_data : gmap string string)
  : list (step_name * M bool) :=
  [ (Navigate, do_navigate_to_nusuk steps);
    (SwitchLanguage, do_switch_to_english steps);
    (SelectGuestType, do_select_foreign_guest steps);
    (FillIdentity, do_fill_initial_info steps record_data);
    (FillPersonal, do_fill_personal_details steps record_data);
    (CreateAccount, do_create_account steps record_data);
    (VerifyOtp, do_verify_email_otp steps) ].

(** Run the given steps one after the other as long as each returns
    [True]: the state they leave, if all of them do. *)
Fixpoint all_succeed (stages : list (step_name * M bool)) (st : State)
  : option State :=
  match stages with
  | [] => Some st
  | (_, step) :: rest =>
      match step st with
      | (Ret true, st') => all_succeed rest st'
      | _ => None
      end
  end.

(** Nothing that selects the guest type resolves: the radio button
    [type3] is not found, no fallback selector becomes clickable, and
    the page text (if it can be read) mentions the guest type in neither
    language. *)
Definition no_guest_type_selector (env : Env) : Prop :=
  (∀ history d, ∃ e, env _ history (FindElement d ID "type3") = Raise e)
  ∧ (∀ history d c b selector,
       In selector foreign_guest_selectors →
       ∃ e, env _ history (Until d c b selector) = Raise e)
  ∧ (∀ history d page_text,
       env _ history (PageSource d) = Ret page_text →
       Text.contains "Foreign Guest" page_text = false
       ∧ Text.contains_wide international_visitor page_text = false).

(** The six column names under which [fill_initial_info] looks for the
    passport number. *)
Definition passport_columns : list string :=
  [ "Passport NO"; "PASSPORT NO"; "Passport Number"; "PASSPORT NUMBER";
    "Passport"; "PASSPORT" ].

(** Every passport column of the record is absent or empty. *)
Definition passport_missing (record_data : gmap string string) : Prop :=
  ∀ column, In column passport_columns →
            record_data !! column = None ∨ record_data !! column = Some "".

(** The element takes [clear] and [send_keys] whenever asked. *)
Definition accepts_input (env : Env) (e : element) : Prop :=
  ∀ history,
    env _ history (Clear e) = Ret tt
    ∧ ∀ k, env _ history (SendKeys e k) = Ret tt.

(** The computation does not rebind [self.wait]. *)
Definition keeps_wait {A} (m : M A) : Prop :=
  ∀ st, wait (m st).2 = wait st.

(** The text an element holds according to a history: what the
    successful [send_keys] calls put in since the last successful
    [clear]. *)
Definition typed_by (e : element) (ev : event) (held : string) : string :=
  match ev with
  | Called c (Ret _) =>
      match c with
      | Clear e' => if e' =? e then "" else held
      | SendKeys e' (Text s) => if e' =? e then held ++ s else held
      | _ => held
      end
  | _ => held
  end.

Definition field_text (e : element) (history : list event) : string :=
  fold_left (fun held ev => typed_by e ev held) history "".

(** ** A scripted web site for the closed lemmas *)

(** A site that does not change: what can be found on it and what it
    shows. *)
Record Site : Type := {
  firefox_available : bool;
  site_title : string;
  site_source : string;
  site_ids : list (string * element);
  site_xpaths : list (string * element);
  site_waits : list (string * element);
  site_displayed : list element
}.

Fixpoint assoc (key : string) (table : list (string * element))
  : option element :=
  match table with
  | [] => None
  | (k, e) :: rest => if String.eqb k key then Some e else assoc key rest
  end.

Definition site_env (s : Site) : Env :=
  fun A _ c =>
    match c in call T return Result exn T with
    | Get _ _ => Ret tt
    | FindElement _ b value =>
        match b with
        | ID => match assoc value (site_ids s) with
                | Some e => Ret e
                | None => Raise NoSuchElementException
                end
        | XPATH => match assoc value (site_xpaths s) with
                   | Some e => Ret e
                   | None => Raise NoSuchElementException
                   end
        | CSS_SELECTOR => Raise NoSuchElementException
        end
    | FindElements _ _ _ => Ret []
    | ExecuteScript _ _ _ => Ret tt
    | PageSource _ => Ret (site_source s)
    | Title _ => Ret (site_title s)
    | CurrentUrl _ => Ret "https://services.nusuk.sa/nusuk-svc/auth/register"
    | MaximizeWindow _ => Ret tt
    | Quit _ => Ret tt
    | Until _ _ _ value =>
        match assoc value (site_waits s) with
        | Some e => Ret e
        | None => Raise TimeoutException
        end
    | UntilTitle _ => Ret tt
    | UntilContent _ => Ret tt
    | Click _ => Ret tt
    | Clear _ => Ret tt
    | SendKeys _ _ => Ret tt
    | GetText _ => Ret ""
    | GetAttribute _ _ => Ret None
    | IsDisplayed e => Ret (existsb (Nat.eqb e) (site_displayed s))
    | ImportFirefox =>
        if firefox_available s then Ret tt
        else Raise (OtherException "No module named 'webdriver_manager.firefox'")
    | LaunchFirefox => Ret tt
    | ImportUndetected => Ret tt
    | LaunchUndetected _ _ => Ret tt
    | LaunchChromeManaged _ _ => Ret tt
    | LaunchChrome _ _ => Ret tt
    | Mkdtemp => Ret tt
    | WriteProfile _ => Ret tt
    end.

(** A page on which nothing the bot looks for is found. *)
Definition blank_site : Site :=
  {| firefox_available := true;
     site_title := "Nusuk";
     site_source := "<html><body></body></html>";
     site_ids := []; site_xpaths := []; site_waits := [];
     site_displayed := [] |}.

(** The same, on a host without a Firefox driver. *)
Definition blank_site_without_firefox : Site :=
  {| firefox_available := false;
     site_title := "Nusuk";
     site_source := "<html><body></body></html>";
     site_ids := []; site_xpaths := []; site_waits := [];
     site_displayed := [] |}.

(** The registration page with its language menu, but without anything
    that selects the guest type. *)
Definition site_without_guest_type : Site :=
  {| firefox_available := true;
     site_title := "Nusuk";
     site_source := "<html><body><h1>Create Account</h1></body></html>";
     site_ids := [("dropdownMenuLink", 1)];
     site_xpaths := [];
     site_waits :=
       [("//a[contains(text(), 'En') or contains(text(), 'EN') or contains(text(), 'English')]", 2)];
     site_displayed := [] |}.

(** The OTP page: the code field is displayed, no success message. *)
Definition otp_site : Site :=
  {| firefox_available := true;
     site_title := "Nusuk";
     site_source := "<html><body><input name='otp'></body></html>";
     site_ids := [];
     site_xpaths := [("//input[@name='otp']", 7)];
     site_waits := [];
     site_displayed := [7] |}.

(** The identity form with its passport field. *)
Definition passport_site : Site :=
  {| firefox_available := true;
     site_title := "Nusuk";
     site_source := "<html><body><input placeholder='Passport Number'></body></html>";
     site_ids := [];
     site_xpaths := [];
     site_waits := [("//input[@placeholder='Passport Number']", 3)];
     site_displayed := [3] |}.

(** A bot whose driver is session 0, and the world around it. *)
Definition running_bot : State :=
  set_wait (Some 0) (set_driver 0 (new_bot false)).

Definition running_world (s : GoogleSheets.sheet) : World :=
  {| bot := running_bot; sheet := s; dirs := ∅; dirs_made := 0;
     live := {[0]}; launched := 1; invoked := [] |}.

Definition base_url : string :=
  "https://services.nusuk.sa/nusuk-svc/auth/register".

Definition record_row5 : GoogleSheets.record :=
  {| GoogleSheets.row_number := 5;
     GoogleSheets.data :=
       {[ "VISA NO" := "V123"; "NATIONALITY" := "India";
          "Passport NO" := "P1" ]} |}.

Definition record_without_passport : GoogleSheets.record :=
  {| GoogleSheets.row_number := 6;
     GoogleSheets.data :=
       {[ "VISA NO" := "V124"; "NATIONALITY" := "Egypt";
          "Passport NO" := "" ]} |}.

End NusukBot.

(** ** Vocabulary of the OTP properties *)

Module Otp.

(** [s] consists of decimal digits only. *)
Definition all_decimal (s : string) : bool :=
  forallb Text.is_decimal (list_ascii_of_string s).

(** The [n] characters of [t] from position [i] exist and are decimal
    digits. *)
Definition digit_run_at (t : list ascii) (i n : nat) : bool :=
  (i + n <=? length t) && forallb Text.is_decimal (take n (drop i t)).

(** [s] contains [n] consecutive decimal digits for some [n] between
    four and six. The run need not be maximal: seven digits in a row
    contain a run of four. *)
Definition has_digit_run (s : string) : bool :=
  let t := list_ascii_of_string s in
  existsb (fun i => existsb (digit_run_at t i) [4; 5; 6])
          (seq 0 (S (length t))).

(** The characters of [t] at positions [i .. j-1] are decimal digits. *)
Definition digits_between (t : list ascii) (i j : nat) : Prop :=
  ∀ k, i ≤ k < j → ∃ x, t !! k = Some x ∧ Text.is_decimal x = true.

(** A well-formed code: four to six decimal digits. *)
Definition is_code (s : string) : bool :=
  (4 <=? String.length s) && (String.length s <=? 6) && all_decimal s.

(** The lengths of the blocks of decimal digits of [t], in order: a
    block is a run that cannot be extended on either side. [current]
    counts the digits of the block being read. *)
Fixpoint digit_blocks (t : list ascii) (current : nat) : list nat :=
  match t with
  | [] => [current]
  | c :: rest =>
      if Text.is_decimal c then digit_blocks rest (S current)
      else current :: digit_blocks rest 0
  end.

(** "A digit run of length 4 to 6" in the narrow sense: some block of
    digits has between four and six digits. Seven digits in a row are
    not such a run. *)
Definition has_block_of_4_to_6 (s : string) : bool :=
  existsb (fun n => (4 <=? n) && (n <=? 6))
          (digit_blocks (list_ascii_of_string s) 0).

End Otp.

(** ** Sample data used by the closed lemmas *)

Module Samples.

(** A spreadsheet whose read request fails. *)
Definition unreachable_sheet : GoogleSheets.sheet :=
  {| GoogleSheets.values_get := Raise (HttpError "503 backend unavailable");
     GoogleSheets.accepts_updates := true;
     GoogleSheets.cells := ∅ |}.

(** A Sample tab without a status column. *)
Definition sheet_without_status : GoogleSheets.sheet :=
  {| GoogleSheets.values_get :=
       Ret (Some [ ["NAME"; "VISA NO"; "NATIONALITY"; "State"];
                   ["A. Khan"; "V123"; "India"; "pending"] ]);
     GoogleSheets.accepts_updates := true;
     GoogleSheets.cells := ∅ |}.

(** A Sample tab with one pending row, row 5. *)
Definition sheet_row5 : GoogleSheets.sheet :=
  {| GoogleSheets.values_get :=
       Ret (Some [ ["VISA NO"; "NATIONALITY"; "Passport NO"; "STATUS"];
                   ["V120"; "Egypt"; "P0"; "done"];
                   ["V121"; "Egypt"; "P0"; "done"];
                   ["V122"; "Egypt"; "P0"; "done"];
                   ["V123"; "India"; "P1"; "Pending"] ]);
     GoogleSheets.accepts_updates := true;
     GoogleSheets.cells := ∅ |}.

End Samples.

(** ** Further sample sheets *)

Module MoreSamples.
Import GoogleSheets.

(** Two pending rows (sheet rows 2 and 4) around a finished one. *)
Definition sheet_two_pending : sheet :=
  {| values_get :=
       Ret (Some [ ["NAME"; "STATUS"]; ["a"; "Pending"]; ["b"; "done"];
                   ["c"; "PENDING"] ]);
     accepts_updates := true;
     cells := ∅ |}.

End MoreSamples.

(** ** Vocabulary of the further sheet properties *)

Module SheetsTerms.

(** The key under which [get_pending_records] files the cell at position
    [i] of a row: [headers[i]], or [Column_<i+1>] past the last header. *)
Definition column_key (headers : list string) (i : nat) : string :=
  match headers !! i with
  | Some header => header
  | None => "Column_" ++ pretty (i + 1)
  end.

End SheetsTerms.

(** * [services/google_sheets.py]: reading a range, the QR column *)

Module GoogleSheetsRanges.

(** The spreadsheet as these methods see it. They name no tab, so that
    the ranges are those of the first tab.
    - [range_get range_name]: the outcome of
      [values().get(range=range_name).execute()]: it raises, or returns a
      result whose ['values'] entry may be missing;
    - [accepts_batch]: whether [values().batchUpdate(...).execute()]
      goes through;
    - [first_tab]: the cells written so far, by column letter and row. *)
Record book : Type := {
  range_get : string → Result exn (option (list (list string)));
  accepts_batch : bool;
  first_tab : gmap (string * Z) string
}.

(** [read_sheet_data]: the values, [[]] when the entry is missing; an
    exception of the request goes to the caller. *)
Definition read_sheet_data (range_name : string) (b : book)
  : Result exn (list (list string)) :=
  match range_get b range_name with
  | Ret result => Ret (default [] result)
  | Raise e => Raise e
  end.

(** [test_connection] *)
Definition test_connection (b : book) : bool :=
  match range_get b "A1:N1" with
  | Ret result =>
      match default [] result with
      | [] => false
      | _ :: _ => true
      end
  | Raise _ => false
  end.

(** ['QR_CODE_URL' in header.upper() or 'QR' in header.upper()] *)
Definition is_qr_header (header : string) : bool :=
  Text.contains "QR_CODE_URL" (Text.upper header)
  || Text.contains "QR" (Text.upper header).

(** The search for the QR column: index of the first matching header. *)
Fixpoint find_qr_column (headers : list string) (i : nat) : option nat :=
  match headers with
  | [] => None
  | header :: rest =>
      if is_qr_header header then Some i else find_qr_column rest (S i)
  end.

(** [chr(65 + i)], for the columns a range of this sheet can have
    (below U+0100). *)
Definition column_letter (i : nat) : string :=
  String (ascii_of_nat (65 + i)) "".

(** [values().batchUpdate(body={'valueInputOption': 'RAW', 'data':
    [{'range': <column><row>, 'values': [[value]]}]}).execute()]:
    overwrites one cell. A row below 1 is not an A1 reference and the
    request is refused. *)
Definition batch_update (column : string) (row : Z) (value : string)
    (b : book) : Result exn unit * book :=
  if accepts_batch b && (1 <=? row)%Z
  then (Ret tt,
        {| range_get := range_get b;
           accepts_batch := accepts_batch b;
           first_tab := <[(column, row) := value]> (first_tab b) |})
  else (Raise (HttpError "update failed"), b).

(** [add_qr_code_url]: every exception is logged and raised again. *)
Definition add_qr_code_url (row_number : Z) (qr_code_url : string)
    (b : book) : Result exn unit * book :=
  match read_sheet_data "A1:N1" b with
  | Raise e => (Raise e, b)
  | Ret [] => (Raise (OtherException "IndexError: list index out of range"), b)
  | Ret (headers :: _) =>
      let qr_col_idx :=
        match find_qr_column headers 0 with
        | Some i => i
        | None => 12
        end in
      batch_update (column_letter qr_col_idx) row_number qr_code_url b
  end.

(** A first tab with a QR column, and one that cannot be read. *)
Definition book_with_qr : book :=
  {| range_get := fun _ => Ret (Some [ ["NAME"; "Status"; "qr link"] ]);
     accepts_batch := true;
     first_tab := ∅ |}.

Definition unreadable_book : book :=
  {| range_get := fun _ => Raise (HttpError "503 backend unavailable");
     accepts_batch := true;
     first_tab := ∅ |}.

End GoogleSheetsRanges.

(** * [services/temp_email_v2.py]: getting an address *)

Module TempEmailServiceV2.
Import Eff.
Local Open Scope eff_scope.

(** [s.strip()]: white space removed at both ends. *)
Fixpoint lstrip (l : list ascii) : list ascii :=
  match l with
  | c :: l' => if Text.is_space c then lstrip l' else l
  | [] => []
  end.

Definition strip (s : string) : string :=
  string_of_list_ascii (rev (lstrip (rev (lstrip (list_ascii_of_string s))))).

(** The requests of [generate_email], in the order of the source. *)
Inductive request : Type :=
| GetDomains
| PostAccounts (address : string)
| PostToken (address : string)
| GetTenMinuteMail
| GetTempMail.

(** The outside world of [generate_email]. A request raises (network
    error, undecodable body, a body of another shape) or yields a
    response, of which the model keeps the status and the part of the
    body the code reads:
    - [domains]: the entries of ['hydra:member'], each by the text of
      its ['domain'] ([None] when the entry has none: the subscript
      raises);
    - [accounts address]: the ['id'] of the new account, if any;
    - [token address]: the ['token'], if any;
    - [ten_minute_mail]: [response.text];
    - [tempmail]: [data.get('email')], a string when present;
    - [choices k i]: the index drawn by [random.choices(population, k=k)]
      for position [i], reduced modulo the population size. *)
Record Web : Type := {
  domains : Result exn (TempEmailV2.response (list (option string)));
  accounts : string → Result exn (TempEmailV2.response (option string));
  token : string → Result exn (TempEmailV2.response (option string));
  ten_minute_mail : Result exn (TempEmailV2.response string);
  tempmail : Result exn (TempEmailV2.response (option string));
  choices : nat → nat → nat
}.

(** The attributes of the service object, and the requests sent so far
    (a ghost field, for the properties about what is contacted). *)
Record state : Type := {
  email_address : option string;
  auth_token : option string;
  account_id : option string;
  service_used : option string;
  contacted : list request
}.

(** [__init__] *)
Definition new_service : state :=
  {| email_address := None; auth_token := None; account_id := None;
     service_used := None; contacted := [] |}.

Definition set_email_address (v : option string) (st : state) : state :=
  {| email_address := v; auth_token := auth_token st;
     account_id := account_id st; service_used := service_used st;
     contacted := contacted st |}.
Definition set_auth_token (v : option string) (st : state) : state :=
  {| email_address := email_address st; auth_token := v;
     account_id := account_id st; service_used := service_used st;
     contacted := contacted st |}.
Definition set_account_id (v : option string) (st : state) : state :=
  {| email_address := email_address st; auth_token := auth_token st;
     account_id := v; service_used := service_used st;
     contacted := contacted st |}.
Definition set_service_used (v : option string) (st : state) : state :=
  {| email_address := email_address st; auth_token := auth_token st;
     account_id := account_id st; service_used := v;
     contacted := contacted st |}.
Definition note_request (r : request) (st : state) : state :=
  {| email_address := email_address st; auth_token := auth_token st;
     account_id := account_id st; service_used := service_used st;
     contacted := (contacted st ++ [r])%list |}.

(** What [get_otp] reads of the object. *)
Definition as_service (st : state) : TempEmailV2.service :=
  {| TempEmailV2.service_used := service_used st;
     TempEmailV2.auth_token := auth_token st |}.

(** Truthiness of an optional string: present and non-empty. *)
Definition truthy_opt (v : option string) : bool :=
  match v with
  | Some s => Text.truthy s
  | None => false
  end.

(** [string.ascii_lowercase + string.digits] *)
Definition population : list ascii :=
  list_ascii_of_string "abcdefghijklmnopqrstuvwxyz0123456789".

(** [''.join(random.choices(string.ascii_lowercase + string.digits,
    k=k))] *)
Definition random_string (web : Web) (k : nat) : string :=
  string_of_list_ascii
    (map (fun i => nth (choices web k i mod length population) population
                       "a"%char)
         (seq 0 k)).

Section Service.
Variable web : Web.

(** [self.session.get(...)] / [self.session.post(...)] *)
Definition send {A} (r : request) (answer : Result exn A) : Eff state A :=
  fun st => (answer, note_request r st).

Definition _try_mailtm : Eff state (option string) :=
  try_except
    (domains_response <- send GetDomains (domains web) ;;
     if negb (TempEmailV2.status_code domains_response =? 200)
     then ret None
     else
       match TempEmailV2.json domains_response with
       | [] => ret None
       | first :: _ =>
           domain <- match first with
                     | Some d => ret d
                     | None => raise (OtherException "KeyError: 'domain'")
                     end ;;
           let username := random_string web 12 in
           let address := username ++ "@" ++ domain in
           account_response <-
             send (PostAccounts address) (accounts web address) ;;
           if negb (TempEmailV2.status_code account_response =? 201)
           then ret None
           else
             modify (set_account_id (TempEmailV2.json account_response)) ;;
             token_response <-
               send (PostToken address) (token web address) ;;
             if negb (TempEmailV2.status_code token_response =? 200)
             then ret None
             else
               modify (set_auth_token (TempEmailV2.json token_response)) ;;
               stored <- gets auth_token ;;
               if negb (truthy_opt stored) then ret None
               else
                 modify (set_email_address (Some address)) ;;
                 modify (set_service_used (Some "Mail.tm")) ;;
                 ret (Some address)
       end)
    (fun _ => ret None).

Definition _try_10minutemail : Eff state (option string) :=
  try_except
    (response <- send GetTenMinuteMail (ten_minute_mail web) ;;
     if TempEmailV2.status_code response =? 200
     then
       let email := strip (TempEmailV2.json response) in
       if Text.contains "@" email
       then
         modify (set_email_address (Some email)) ;;
         modify (set_service_used (Some "10MinuteMail")) ;;
         ret (Some email)
       else ret None
     else ret None)
    (fun _ => ret None).

Definition _try_tempmail : Eff state (option string) :=
  try_except
    (response <- send GetTempMail (tempmail web) ;;
     if TempEmailV2.status_code response =? 200
     then
       match TempEmailV2.json response with
       | Some email =>
           if Text.truthy email && Text.contains "@" email
           then
             modify (set_email_address (Some email)) ;;
             modify (set_service_used (Some "TempMail")) ;;
             ret (Some email)
           else ret None
       | None => ret None
       end
     else ret None)
    (fun _ => ret None).

Definition _generate_fake_email : Eff state (option string) :=
  let email := random_string web 10 ++ "@tempmail.org" in
  modify (set_email_address (Some email)) ;;
  modify (set_service_used (Some "FakeEmail")) ;;
  ret (Some email).

(** The loop of [generate_email] over the fallback services; a service
    that raises is skipped, and running out of services raises. *)
Fixpoint try_services (services : list (Eff state (option string)))
  : Eff state string :=
  match services with
  | [] => raise (OtherException "All temporary email services failed")
  | service_func :: rest =>
      found <-
        try_except
          (email <- service_func ;;
           match email with
           | Some address =>
               if Text.truthy address && Text.contains "@" address
               then ret (Some address) else ret None
           | None => ret None
           end)
          (fun _ => ret None) ;;
      match found with
      | Some address => ret address
      | None => try_services rest
      end
  end.

Definition generate_email : Eff state string :=
  try_except
    (email <- _try_mailtm ;;
     let fallback :=
       try_services
         [_try_10minutemail; _try_tempmail; _generate_fake_email] in
     match email with
     | Some address => if Text.truthy address then ret address else fallback
     | None => fallback
     end)
    (fun e => raise e).

Definition test_service : Eff state bool :=
  try_except
    (email <- generate_email ;;
     if Text.truthy email && Text.contains "@" email
     then ret true else ret false)
    (fun _ => ret false).

End Service.

End TempEmailServiceV2.

(** * [services/temp_email.py]: getting an address *)

Module TempEmailService.
Import Eff.
Local Open Scope eff_scope.

(** The two places [generate_email] asks for an address. *)
Inductive endpoint : Type :=
| Api     (* https://api.guerrillamail.com/ajax/get_email_address *)
| Site.   (* https://www.guerrillamail.com/ajax/get_email_address *)

(** A response: its status, and what [response.json()] gives: it raises,
    or it yields the body, kept as the pair of [data.get('email_addr')]
    and [data.get('sid_token')]. *)
Record response : Type := {
  status_code : nat;
  json : Result exn (option string * option string)
}.

(** GuerrillaMail as the service sees it: a request raises or is
    answered. *)
Record Guerrilla : Type := {
  answer : endpoint → Result exn response
}.

(** The attributes of the service object, and the endpoints asked so far
    (a ghost field). *)
Record state : Type := {
  email_address : option string;
  sid_token : option string;
  contacted : list endpoint
}.

Definition new_service : state :=
  {| email_address := None; sid_token := None; contacted := [] |}.

Definition set_email_address (v : option string) (st : state) : state :=
  {| email_address := v; sid_token := sid_token st;
     contacted := contacted st |}.
Definition set_sid_token (v : option string) (st : state) : state :=
  {| email_address := email_address st; sid_token := v;
     contacted := contacted st |}.
Definition note_endpoint (e : endpoint) (st : state) : state :=
  {| email_address := email_address st; sid_token := sid_token st;
     contacted := (contacted st ++ [e])%list |}.

(** [response.raise_for_status()]: a 4xx or 5xx status raises. *)
Definition is_error_status (code : nat) : bool :=
  (400 <=? code) && (code <? 600).

Definition raise_for_status (r : response) : Eff state unit :=
  if is_error_status (status_code r)
  then raise (HttpError "error status")
  else ret tt.

Section Service.
Variable guerrilla : Guerrilla.

(** [response = self.session.get(url); response.raise_for_status()] *)
Definition get (e : endpoint) : Eff state response :=
  response <- (fun st => (answer guerrilla e, note_endpoint e st)) ;;
  raise_for_status response ;;
  ret response.

(** [lift r]: the outcome [r] of a call that leaves the object alone. *)
Definition lift {A} (r : Result exn A) : Eff state A := fun st => (r, st).

Definition generate_email : Eff state string :=
  try_except
    (response <- try_except (get Api) (fun _ => get Site) ;;
     data <- lift (json response) ;;
     modify (set_email_address data.1) ;;
     modify (set_sid_token data.2) ;;
     stored <- gets email_address ;;
     match stored with
     | Some address =>
         if negb (Text.truthy address)
         then raise (OtherException "Failed to generate email address")
         else ret address
     | None => raise (OtherException "Failed to generate email address")
     end)
    (fun e => raise e).

Definition test_service : Eff state bool :=
  try_except
    (email <- generate_email ;;
     if negb (Text.truthy email) then ret false
     else if negb (Text.contains "@" email) then ret false
     else ret true)
    (fun _ => ret false).

End Service.

End TempEmailService.

(** ** Vocabulary of the properties of the e-mail services *)

Module MailTerms.
Import Eff TempEmailServiceV2.

(** What a service function promises: it does not raise, and an address
    it returns contains "@", is stored in [email_address], and
    [service_used] names the service. Without an address,
    [service_used] is as before. *)
Definition serves (names : list string) (f : Eff state (option string))
  : Prop :=
  ∀ st, ∃ r st',
    f st = (Ret r, st')
    ∧ match r with
      | Some address =>
          Text.contains "@" address = true
          ∧ email_address st' = Some address
          ∧ ∃ name, service_used st' = Some name ∧ In name names
      | None => True
      end.

(** A Mail.tm that serves every request, and a world where nothing
    answers. *)
Definition ok {A} (code : nat) (body : A)
  : Result exn (TempEmailV2.response A) :=
  Ret {| TempEmailV2.status_code := code; TempEmailV2.json := body |}.

Definition mailtm_web : TempEmailServiceV2.Web :=
  {| TempEmailServiceV2.domains := ok 200 [Some "example.org"];
     TempEmailServiceV2.accounts := fun _ => ok 201 (Some "acc-1");
     TempEmailServiceV2.token := fun _ => ok 200 (Some "secret");
     TempEmailServiceV2.ten_minute_mail := Raise (OtherException "offline");
     TempEmailServiceV2.tempmail := Raise (OtherException "offline");
     TempEmailServiceV2.choices := fun _ i => i |}.

Definition offline_web : TempEmailServiceV2.Web :=
  {| TempEmailServiceV2.domains := Raise (OtherException "offline");
     TempEmailServiceV2.accounts := fun _ => Raise (OtherException "offline");
     TempEmailServiceV2.token := fun _ => Raise (OtherException "offline");
     TempEmailServiceV2.ten_minute_mail := Raise (OtherException "offline");
     TempEmailServiceV2.tempmail := Raise (OtherException "offline");
     TempEmailServiceV2.choices := fun _ i => i |}.

(** The request to endpoint [e] goes through: it is answered, and not
    with an error status. *)
Definition request_succeeds (g : TempEmailService.Guerrilla)
    (e : TempEmailService.endpoint) : bool :=
  match TempEmailService.answer g e with
  | Ret r => negb (TempEmailService.is_error_status
                     (TempEmailService.status_code r))
  | Raise _ => false
  end.

(** GuerrillaMail whose API answers 200 without an address, while the
    site would hand one out. *)
Definition empty_api : TempEmailService.Guerrilla :=
  {| TempEmailService.answer := fun e =>
       match e with
       | TempEmailService.Api =>
           Ret {| TempEmailService.status_code := 200;
                  TempEmailService.json := Ret (None, None) |}
       | TempEmailService.Site =>
           Ret {| TempEmailService.status_code := 200;
                  TempEmailService.json :=
                    Ret (Some "a@sharklasers.com", Some "sid") |}
       end |}.

End MailTerms.

(** ** Further scripted sites and records *)

Module FormSamples.
Import NusukBot.

(** The personal-details form with its date and phone fields. *)
Definition personal_site : Site :=
  {| firefox_available := true;
     site_title := "Nusuk";
     site_source := "<html><body><input id='mobile'></body></html>";
     site_ids := [];
     site_xpaths := [];
     site_waits :=
       [("//input[@placeholder='Specify date of birth']", 4);
        ("//input[@id='mobile']", 5)];
     site_displayed := [4; 5] |}.


Definition record_without_dob : gmap string string :=
  {[ "VISA NO" := "6012345678"; "DOB" := "" ]}.

End FormSamples.

(** ** Vocabulary of the properties of the hand-off steps *)

Module StepTerms.
Import Eff NusukBot.

(** [m] keeps [P] of the bot. *)
Definition stable (P : State → Prop) {A} (m : M A) : Prop :=
  ∀ st, P st → P (m st).2.

(** An event that leaves the page as it is: a pause, or a request that
    only reads (looking an element up, asking whether it is displayed,
    reading its text, the URL, the title or the source of the page). *)
Definition passive (ev : event) : bool :=
  match ev with
  | Slept _ => true
  | Called c _ =>
      match c with
      | FindElement _ _ _ | IsDisplayed _ | GetText _
      | CurrentUrl _ | Title _ | PageSource _ => true
      | _ => false
      end
  end.

(** [P] survives the recording of an event that [ok] admits. *)
Definition survives (ok : event → bool) (P : State → Prop) : Prop :=
  ∀ ev st, ok ev = true → P st → P (log_event ev st).

(** Since [st0] the history of the bot has only grown. *)
Definition grown (st0 st : State) : Prop :=
  ∃ added, trace st = (trace st0 ++ added)%list.

(** Since [st0] the bot has only looked: what its history has gained
    is passive. *)
Definition only_looked (st0 st : State) : Prop :=
  ∃ added,
    trace st = (trace st0 ++ added)%list ∧ forallb passive added = true.

(** Step methods of which the last two are the bot's hand-off steps; the
    others return [True] at once. *)
Definition hand_off_steps (env : Env) : Steps :=
  {| do_navigate_to_nusuk := ret true;
     do_switch_to_english := ret true;
     do_select_foreign_guest := ret true;
     do_fill_initial_info := fun _ => ret true;
     do_fill_personal_details := fun _ => ret true;
     do_create_account := create_account env;
     do_verify_email_otp := verify_email_otp env |}.

End StepTerms.

(** ** Vocabulary of the further run properties *)

Module RunTerms.
Import Eff NusukBot.

(** [Q] holds of the outcome of [m] from [s]. *)
Definition wp {S A} (m : Eff S A) (Q : Result exn A → S → Prop) (s : S)
  : Prop :=
  Q (m s).1 (m s).2.

(** [m] returns from every state. *)
Definition never_raises {S A} (m : Eff S A) : Prop :=
  ∀ s, ∃ a s', m s = (Ret a, s').

(** The status cell of the row holds one of the two values a run
    writes. *)
Definition has_status (s : GoogleSheets.sheet) (row : Z) : Prop :=
  GoogleSheets.cells s !! ("H", row) = Some "In Progress"
  ∨ GoogleSheets.cells s !! ("H", row) = Some "Failed".

(** The sheet still takes updates, and the rows that had a status have
    one. *)
Definition statuses_kept (s0 s : GoogleSheets.sheet) : Prop :=
  GoogleSheets.accepts_updates s = true
  ∧ ∀ row, has_status s0 row → has_status s row.

(** Between [s0] and [s] nothing but cells of the status column H and
    of the e-mail column M has changed. *)
Definition only_status_and_email_written (s0 s : GoogleSheets.sheet)
  : Prop :=
  GoogleSheets.values_get s = GoogleSheets.values_get s0
  ∧ GoogleSheets.accepts_updates s = GoogleSheets.accepts_updates s0
  ∧ ∀ column row,
      column ≠ "H" → column ≠ "M" →
      GoogleSheets.cells s !! (column, row)
      = GoogleSheets.cells s0 !! (column, row).

(** [m] leaves the spreadsheet as it is. *)
Definition keeps_sheet {A} (m : W A) : Prop :=
  ∀ w, sheet (m w).2 = sheet w.

(** Every step method returns, [True] or [False]. *)
Definition steps_never_raise (steps : Steps) : Prop :=
  never_raises (do_navigate_to_nusuk steps)
  ∧ never_raises (do_switch_to_english steps)
  ∧ never_raises (do_select_foreign_guest steps)
  ∧ (∀ record_data, never_raises (do_fill_initial_info steps record_data))
  ∧ (∀ record_data, never_raises (do_fill_personal_details steps record_data))
  ∧ (∀ record_data, never_raises (do_create_account steps record_data))
  ∧ never_raises (do_verify_email_otp steps).

(** Mark the rows of the records "Failed", one after the other. *)
Definition mark_failed (s : GoogleSheets.sheet)
    (records : list GoogleSheets.record) : GoogleSheets.sheet :=
  foldl (fun s record =>
           (GoogleSheets.update_record_status
              (GoogleSheets.row_number record) "Failed" s).2)
        s records.

(** Neither browser driver can be imported on the host. *)
Definition no_browser (env : Env) : Prop :=
  (∀ history, ∃ e, env _ history ImportFirefox = Raise e)
  ∧ (∀ history, ∃ e, env _ history ImportUndetected = Raise e).

(** A host on which every request fails. *)
Definition dead_host : Env :=
  fun A _ _ => Raise (OtherException "unavailable").

(** Step methods that return [True] without touching anything, except
    that the second raises [e]. *)
Definition steps_raising_at_language (e : exn) : Steps :=
  {| do_navigate_to_nusuk := ret true;
     do_switch_to_english := raise e;
     do_select_foreign_guest := ret true;
     do_fill_initial_info := fun _ => ret true;
     do_fill_personal_details := fun _ => ret true;
     do_create_account := fun _ => ret true;
     do_verify_email_otp := ret true |}.

End RunTerms.

(** * Verification *)

(** ** Facts about the matcher *)

Module ReFacts.
Import Re Otp.

Lemma one_inv t p pos cap e c :
  In (e, c) (one t p pos cap) →
  e = S pos ∧ c = cap ∧ ∃ x, t !! pos = Some x ∧ p x = true.
Proof.
  unfold one. destruct (t !! pos) as [x|] eqn:Hx; [|intros []].
  destruct (p x) eqn:Hp; [|intros []].
  intros [[= <- <-]|[]]. eauto.
Qed.

Lemma repeat_digit_sound ic t lo h fuel :
  ∀ count pos cap e c,
    count ≤ h →
    In (e, c) (repeat_loop (run ic t Digit) lo (Some h) fuel count pos cap) →
    c = cap ∧ pos ≤ e ∧ lo ≤ count + (e - pos) ∧ count + (e - pos) ≤ h
    ∧ digits_between t pos e.
Proof.
  induction fuel as [|fuel IH]; intros count pos cap e c Hle Hin; simpl in Hin.
  - destruct (lo <=? count) eqn:Hlo; [|destruct Hin].
    destruct Hin as [[= <- <-]|[]]. apply Nat.leb_le in Hlo.
    repeat split; try lia. intros k Hk; lia.
  - apply in_app_or in Hin as [Hin|Hin].
    + destruct (count <? h) eqn:Hlt; [|destruct Hin].
      apply Nat.ltb_lt in Hlt.
      apply in_flat_map in Hin as [[p c'] [Hbody Hin]].
      apply one_inv in Hbody as (-> & -> & x & Hx & Hd).
      destruct (S pos =? pos) eqn:Heq; [destruct Hin|].
      apply IH in Hin as (-> & Hpe & Hlo & Hhi & Hdig); [|lia].
      repeat split; try lia.
      intros k Hk. destruct (decide (k = pos)) as [->|Hne]; [eauto|].
      apply Hdig; lia.
    + destruct (lo <=? count) eqn:Hlo; [|destruct Hin].
      destruct Hin as [[= <- <-]|[]]. apply Nat.leb_le in Hlo.
      repeat split; try lia. intros k Hk; lia.
Qed.

(** A match of [\d{4,6}] spans four to six decimal digits and leaves the
    capture alone. *)
Lemma digits_4_6_sound t pos cap e c :
  In (e, c) (run true t Patterns.digits_4_6 pos cap) →
  c = cap ∧ 4 ≤ e - pos ≤ 6 ∧ digits_between t pos e.
Proof.
  intros Hin. apply repeat_digit_sound in Hin; [|lia].
  destruct Hin as (-> & ? & ? & ? & ?). repeat split; try lia; done.
Qed.

Lemma word_inv t w k : ∀ pos cap e c,
  In (e, c) (run true t (word w k) pos cap) →
  ∃ p cap', In (e, c) (run true t k p cap').
Proof.
  induction w as [|a w IH]; intros pos cap e c Hin; simpl in Hin; [eauto|].
  apply in_flat_map in Hin as [[p c'] [_ Hin]]. eauto.
Qed.

Lemma has_group_word w k : has_group (word w k) = has_group k.
Proof. induction w; simpl; auto. Qed.

Lemma group_digits_sound t pos cap e c :
  In (e, c) (run true t (Group Patterns.digits_4_6) pos cap) →
  c = Some (pos, e) ∧ 4 ≤ e - pos ≤ 6 ∧ digits_between t pos e.
Proof.
  simpl. intros Hin. apply in_map_iff in Hin as [[p c'] [[= <- <-] Hin]].
  apply (digits_4_6_sound t pos cap p c') in Hin as (_ & ? & ?). auto.
Qed.

(** Whatever one of the five patterns matches, [findall] reports a span
    of four to six decimal digits of the text. *)
Lemma otp_pattern_report t r pos e c :
  In r Patterns.otp_patterns →
  In (e, c) (run true t r pos None) →
  ∃ i j, report t r pos e c = slice t i j
         ∧ 4 ≤ j - i ≤ 6 ∧ digits_between t i j.
Proof.
  intros Hr Hin.
  assert (Hlab : ∀ w, In (e, c) (run true t (Patterns.labelled w) pos None) →
    ∃ i j, report t (Patterns.labelled w) pos e c = slice t i j
           ∧ 4 ≤ j - i ≤ 6 ∧ digits_between t i j).
  { intros w Hw. unfold report, Patterns.labelled in *.
    rewrite has_group_word. simpl has_group.
    apply word_inv in Hw as (p & cap' & Hw). simpl in Hw.
    apply in_flat_map in Hw as [[p' c'] [_ Hw]].
    apply in_map_iff in Hw as [[q c''] [[= <- <-] Hw]].
    apply (digits_4_6_sound t p' c' q c'') in Hw as (_ & ? & ?).
    exists p', q. auto. }
  simpl in Hr.
  destruct Hr as [<-|[<-|[<-|[<-|[<-|[]]]]]]; auto.
  - unfold Patterns.bounded_digits in Hin. simpl in Hin.
    apply in_flat_map in Hin as [[p c'] [Hb Hin]].
    destruct (at_boundary t pos); [|destruct Hb].
    destruct Hb as [[= <- <-]|[]].
    apply in_flat_map in Hin as [[q c''] [Hd Hin]].
    apply (digits_4_6_sound t pos None q c'') in Hd as (-> & ? & ?).
    destruct (at_boundary t q); [|destruct Hin].
    destruct Hin as [[= <- <-]|[]].
    exists pos, q. unfold report. simpl. auto.
  - apply group_digits_sound in Hin as (-> & ? & ?).
    exists pos, e. unfold report. simpl. auto.
Qed.

Lemma scan_inv ic t r fuel : ∀ pos m,
  In m (scan ic t r fuel pos) →
  ∃ p e c, In (e, c) (run ic t r p None) ∧ m = report t r p e c.
Proof.
  induction fuel as [|fuel IH]; intros pos m Hin; simpl in Hin; [destruct Hin|].
  destruct (length t <? pos); [destruct Hin|].
  destruct (run ic t r pos None) as [|[e c] rest] eqn:Hrun.
  - eauto.
  - destruct Hin as [<-|Hin]; [|eauto].
    exists pos, e, c. rewrite Hrun. split; [left|]; done.
Qed.

End ReFacts.

(** ** OTP extraction *)

Module OtpFacts.
Import Re ReFacts Otp.

Lemma length_string_of_list_ascii l :
  String.length (string_of_list_ascii l) = length l.
Proof. induction l; simpl; auto. Qed.

Lemma digits_between_bound t i j :
  i < j → digits_between t i j → j ≤ length t.
Proof.
  intros Hlt Hd. destruct (Hd (j - 1)) as (x & Hx & _); [lia|].
  apply lookup_lt_Some in Hx. lia.
Qed.

Lemma digits_between_forallb t i j :
  digits_between t i j →
  forallb Text.is_decimal (take (j - i) (drop i t)) = true.
Proof.
  intros Hd. apply forallb_forall. intros x Hx.
  apply list_elem_of_In, list_elem_of_lookup in Hx as [k Hk].
  pose proof (lookup_lt_Some _ _ _ Hk) as Hlen.
  rewrite length_take in Hlen.
  rewrite lookup_take_lt in Hk by lia. rewrite lookup_drop in Hk.
  destruct (Hd (i + k)) as (y & Hy & Hdec); [lia|]. congruence.
Qed.

(** A reported span of four to six digits is a well-formed code and a
    digit run of the text. *)
Lemma slice_is_code t i j :
  4 ≤ j - i ≤ 6 → digits_between t i j →
  is_code (slice t i j) = true ∧ digit_run_at t i (j - i) = true.
Proof.
  intros Hlen Hd.
  pose proof (digits_between_bound t i j ltac:(lia) Hd) as Hj.
  pose proof (digits_between_forallb t i j Hd) as Hall.
  unfold is_code, all_decimal, digit_run_at, slice.
  rewrite length_string_of_list_ascii, list_ascii_of_string_of_list_ascii.
  rewrite length_take, length_drop, Hall.
  replace ((j - i) `min` (length t - i)) with (j - i) by lia.
  split; repeat (apply andb_true_intro; split);
    try apply Nat.leb_le; try lia; reflexivity.
Qed.

Lemma digit_run_at_has_run s i n :
  4 ≤ n ≤ 6 → digit_run_at (list_ascii_of_string s) i n = true →
  has_digit_run s = true.
Proof.
  intros Hn Hrun. unfold has_digit_run. apply existsb_exists.
  exists i. split.
  - apply in_seq. unfold digit_run_at in Hrun.
    apply andb_prop in Hrun as [Hb _]. apply Nat.leb_le in Hb. lia.
  - apply existsb_exists. exists n. split; [|done].
    simpl. lia.
Qed.

(** Everything [findall] returns for one of the five patterns is a
    well-formed code, and its presence shows a digit run in the text. *)
Lemma findall_otp_pattern r s m :
  In r Patterns.otp_patterns →
  In m (findall_ignorecase r s) →
  is_code m = true ∧ has_digit_run s = true.
Proof.
  intros Hr Hm. unfold findall_ignorecase in Hm.
  apply scan_inv in Hm as (p & e & c & Hrun & ->).
  apply otp_pattern_report in Hrun as (i & j & -> & Hlen & Hd); [|done].
  destruct (slice_is_code _ i j Hlen Hd) as [Hcode Hat].
  split; [done|]. eapply digit_run_at_has_run; [|exact Hat]. lia.
Qed.

Lemma findall_no_run r s :
  In r Patterns.otp_patterns → has_digit_run s = false →
  findall_ignorecase r s = [].
Proof.
  intros Hr Hno. destruct (findall_ignorecase r s) as [|m ms] eqn:Hf; [done|].
  destruct (findall_otp_pattern r s m Hr) as [_ Hrun]; [rewrite Hf; by left|].
  congruence.
Qed.

Lemma extract_with_code ps s otp :
  (∀ r, In r ps → In r Patterns.otp_patterns) →
  TempEmailV2.extract_with ps s = Some otp → is_code otp = true.
Proof.
  induction ps as [|r ps IH]; intros Hps; simpl; [done|].
  assert (Hrest : ∀ r', In r' ps → In r' Patterns.otp_patterns)
    by (intros; apply Hps; by right).
  destruct (findall_ignorecase r s) as [|m ms] eqn:Hf; [auto|].
  destruct (_ && Text.isdigit m); [|auto].
  intros [= <-].
  apply (findall_otp_pattern r s m); [apply Hps; by left|rewrite Hf; by left].
Qed.

Lemma extract_with_no_run ps s :
  (∀ r, In r ps → In r Patterns.otp_patterns) →
  has_digit_run s = false → TempEmailV2.extract_with ps s = None.
Proof.
  induction ps as [|r ps IH]; intros Hps Hno; simpl; [done|].
  rewrite findall_no_run; [|apply Hps; by left|done].
  apply IH; [|done]. intros; apply Hps; by right.
Qed.

Lemma search_no_run ps s :
  (∀ r, In r ps → In r Patterns.otp_patterns) →
  has_digit_run s = false → TempEmail.search ps s = None.
Proof.
  induction ps as [|r ps IH]; intros Hps Hno; simpl; [done|].
  rewrite findall_no_run; [|apply Hps; by left|done].
  apply IH; [|done]. intros; apply Hps; by right.
Qed.

(** C4, amended. OTP extraction applied to the body "Your code is
    482913" returns "482913", in both e-mail services; and an input in
    which no four decimal digits follow one another yields none: for
    [_extract_otp_from_text] the text, for [extract_otp_from_email] the
    body and the subject of the message. The condition is on four
    consecutive digits anywhere ([has_digit_run]), not on a block of four
    to six: a longer block contains four consecutive digits and is not
    covered. *)
Theorem otp_extraction_example_and_none :
  TempEmailV2._extract_otp_from_text "Your code is 482913" = Some "482913"
  ∧ (∀ subj,
       TempEmail.extract_otp_from_email
         {| TempEmail.subject := subj; TempEmail.body := "Your code is 482913" |}
       = Some "482913")
  ∧ (∀ text,
       has_digit_run text = false →
       TempEmailV2._extract_otp_from_text text = None)
  ∧ (∀ content,
       has_digit_run (TempEmail.body content) = false →
       has_digit_run (TempEmail.subject content) = false →
       TempEmail.extract_otp_from_email content = None).
Proof.
  split; [vm_compute; reflexivity|].
  split; [intros subj; vm_compute; reflexivity|].
  split.
  - intros text Hno. by apply extract_with_no_run.
  - intros content Hb Hs. unfold TempEmail.extract_otp_from_email.
    rewrite search_no_run by done. by apply search_no_run.
Qed.

Lemma otp_extraction_none_witness :
  has_digit_run "Code 123 sent on 12-05" = false
  ∧ TempEmailV2._extract_otp_from_text "Code 123 sent on 12-05" = None
  ∧ TempEmail.extract_otp_from_email
      {| TempEmail.subject := "Welcome"; TempEmail.body := "Code 123 sent on 12-05" |}
    = None.
Proof.
  split; [reflexivity|]. split.
  - apply (proj1 (proj2 (proj2 otp_extraction_example_and_none))).
    reflexivity.
  - apply (proj2 (proj2 (proj2 otp_extraction_example_and_none)));
      reflexivity.
Defined.

(** C4 as stated fails: "1234567" has no block of four to six digits
    (its only block has seven), and yet both services return a code, the
    first six digits, cut out by the bare pattern [(\d{4,6})]. *)
Lemma block_of_seven_digits_yields_a_code :
  has_block_of_4_to_6 "1234567" = false
  ∧ TempEmailV2._extract_otp_from_text "1234567" = Some "123456"
  ∧ TempEmail.extract_otp_from_email
      {| TempEmail.subject := ""; TempEmail.body := "1234567" |}
    = Some "123456".
Proof. repeat split; reflexivity. Qed.

(** A run longer than six digits still contains a run of four to six:
    the bare pattern cuts the first six digits out of it. *)
Example long_run_is_truncated :
  has_digit_run "1234567" = true
  ∧ TempEmailV2._extract_otp_from_text "1234567" = Some "123456".
Proof. split; reflexivity. Qed.

Lemma check_messages_code api messages otp :
  TempEmailV2.check_messages api messages = Ret (Some otp) →
  is_code otp = true.
Proof.
  induction messages as [|[message_id|] rest IH]; simpl; [done| |done].
  destruct (negb (Text.truthy message_id)); [done|].
  destruct (TempEmailV2.get_message api message_id) as [resp|e]; [|done].
  destruct (negb (TempEmailV2.status_code resp =? 200)); [done|].
  destruct (TempEmailV2._extract_otp_from_text _) as [code|] eqn:Hex; [|done].
  destruct (Text.truthy code); [|done].
  intros [= <-]. by apply extract_with_code in Hex.
Qed.

(** C9. For every input string, [_extract_otp_from_text] returns none or
    a string of decimal digits whose length is between four and six; and
    so does [get_otp], whatever the mail API answers. *)
Theorem otp_is_none_or_short_digit_string :
  (∀ text,
     match TempEmailV2._extract_otp_from_text text with
     | None => True
     | Some otp =>
         all_decimal otp = true ∧ 4 ≤ String.length otp ≤ 6
     end)
  ∧ (∀ api service email,
       match TempEmailV2.get_otp api service email with
       | None => True
       | Some otp =>
           all_decimal otp = true ∧ 4 ≤ String.length otp ≤ 6
       end).
Proof.
  assert (Hcode : ∀ otp, is_code otp = true →
            all_decimal otp = true ∧ 4 ≤ String.length otp ≤ 6).
  { intros otp H. unfold is_code in H.
    apply andb_prop in H as [H Hd]. apply andb_prop in H as [H4 H6].
    apply Nat.leb_le in H4, H6. auto. }
  split.
  - intros text.
    destruct (TempEmailV2._extract_otp_from_text text) as [otp|] eqn:Hex; [|done].
    apply Hcode. by apply extract_with_code in Hex.
  - intros api s email. unfold TempEmailV2.get_otp.
    destruct (_ && _); [|done].
    unfold TempEmailV2._get_mailtm_otp.
    destruct (negb (TempEmailV2.token_set s)); [done|].
    destruct (TempEmailV2.get_messages api) as [resp|e]; [|done].
    destruct (negb (TempEmailV2.status_code resp =? 200)); [done|].
    destruct (TempEmailV2.json resp) as [|m ms]; [done|].
    destruct (TempEmailV2.check_messages api (take 5 (m :: ms)))
      as [[otp|]|e] eqn:Hchk; [|done|done].
    apply Hcode. by apply check_messages_code in Hchk.
Qed.

End OtpFacts.

(** ** The spreadsheet service *)

Module SheetsFacts.
Import GoogleSheets.

Lemma find_status_column_none headers : ∀ i,
  (∀ header, In header headers →
             Text.contains "status" (Text.lower header) = false) →
  find_status_column headers i = None.
Proof.
  induction headers as [|header rest IH]; intros i Hno; simpl; [done|].
  unfold is_status_header. rewrite (Hno header) by (by left).
  rewrite andb_false_r. apply IH. intros h Hh. apply Hno. by right.
Qed.

(** C6. For every sheet whose header row has no cell containing
    "status" case-insensitively, [get_pending_records] returns the empty
    list; it does not raise. *)
Theorem get_pending_records_without_status_header s headers rows :
  values_get s = Ret (Some (headers :: rows)) →
  (∀ header, In header headers →
             Text.contains "status" (Text.lower header) = false) →
  get_pending_records s = Ret [].
Proof.
  intros Hget Hno. unfold get_pending_records, get_pending_records_body.
  rewrite Hget. simpl. by rewrite find_status_column_none.
Qed.

Lemma get_pending_records_without_status_header_witness :
  get_pending_records Samples.sheet_without_status = Ret [].
Proof.
  eapply get_pending_records_without_status_header.
  - reflexivity.
  - intros header Hin. simpl in Hin.
    destruct Hin as [<-|[<-|[<-|[<-|[]]]]]; reflexivity.
Defined.

(** [get_pending_records] returns a list on every sheet. *)
Lemma get_pending_records_total s :
  ∃ pending_records, get_pending_records s = Ret pending_records.
Proof.
  unfold get_pending_records.
  destruct (get_pending_records_body s); eauto.
Qed.

(** C3 as stated fails: on a sheet whose read raises,
    [get_pending_records] returns the empty list instead of raising. *)
Lemma read_failure_is_not_raised :
  values_get Samples.unreachable_sheet
  = Raise (HttpError "503 backend unavailable")
  ∧ get_pending_records Samples.unreachable_sheet = Ret []
  ∧ ¬ ∃ e, get_pending_records Samples.unreachable_sheet = Raise e.
Proof.
  split; [reflexivity|]. split; [reflexivity|].
  intros [e He]. discriminate He.
Qed.

Lemma pending_rows_none headers idx rows : ∀ row_index,
  (∀ row status, In row rows → row !! idx = Some status →
                 is_pending status = false) →
  pending_rows headers idx rows row_index = [].
Proof.
  induction rows as [|row rest IH]; intros row_index Hno; simpl; [done|].
  rewrite IH by (intros r st Hr; apply Hno; by right).
  destruct (idx <? length row); [|done].
  destruct (row !! idx) as [status|] eqn:Hst; [|done].
  by rewrite (Hno row status) by (by left || done).
Qed.

(** C3, amended. When the read raises, [get_pending_records] catches the
    exception and returns the empty list, the value it also returns when
    no row is pending; it never raises. *)
Theorem get_pending_records_swallows_read_failure s :
  (∀ e, values_get s = Raise e → get_pending_records s = Ret [])
  ∧ (∀ headers rows idx,
       values_get s = Ret (Some (headers :: rows)) →
       find_status_column headers 0 = Some idx →
       (∀ row status, In row rows → row !! idx = Some status →
                      is_pending status = false) →
       get_pending_records s = Ret [])
  ∧ (∀ e, get_pending_records s ≠ Raise e).
Proof.
  unfold get_pending_records, get_pending_records_body.
  split; [|split].
  - intros e ->. reflexivity.
  - intros headers rows idx -> Hidx Hno. simpl. rewrite Hidx.
    by rewrite pending_rows_none.
  - intros e. destruct (values_get s) as [[[|headers rows]|]|e']; simpl;
      try discriminate.
    destruct (find_status_column headers 0); discriminate.
Qed.

Lemma get_pending_records_swallows_read_failure_witness :
  get_pending_records Samples.unreachable_sheet = Ret [].
Proof.
  apply (proj1 (get_pending_records_swallows_read_failure
                  Samples.unreachable_sheet)
           (HttpError "503 backend unavailable")).
  reflexivity.
Defined.

Lemma write_cell_twice column row value s :
  write_cell column row value (write_cell column row value s).2
  = write_cell column row value s.
Proof.
  unfold write_cell, values_update.
  destruct (accepts_updates s && (1 <=? row)%Z) eqn:Hok; simpl;
    rewrite Hok; [|done].
  by rewrite insert_insert_eq.
Qed.

(** A writer changes no cell other than its own. *)
Lemma write_cell_other column row value s key :
  key ≠ (column, row) →
  cells (write_cell column row value s).2 !! key = cells s !! key.
Proof.
  intros Hne. unfold write_cell, values_update.
  destruct (accepts_updates s && (1 <=? row)%Z); simpl; [|done].
  by rewrite lookup_insert_ne.
Qed.

(** C7. [update_record_status], [update_email_used] and [log_error] are
    each idempotent: for every row number and value, the spreadsheet
    after two calls with the same arguments is the spreadsheet after
    one. *)
Theorem sink_writes_idempotent row_number value s :
  (update_record_status row_number value
     (update_record_status row_number value s).2).2
  = (update_record_status row_number value s).2
  ∧ (update_email_used row_number value
       (update_email_used row_number value s).2).2
    = (update_email_used row_number value s).2
  ∧ (log_error row_number value (log_error row_number value s).2).2
    = (log_error row_number value s).2.
Proof.
  unfold update_record_status, update_email_used, log_error.
  by rewrite !write_cell_twice.
Qed.

End SheetsFacts.

(** ** The bot *)

Module BotFacts.
Import Eff NusukBot.
Local Open Scope eff_scope.

(** *** The manual hand-off steps *)

Lemma countdown_returns n : ∀ st, (countdown n st).1 = Ret tt.
Proof.
  induction n as [|n IH]; intros st; [reflexivity|].
  simpl. unfold bind, sleep, modify. simpl. apply IH.
Qed.

Lemma check_account_created_true env st :
  (check_account_created env st).1 = Ret true.
Proof.
  unfold check_account_created.
  generalize (probe env true account_success_indicators).
  generalize (report_errors env error_selectors). intros errors indicators.
  unfold try_except, bind, modify, ret.
  destruct (indicators st) as [[[]|e] st1]; simpl; try reflexivity.
  destruct (errors st1) as [[[]|e] st2]; reflexivity.
Qed.

(** [create_account] reports success whatever the page shows. *)
Lemma create_account_true env record_data st :
  (create_account env record_data st).1 = Ret true.
Proof.
  unfold create_account, try_except, bind.
  pose proof (countdown_returns 15 st) as Hc.
  destruct (countdown 15 st) as [r st1]. simpl in Hc. subst r.
  pose proof (check_account_created_true env st1) as Hk.
  destruct (check_account_created env st1) as [r st2]. simpl in Hk.
  by subst r.
Qed.

Lemma check_otp_verified_true env st :
  (check_otp_verified env st).1 = Ret true.
Proof.
  unfold check_otp_verified.
  generalize (probe env true otp_success_indicators). intros indicators.
  unfold try_except, bind, ret.
  by destruct (indicators st) as [[b|e] st1].
Qed.

(** C5. In both manual hand-off steps, when the probe made after the
    fixed wait finds no success indicator, the step returns success:
    [create_account] after its 15 seconds, and [verify_email_otp] after
    the 20 seconds it grants once it has detected the OTP page. *)
Theorem manual_steps_succeed_without_indicator env record_data st :
  ((probe env true account_success_indicators (countdown 15 st).2).1
     = Ret false →
   (create_account env record_data st).1 = Ret true)
  ∧ (∀ st_page,
       probe env false otp_selectors (sleep (Seconds 3) st).2
         = (Ret true, st_page) →
       (probe env true otp_success_indicators (countdown 20 st_page).2).1
         = Ret false →
       (verify_email_otp env st).1 = Ret true).
Proof.
  split.
  - intros _. apply create_account_true.
  - intros st_page Hpage _.
    unfold verify_email_otp. revert Hpage.
    generalize (probe env false otp_selectors). intros detect Hpage.
    unfold try_except, bind, sleep, modify in *. simpl in Hpage.
    rewrite Hpage. change (negb true) with false. cbv beta iota.
    pose proof (countdown_returns 20 st_page) as Hc.
    destruct (countdown 20 st_page) as [r st1]. simpl in Hc. subst r.
    pose proof (check_otp_verified_true env st1) as Hk.
    destruct (check_otp_verified env st1) as [r st2]. simpl in Hk.
    by subst r.
Qed.

Lemma manual_steps_succeed_without_indicator_witness :
  (create_account (site_env blank_site) ∅ running_bot).1 = Ret true
  ∧ (verify_email_otp (site_env otp_site) running_bot).1 = Ret true.
Proof.
  split.
  - apply (proj1 (manual_steps_succeed_without_indicator
                    (site_env blank_site) ∅ running_bot)).
    vm_compute; reflexivity.
  - eapply (proj2 (manual_steps_succeed_without_indicator
                     (site_env otp_site) ∅ running_bot)).
    + vm_compute; reflexivity.
    + vm_compute; reflexivity.
Defined.

(** *** The pipeline *)

Lemma bind_returns {S A B} (m : Eff S A) (k : A → Eff S B) s a s' :
  m s = (Ret a, s') → bind m k s = k a s'.
Proof. intros H. unfold bind. by rewrite H. Qed.

Lemma try_except_returns {S A} (m : Eff S A) h s a s' :
  m s = (Ret a, s') → try_except m h s = (Ret a, s').
Proof. intros H. unfold try_except. by rewrite H. Qed.

Lemma invoke_eq name step w r st' :
  step (bot w) = (r, st') →
  invoke name step w = (r, set_bot st' (note_invoked name w)).
Proof.
  intros H. unfold invoke, bind, modify, on_bot, zoom. simpl. by rewrite H.
Qed.

(** Consume the hypothesis that the first stages succeeded: one
    equation per stage. *)
Ltac stage_equations H :=
  repeat match type of H with
    | match ?step ?st with _ => _ end = Some _ =>
        let E := fresh "Hstage" in
        destruct (step st) as [[[|]|?] ?] eqn:E; try discriminate H
    end.

(** Let [process_record] take the next step along an equation of the
    context. *)
Ltac next_step :=
  erewrite bind_returns
    by (apply invoke_eq; lazy beta iota delta [bot set_bot note_invoked];
        eassumption);
  lazy beta iota delta [negb].

(** C2. For every record and every position [k] in the pipeline
    (navigate, switch-language, select-guest-type, fill-identity-fields,
    fill-personal-fields, create-account, verify-otp): if the steps before
    [k] return [True] and step [k] returns [False], then [process_record]
    returns [False], the steps it has invoked are exactly the first [k+1],
    the bot is left as step [k] left it, and nothing is written to the
    spreadsheet. *)
Theorem process_record_short_circuits steps record w k name step st_k st' :
  let stages := pipeline steps (GoogleSheets.data record) in
  stages !! k = Some (name, step) →
  all_succeed (take k stages) (set_current_record record (bot w))
    = Some st_k →
  step st_k = (Ret false, st') →
  process_record steps record w
  = (Ret false,
     {| bot := st'; sheet := sheet w; dirs := dirs w;
        dirs_made := dirs_made w; live := live w; launched := launched w;
        invoked := invoked w ++ (take (S k) stages).*1 |}).
Proof.
  intros stages Hk Hbefore Hfail. subst stages. unfold pipeline in *.
  unfold process_record. apply try_except_returns.
  rewrite (bind_returns _ _ w tt
             (set_bot (set_current_record record (bot w)) w))
    by reflexivity.
  do 7 (destruct k as [|k];
        [simpl in Hk; injection Hk as <- <-;
         cbn [take all_succeed] in Hbefore; stage_equations Hbefore;
         injection Hbefore as Hst; subst st_k;
         repeat next_step;
         lazy beta iota delta
           [ret set_bot note_invoked take fmap list_fmap fst bot sheet dirs
            dirs_made live launched invoked];
         rewrite <- ?app_assoc; reflexivity|]).
  discriminate Hk.
Qed.

Lemma process_record_short_circuits_witness :
  let steps := nusuk_steps (site_env blank_site) base_url in
  let w := running_world Samples.sheet_row5 in
  (process_record steps record_row5 w).1 = Ret false
  ∧ invoked (process_record steps record_row5 w).2
    = [Navigate; SwitchLanguage].
Proof.
  intros steps w.
  set (st_1 := (navigate_to_nusuk (site_env blank_site) base_url
                  (set_current_record record_row5 (bot w))).2).
  set (st_2 := (switch_to_english (site_env blank_site) st_1).2).
  rewrite (process_record_short_circuits steps record_row5 w 1
             SwitchLanguage (do_switch_to_english steps) st_1 st_2).
  - split; reflexivity.
  - reflexivity.
  - vm_compute; reflexivity.
  - vm_compute; reflexivity.
Defined.

(** *** A guest-type selection that cannot resolve *)

Lemma bind_raises {S A B} (m : Eff S A) (k : A → Eff S B) s e s' :
  m s = (Raise e, s') → bind m k s = (Raise e, s').
Proof. intros H. unfold bind. by rewrite H. Qed.

Lemma try_except_raises {S A} (m : Eff S A) h s e s' :
  m s = (Raise e, s') → try_except m h s = h e s'.
Proof. intros H. unfold try_except. by rewrite H. Qed.

Lemma on_driver_raises (env : Env) {A} (c : session → call A) st :
  (∀ history d, ∃ e, env _ history (c d) = Raise e) →
  ∃ e st', on_driver env c st = (Raise e, st').
Proof.
  intros H. unfold on_driver, perform, raise.
  destruct (driver st) as [d|]; [|eauto].
  destruct (H (trace st) d) as [e ->]. eauto.
Qed.

Lemma until_raises (env : Env) c b value st :
  (∀ history d, ∃ e, env _ history (Until d c b value) = Raise e) →
  ∃ e st', until env c b value st = (Raise e, st').
Proof.
  intros H. unfold until, perform, raise.
  destruct (wait st) as [d|]; [|eauto].
  destruct (H (trace st) d) as [e ->]. eauto.
Qed.

Lemma foreign_guest_fallback_fails (env : Env) selectors :
  (∀ history d c b selector,
     In selector selectors →
     ∃ e, env _ history (Until d c b selector) = Raise e) →
  ∀ st, ∃ st', foreign_guest_fallback env selectors st = (Ret false, st').
Proof.
  induction selectors as [|selector rest IH]; intros H st.
  - eexists; reflexivity.
  - change (foreign_guest_fallback env (selector :: rest) st)
      with (try_except (foreign_guest_attempt env selector)
              (fun _ => foreign_guest_fallback env rest) st).
    destruct (until_raises env element_to_be_clickable (by_of selector)
                selector st) as (e & st1 & Hu).
    { intros history d. apply H. by left. }
    erewrite try_except_raises
      by (unfold foreign_guest_attempt; apply bind_raises; exact Hu).
    apply IH. intros history d c b sel Hsel. apply H. by right.
Qed.

Lemma foreign_guest_text_search_fails (env : Env) st :
  (∀ history d page_text,
     env _ history (PageSource d) = Ret page_text →
     Text.contains "Foreign Guest" page_text = false
     ∧ Text.contains_wide international_visitor page_text = false) →
  ∃ st', foreign_guest_text_search env st = (Ret false, st').
Proof.
  intros H. unfold foreign_guest_text_search, try_except, bind, on_driver,
    perform, raise, ret.
  destruct (driver st) as [d|]; [|eauto].
  destruct (env string (trace st) (PageSource d)) as [page_text|e] eqn:Hp;
    [|eauto].
  destruct (H _ _ _ Hp) as [-> ->]. simpl. eauto.
Qed.

(** When nothing that selects the guest type resolves,
    [select_foreign_guest] returns [False]. *)
Lemma select_foreign_guest_fails (env : Env) st :
  no_guest_type_selector env →
  ∃ st', select_foreign_guest env st = (Ret false, st').
Proof.
  intros (Hradio & Hfallback & Hpage). unfold select_foreign_guest.
  set (st0 := log_event (Slept (Seconds 3)) st).
  destruct (on_driver_raises env (fun d => FindElement d ID "type3") st0
              Hradio) as (e & st1 & Hr).
  destruct (foreign_guest_fallback_fails env foreign_guest_selectors
              Hfallback st1) as (st2 & Hf).
  destruct (foreign_guest_text_search_fails env st2 Hpage) as (st3 & Ht).
  exists st3.
  apply try_except_returns.
  rewrite (bind_returns _ _ st tt st0) by reflexivity.
  erewrite try_except_raises by (apply bind_raises; exact Hr).
  rewrite (bind_returns _ _ _ _ _ Hf). lazy beta iota.
  rewrite (bind_returns _ _ _ _ _ Ht). reflexivity.
Qed.

Lemma on_sheet_eq write w ok s :
  write (sheet w) = (ok, s) → on_sheet write w = (Ret ok, set_sheet s w).
Proof. intros H. unfold on_sheet. by rewrite H. Qed.

Lemma write_cell_accepted column row value s :
  GoogleSheets.accepts_updates s = true → (1 ≤ row)%Z →
  GoogleSheets.write_cell column row value s
  = (true,
     {| GoogleSheets.values_get := GoogleSheets.values_get s;
        GoogleSheets.accepts_updates := GoogleSheets.accepts_updates s;
        GoogleSheets.cells :=
          <[(column, row) := value]> (GoogleSheets.cells s) |}).
Proof.
  intros Hok Hrow. unfold GoogleSheets.write_cell, GoogleSheets.values_update.
  rewrite Hok. apply Z.leb_le in Hrow. by rewrite Hrow.
Qed.

(** C1, amended. For every record whose guest-type selection fails
    because no selector resolves (the two steps before it having
    succeeded), on a spreadsheet that accepts updates, the run writes
    the status "Failed" for that row and nothing else: no error detail is
    written. No later step is invoked; after the failed step the bot
    only sleeps. *)
Theorem failed_guest_selection_marks_row_failed
    (env : Env) steps record w st_1 st_2 :
  let row := GoogleSheets.row_number record in
  do_select_foreign_guest steps = select_foreign_guest env →
  no_guest_type_selector env →
  GoogleSheets.accepts_updates (sheet w) = true →
  (1 ≤ row)%Z →
  do_navigate_to_nusuk steps (set_current_record record (bot w))
    = (Ret true, st_1) →
  do_switch_to_english steps st_1 = (Ret true, st_2) →
  let w' := (process_one steps record w).2 in
  (process_one steps record w).1 = Ret tt
  ∧ GoogleSheets.cells (sheet w')
    = <[("H", row) := "Failed"]> (GoogleSheets.cells (sheet w))
  ∧ GoogleSheets.cells (sheet w') !! ("N", row)
    = GoogleSheets.cells (sheet w) !! ("N", row)
  ∧ invoked w'
    = (invoked w ++ [Navigate; SwitchLanguage; SelectGuestType])%list
  ∧ bot w'
    = log_event (Slept (Uniform 5000 10000))
        (select_foreign_guest env st_2).2.
Proof.
  intros row Hstep Hnone Hok Hrow Hnav Hswitch.
  destruct (select_foreign_guest_fails env st_2 Hnone) as (st_3 & Hsel).
  rewrite <- Hstep in Hsel.
  assert (Hrec : process_record steps record w
                 = (Ret false,
                    {| bot := st_3; sheet := sheet w; dirs := dirs w;
                       dirs_made := dirs_made w; live := live w;
                       launched := launched w;
                       invoked :=
                         (invoked w
                          ++ [Navigate; SwitchLanguage; SelectGuestType])%list
                    |})).
  { unfold process_record. apply try_except_returns.
    rewrite (bind_returns _ _ w tt
               (set_bot (set_current_record record (bot w)) w))
      by reflexivity.
    repeat next_step.
    lazy beta iota delta
      [ret set_bot note_invoked bot sheet dirs dirs_made live launched
       invoked].
    rewrite <- !app_assoc. reflexivity. }
  rewrite Hstep in Hsel.
  assert (Hone : process_one steps record w
                 = (Ret tt,
                    {| bot := log_event (Slept (Uniform 5000 10000)) st_3;
                       sheet :=
                         {| GoogleSheets.values_get :=
                              GoogleSheets.values_get (sheet w);
                            GoogleSheets.accepts_updates :=
                              GoogleSheets.accepts_updates (sheet w);
                            GoogleSheets.cells :=
                              <[("H", row) := "Failed"]>
                                (GoogleSheets.cells (sheet w)) |};
                       dirs := dirs w; dirs_made := dirs_made w;
                       live := live w; launched := launched w;
                       invoked :=
                         (invoked w
                          ++ [Navigate; SwitchLanguage; SelectGuestType])%list
                    |})).
  { unfold process_one. apply try_except_returns.
    rewrite (bind_returns _ _ _ _ _ Hrec). lazy beta iota.
    erewrite (bind_returns _ _ _ tt); cycle 1.
    { erewrite (bind_returns _ _ _ true); cycle 1.
      { apply on_sheet_eq. apply write_cell_accepted; assumption. }
      reflexivity. }
    reflexivity. }
  rewrite Hone, Hsel. lazy beta iota delta [fst snd sheet bot invoked].
  repeat split.
  lazy beta iota delta [GoogleSheets.cells].
  by rewrite lookup_insert_ne.
Qed.

Lemma site_without_guest_type_has_no_selector :
  no_guest_type_selector (site_env site_without_guest_type).
Proof.
  split; [|split].
  - intros history d. eexists. reflexivity.
  - intros history d c b selector Hin. simpl in Hin.
    repeat (destruct Hin as [<-|Hin]; [eexists; vm_compute; reflexivity|]).
    destruct Hin.
  - intros history d page_text [= <-]. split; vm_compute; reflexivity.
Defined.

Lemma failed_guest_selection_marks_row_failed_witness :
  let env := site_env site_without_guest_type in
  let steps := nusuk_steps env base_url in
  let w' := (process_one steps record_row5
               (running_world Samples.sheet_row5)).2 in
  GoogleSheets.cells (sheet w') = <[("H", 5%Z) := "Failed"]> ∅
  ∧ invoked w' = [Navigate; SwitchLanguage; SelectGuestType].
Proof.
  intros env steps w'.
  set (w := running_world Samples.sheet_row5).
  set (st_1 := (navigate_to_nusuk env base_url
                  (set_current_record record_row5 (bot w))).2).
  set (st_2 := (switch_to_english env st_1).2).
  destruct (failed_guest_selection_marks_row_failed env steps record_row5 w
              st_1 st_2) as (_ & Hcells & _ & Hinvoked & _).
  - reflexivity.
  - exact site_without_guest_type_has_no_selector.
  - reflexivity.
  - vm_compute. discriminate.
  - vm_compute; reflexivity.
  - vm_compute; reflexivity.
  - split; [exact Hcells | exact Hinvoked].
Defined.

(** C1 as stated fails: a run over a sheet whose row 5 is pending, on a
    site where nothing selects the guest type, ends with the status
    "Failed" in H5 and no error detail in N5; the steps after the
    selection are not invoked. *)
Lemma guest_selection_failure_writes_no_error_detail :
  let env := site_env site_without_guest_type in
  let outcome :=
    run_automation env (nusuk_steps env base_url)
      (initial_world Samples.sheet_row5) in
  no_guest_type_selector env
  ∧ outcome.1 = Ret tt
  ∧ invoked outcome.2 = [Navigate; SwitchLanguage; SelectGuestType]
  ∧ GoogleSheets.cells (sheet outcome.2) !! ("H", 5%Z) = Some "Failed"
  ∧ ¬ (∃ error_detail,
         GoogleSheets.cells (sheet outcome.2) !! ("N", 5%Z)
           = Some error_detail
         ∧ error_detail ≠ "").
Proof.
  intros env outcome.
  split; [exact site_without_guest_type_has_no_selector|].
  split; [vm_compute; reflexivity|].
  split; [vm_compute; reflexivity|].
  split; [vm_compute; reflexivity|].
  intros (error_detail & Hcell & _). vm_compute in Hcell. discriminate.
Qed.

(** *** The passport field *)

Lemma passport_number_missing record_data :
  passport_missing record_data → passport_number record_data = "".
Proof.
  intros H. unfold passport_number, get_field.
  assert (Hcol : ∀ column, In column passport_columns →
                           default "" (record_data !! column) = "").
  { intros column Hin. by destruct (H column Hin) as [-> | ->]. }
  rewrite !Hcol by (simpl; tauto). reflexivity.
Qed.

Lemma field_text_snoc e history ev :
  field_text e (history ++ [ev]) = typed_by e ev (field_text e history).
Proof. unfold field_text. by rewrite fold_left_app. Qed.

Lemma perform_eq (env : Env) {A} (c : call A) st :
  perform env c st
  = (env A (trace st) c, log_event (Called c (env A (trace st) c)) st).
Proof. reflexivity. Qed.

Lemma perform_clear_text (env : Env) e st st' :
  perform env (Clear e) st = (Ret tt, st') →
  field_text e (trace st') = "".
Proof.
  rewrite perform_eq. intros [= Hr <-]. simpl trace.
  rewrite field_text_snoc, Hr. simpl. by rewrite Nat.eqb_refl.
Qed.

Lemma perform_send_text (env : Env) e s st st' :
  perform env (SendKeys e (Text s)) st = (Ret tt, st') →
  field_text e (trace st') = field_text e (trace st) ++ s.
Proof.
  rewrite perform_eq. intros [= Hr <-]. simpl trace.
  rewrite field_text_snoc, Hr. simpl. by rewrite Nat.eqb_refl.
Qed.

Lemma sleep_text p e st :
  field_text e (trace (sleep p st).2) = field_text e (trace st).
Proof. unfold sleep, modify. simpl. by rewrite field_text_snoc. Qed.

Lemma append_assoc (a b c : string) : (a ++ b) ++ c = a ++ (b ++ c).
Proof.
  induction a as [|x a IH]; [reflexivity|].
  change (String x ((a ++ b) ++ c) = String x (a ++ (b ++ c))).
  by rewrite IH.
Qed.

Lemma append_empty_r (a : string) : a ++ "" = a.
Proof.
  induction a as [|x a IH]; [reflexivity|].
  change (String x (a ++ "") = String x a). by rewrite IH.
Qed.

(** Typing character by character appends the characters. *)
Lemma type_chars_text (env : Env) e chars : ∀ st st',
  type_chars env e chars st = (Ret tt, st') →
  field_text e (trace st')
  = field_text e (trace st) ++ string_of_list_ascii chars.
Proof.
  induction chars as [|char rest IH]; intros st st' Hrun.
  - injection Hrun as <-. by rewrite append_empty_r.
  - change (type_chars env e (char :: rest))
      with (perform env (SendKeys e (Text (String char ""))) ;;
            sleep (Uniform 50 150) ;; type_chars env e rest) in Hrun.
    unfold bind at 1 in Hrun.
    destruct (perform env (SendKeys e (Text (String char ""))) st)
      as [[[]|err] st1] eqn:Hsend; [|discriminate].
    apply perform_send_text in Hsend.
    rewrite (bind_returns _ _ st1 tt (sleep (Uniform 50 150) st1).2) in Hrun
      by reflexivity.
    apply IH in Hrun. rewrite Hrun, sleep_text, Hsend.
    by rewrite append_assoc.
Qed.

(** After [simulate_human_typing] has returned, the element holds the
    text, whichever of its two ways of typing got there. *)
Lemma simulate_human_typing_text (env : Env) e text st st' :
  simulate_human_typing env e text st = (Ret tt, st') →
  field_text e (trace st') = text.
Proof.
  unfold simulate_human_typing, try_except. intros Hrun.
  destruct ((perform env (Clear e) ;;
             type_chars env e (list_ascii_of_string text)) st)
    as [[[]|err] st1] eqn:Htry.
  - injection Hrun as <-. unfold bind in Htry.
    destruct (perform env (Clear e) st) as [[[]|err] st0] eqn:Hclear;
      [|discriminate].
    apply perform_clear_text in Hclear. apply type_chars_text in Htry.
    by rewrite Htry, Hclear, string_of_list_ascii_of_string.
  - unfold bind in Hrun.
    destruct (perform env (Clear e) st1) as [[[]|err'] st2] eqn:Hclear;
      [|discriminate].
    apply perform_clear_text in Hclear. apply perform_send_text in Hrun.
    by rewrite Hrun, Hclear.
Qed.

(** An attempt on the passport field that returns, returns [True] with
    the passport number of the record in the field, or the default when
    the record has none. *)
Lemma passport_attempt_text (env : Env) record_data selector st b st' :
  passport_attempt env record_data selector st = (Ret b, st') →
  b = true
  ∧ ∃ e, field_text e (trace st')
         = if Text.truthy (passport_number record_data)
           then passport_number record_data
           else default_passport.
Proof.
  unfold passport_attempt. intros Hrun. unfold bind at 1 in Hrun.
  destruct (until env presence_of_element_located (by_of selector) selector
              st) as [[e|err] st1]; [|discriminate].
  unfold bind at 1 in Hrun.
  destruct (perform env (Clear e) st1) as [[[]|err] st2]; [|discriminate].
  rewrite (bind_returns _ _ st2 tt (sleep (Seconds 1) st2).2) in Hrun
    by reflexivity.
  destruct (Text.truthy (passport_number record_data));
    unfold bind in Hrun;
    match type of Hrun with
    | context [simulate_human_typing env e ?text ?s] =>
        destruct (simulate_human_typing env e text s)
          as [[[]|err] st3] eqn:Htyped; [|discriminate]
    end;
    injection Hrun as <- <-; split; [done| |done|];
    exists e; by apply simulate_human_typing_text in Htyped.
Qed.

Lemma fill_passport_text (env : Env) record_data selectors : ∀ st st',
  fill_passport env record_data selectors st = (Ret true, st') →
  ∃ e, field_text e (trace st')
       = if Text.truthy (passport_number record_data)
         then passport_number record_data
         else default_passport.
Proof.
  induction selectors as [|selector rest IH]; intros st st' Hrun;
    [discriminate|].
  change (fill_passport env record_data (selector :: rest))
    with (try_except (passport_attempt env record_data selector)
            (fun _ => fill_passport env record_data rest)) in Hrun.
  unfold try_except in Hrun.
  destruct (passport_attempt env record_data selector st)
    as [[b|err] st1] eqn:Hattempt.
  - injection Hrun as -> <-.
    by apply passport_attempt_text in Hattempt as [_ ?].
  - by apply IH in Hrun.
Qed.

Lemma keeps_wait_bind {A B} (m : M A) (k : A → M B) :
  keeps_wait m → (∀ a, keeps_wait (k a)) → keeps_wait (bind m k).
Proof.
  intros Hm Hk st. unfold bind. specialize (Hm st).
  destruct (m st) as [[a|e] st1]; simpl in *; [|done].
  by rewrite Hk.
Qed.

Lemma keeps_wait_try_except {A} (m : M A) h :
  keeps_wait m → (∀ e, keeps_wait (h e)) → keeps_wait (try_except m h).
Proof.
  intros Hm Hh st. unfold try_except. specialize (Hm st).
  destruct (m st) as [[a|e] st1]; simpl in *; [done|].
  by rewrite Hh.
Qed.

Lemma keeps_wait_perform (env : Env) {A} (c : call A) :
  keeps_wait (perform env c).
Proof. intros st. reflexivity. Qed.

Lemma keeps_wait_sleep p : keeps_wait (sleep p).
Proof. intros st. reflexivity. Qed.

Lemma keeps_wait_ret {A} (a : A) : keeps_wait (ret a).
Proof. intros st. reflexivity. Qed.

Lemma keeps_wait_until (env : Env) c b value :
  keeps_wait (until env c b value).
Proof. intros st. unfold until. by destruct (wait st) eqn:Hwait. Qed.

Lemma keeps_wait_type_chars (env : Env) e chars :
  keeps_wait (type_chars env e chars).
Proof.
  induction chars as [|char rest IH]; [apply keeps_wait_ret|].
  change (type_chars env e (char :: rest))
    with (perform env (SendKeys e (Text (String char ""))) ;;
          sleep (Uniform 50 150) ;; type_chars env e rest).
  repeat (apply keeps_wait_bind; [|intros _]);
    auto using keeps_wait_perform, keeps_wait_sleep.
Qed.

Lemma keeps_wait_typing (env : Env) e text :
  keeps_wait (simulate_human_typing env e text).
Proof.
  unfold simulate_human_typing.
  apply keeps_wait_try_except; [|intros _];
    repeat (apply keeps_wait_bind; [|intros _]);
    auto using keeps_wait_perform, keeps_wait_type_chars.
Qed.

Lemma keeps_wait_passport_attempt (env : Env) record_data selector :
  keeps_wait (passport_attempt env record_data selector).
Proof.
  unfold passport_attempt.
  apply keeps_wait_bind; [apply keeps_wait_until|intros e].
  apply keeps_wait_bind; [apply keeps_wait_perform|intros _].
  apply keeps_wait_bind; [apply keeps_wait_sleep|intros _].
  destruct (Text.truthy (passport_number record_data));
    (apply keeps_wait_bind; [apply keeps_wait_typing|intros _]);
    apply keeps_wait_ret.
Qed.

Lemma type_chars_accepted (env : Env) e chars :
  accepts_input env e →
  ∀ st, ∃ st', type_chars env e chars st = (Ret tt, st').
Proof.
  intros Hinput. induction chars as [|char rest IH]; intros st.
  - eexists; reflexivity.
  - change (type_chars env e (char :: rest))
      with (perform env (SendKeys e (Text (String char ""))) ;;
            sleep (Uniform 50 150) ;; type_chars env e rest).
    erewrite bind_returns
      by (rewrite perform_eq, (proj2 (Hinput _)); reflexivity).
    erewrite bind_returns by reflexivity.
    apply IH.
Qed.

Lemma typing_accepted (env : Env) e text st :
  accepts_input env e →
  ∃ st', simulate_human_typing env e text st = (Ret tt, st').
Proof.
  intros Hinput. unfold simulate_human_typing.
  destruct (type_chars_accepted env e (list_ascii_of_string text) Hinput
              (log_event (Called (Clear e) (Ret tt)) st)) as [st' Htyped].
  exists st'. apply try_except_returns.
  erewrite bind_returns
    by (rewrite perform_eq, (proj1 (Hinput _)); reflexivity).
  exact Htyped.
Qed.

Lemma passport_attempt_accepted (env : Env) record_data selector st d e :
  wait st = Some d →
  env _ (trace st)
    (Until d presence_of_element_located (by_of selector) selector)
    = Ret e →
  accepts_input env e →
  ∃ st', passport_attempt env record_data selector st = (Ret true, st').
Proof.
  intros Hwait Hfound Hinput. unfold passport_attempt.
  erewrite bind_returns
    by (unfold until; rewrite Hwait, perform_eq, Hfound; reflexivity).
  erewrite bind_returns
    by (rewrite perform_eq, (proj1 (Hinput _)); reflexivity).
  erewrite bind_returns by reflexivity.
  destruct (Text.truthy (passport_number record_data));
    match goal with
    | |- context [bind (simulate_human_typing env e ?text) _ ?s] =>
        destruct (typing_accepted env e text s Hinput) as [st' Htyped]
    end;
    exists st'; by rewrite (bind_returns _ _ _ _ _ Htyped).
Qed.

Lemma fill_passport_accepted (env : Env) record_data d selector e selectors :
  In selector selectors →
  (∀ history,
     env _ history
       (Until d presence_of_element_located (by_of selector) selector)
     = Ret e) →
  accepts_input env e →
  ∀ st, wait st = Some d →
        ∃ st', fill_passport env record_data selectors st = (Ret true, st').
Proof.
  intros Hin Hfound Hinput.
  induction selectors as [|first rest IH]; intros st Hwait; [destruct Hin|].
  change (fill_passport env record_data (first :: rest))
    with (try_except (passport_attempt env record_data first)
            (fun _ => fill_passport env record_data rest)).
  unfold try_except.
  pose proof (keeps_wait_passport_attempt env record_data first st) as Hkeep.
  destruct (passport_attempt env record_data first st)
    as [[b|err] st1] eqn:Hattempt.
  - apply passport_attempt_text in Hattempt as [-> _]. eauto.
  - destruct Hin as [->|Hin].
    + destruct (passport_attempt_accepted env record_data selector st d e
                  Hwait (Hfound _) Hinput) as [st' Hok].
      congruence.
    + apply IH; [done|]. simpl in Hkeep. congruence.
Qed.

(** C10. For every record whose passport columns (Passport NO, PASSPORT
    NO, Passport Number, PASSPORT NUMBER, Passport, PASSPORT) are all
    empty or absent, the passport loop of [fill_initial_info] does not
    fail for lack of a number: whenever it reports the field as filled,
    the field holds the default "AB315033"; and it does report it as
    filled as soon as one of the passport selectors locates a field that
    takes input. *)
Theorem missing_passport_gets_default (env : Env) record_data st :
  passport_missing record_data →
  passport_number record_data = ""
  ∧ (∀ st',
       fill_passport env record_data passport_selectors st = (Ret true, st') →
       ∃ e, field_text e (trace st') = "AB315033")
  ∧ (∀ d selector e,
       wait st = Some d →
       In selector passport_selectors →
       (∀ history,
          env _ history
            (Until d presence_of_element_located (by_of selector) selector)
          = Ret e) →
       accepts_input env e →
       ∃ st', fill_passport env record_data passport_selectors st
              = (Ret true, st')).
Proof.
  intros Hmissing.
  pose proof (passport_number_missing record_data Hmissing) as Hnumber.
  split; [done|]. split.
  - intros st' Hrun. apply fill_passport_text in Hrun as [e He].
    exists e. by rewrite Hnumber in He.
  - intros d selector e Hwait Hin Hfound Hinput.
    by apply (fill_passport_accepted env record_data d selector e).
Qed.

Lemma missing_passport_gets_default_witness :
  let env := site_env passport_site in
  let record_data := GoogleSheets.data record_without_passport in
  ∃ st' e,
    fill_passport env record_data passport_selectors running_bot
    = (Ret true, st')
    ∧ field_text e (trace st') = "AB315033".
Proof.
  intros env record_data.
  assert (Hmissing : passport_missing record_data).
  { intros column Hin. simpl in Hin.
    destruct Hin as [<-|[<-|[<-|[<-|[<-|[<-|[]]]]]]];
      vm_compute; auto. }
  destruct (missing_passport_gets_default env record_data running_bot
              Hmissing) as (_ & Htext & Hfilled).
  destruct (Hfilled 0 "//input[@placeholder='Passport Number']" 3)
    as [st' Hrun].
  - reflexivity.
  - simpl. auto.
  - intros history. reflexivity.
  - intros history. split; [reflexivity|intros k; reflexivity].
  - destruct (Htext st' Hrun) as [e He]. by exists st', e.
Defined.

(** *** A run over an unreadable spreadsheet *)

(** A read failure does not abort the run: it ends normally, having
    processed nothing and written nothing. *)
Example run_survives_unreadable_sheet :
  let env := site_env blank_site in
  let outcome :=
    run_automation env (nusuk_steps env base_url)
      (initial_world Samples.unreachable_sheet) in
  outcome.1 = Ret tt
  ∧ invoked outcome.2 = []
  ∧ sheet outcome.2 = Samples.unreachable_sheet.
Proof. intros env outcome. repeat split; vm_compute; reflexivity. Qed.

(** *** Cleanup at the end of the run *)

(** C8 does not hold of the code. On a host without a Firefox driver,
    [setup_driver] starts the undetected Chrome and then, because
    [_setup_undetected_driver] returns [None], the standard Chrome as
    well: two profile directories are made and two sessions opened, and
    the bot remembers the second of each. When the run is over the first
    directory (0) still exists and the first session (0) is still
    open. *)
Theorem first_profile_and_session_outlive_the_run :
  let env := site_env blank_site_without_firefox in
  let outcome :=
    run_automation env (nusuk_steps env base_url)
      (initial_world Samples.sheet_row5) in
  outcome.1 = Ret tt
  ∧ dirs_made outcome.2 = 2
  ∧ launched outcome.2 = 2
  ∧ temp_dir (bot outcome.2) = Some 1
  ∧ driver (bot outcome.2) = Some 1
  ∧ elements (dirs outcome.2) = [0]
  ∧ elements (live outcome.2) = [0].
Proof. intros env outcome. repeat split; vm_compute; reflexivity. Qed.

(** With a Firefox driver no profile directory is made, and the one
    session is closed at the end. *)
Example run_with_firefox_cleans_up :
  let env := site_env blank_site in
  let outcome :=
    run_automation env (nusuk_steps env base_url)
      (initial_world Samples.sheet_row5) in
  outcome.1 = Ret tt
  ∧ elements (dirs outcome.2) = []
  ∧ elements (live outcome.2) = [].
Proof. intros env outcome. repeat split; vm_compute; reflexivity. Qed.

End BotFacts.

(** * Further properties of the code *)

(** ** The spreadsheet service: what [get_pending_records] returns *)

Module SheetsMore.
Import GoogleSheets.

Lemma is_pending_lower status :
  is_pending status = true ↔ Text.lower status = "pending".
Proof.
  unfold is_pending, Text.truthy. simpl. rewrite orb_false_r, orb_diag.
  split.
  - intros H. apply andb_prop in H as [_ H]. by apply String.eqb_eq in H.
  - intros H. rewrite H. rewrite andb_true_r.
    destruct status; [discriminate H|reflexivity].
Qed.

(** The records of the loop are those of the rows whose status cell is
    pending, numbered from [start]. *)
Lemma pending_rows_spec headers idx rows : ∀ start r,
  In r (pending_rows headers idx rows start)
  ↔ ∃ i row status,
      rows !! i = Some row ∧ row !! idx = Some status
      ∧ is_pending status = true
      ∧ r = {| row_number := start + Z.of_nat i;
               data := record_data headers row 0 ∅ |}.
Proof.
  induction rows as [|row rest IH]; intros start r.
  - simpl. split; [intros []|intros (i & ? & ? & Hi & _); by destruct i].
  - assert (Hhead :
      In r (pending_rows headers idx (row :: rest) start)
      ↔ (∃ status, row !! idx = Some status ∧ is_pending status = true
                   ∧ r = {| row_number := start;
                            data := record_data headers row 0 ∅ |})
        ∨ In r (pending_rows headers idx rest (start + 1))).
    { simpl. destruct (idx <? length row) eqn:Hlen.
      - destruct (row !! idx) as [status|] eqn:Hst.
        + destruct (is_pending status) eqn:Hp; simpl.
          * split; [intros [<-|?]; eauto|].
            intros [(st & [= <-] & _ & ->)|?]; auto.
          * split; [auto|]. intros [(st & [= <-] & ? & _)|?]; [congruence|done].
        + split; [auto|]. intros [(st & ? & _)|?]; [congruence|done].
      - apply Nat.ltb_ge in Hlen. split; [auto|].
        intros [(st & Hst & _)|?]; [|done].
        apply lookup_lt_Some in Hst. lia. }
    rewrite Hhead, IH. split.
    + intros [(status & Hst & Hp & ->)|(i & row' & status & Hi & Hst & Hp & ->)].
      * exists 0, row, status. rewrite Z.add_0_r. auto.
      * exists (S i), row', status. repeat split; auto. f_equal. lia.
    + intros (i & row' & status & Hi & Hst & Hp & ->). destruct i as [|i].
      * injection Hi as <-. left. exists status. rewrite Z.add_0_r. auto.
      * right. exists i, row', status. repeat split; auto. f_equal. lia.
Qed.

Lemma pending_rows_increasing headers idx rows : ∀ start i j r1 r2,
  pending_rows headers idx rows start !! i = Some r1 →
  pending_rows headers idx rows start !! j = Some r2 →
  i < j →
  (start ≤ row_number r1 < row_number r2)%Z.
Proof.
  induction rows as [|row rest IH]; intros start i j r1 r2 H1 H2 Hij;
    [discriminate H1|].
  assert (Hlow : ∀ k r, pending_rows headers idx rest (start + 1) !! k = Some r →
                        (start + 1 ≤ row_number r)%Z).
  { intros k r Hk. apply list_elem_of_lookup_2, list_elem_of_In in Hk.
    apply pending_rows_spec in Hk as (n & ? & ? & _ & _ & _ & ->). simpl. lia. }
  assert (Htail : ∀ i j r1 r2,
            pending_rows headers idx rest (start + 1) !! i = Some r1 →
            pending_rows headers idx rest (start + 1) !! j = Some r2 →
            i < j → (start ≤ row_number r1 < row_number r2)%Z).
  { intros i' j' r1' r2' H1' H2' Hlt.
    specialize (IH _ _ _ _ _ H1' H2' Hlt). lia. }
  simpl in H1, H2.
  destruct (idx <? length row); [|eauto].
  destruct (row !! idx) as [status|]; [|eauto].
  destruct (is_pending status); [|eauto].
  destruct i as [|i], j as [|j]; try lia.
  - injection H1 as <-. simpl in *. apply Hlow in H2. lia.
  - simpl in H1, H2. apply (Htail i j); [done|done|lia].
Qed.

(** X1. The records [get_pending_records] returns are in sheet order:
    their row numbers are at least 2 and strictly increasing, hence
    pairwise different. *)
Theorem pending_records_in_sheet_order s pending_records i j r1 r2 :
  get_pending_records s = Ret pending_records →
  pending_records !! i = Some r1 →
  pending_records !! j = Some r2 →
  i < j →
  (2 ≤ row_number r1 < row_number r2)%Z.
Proof.
  unfold get_pending_records, get_pending_records_body.
  destruct (values_get s) as [[[|headers rows]|]|e]; simpl;
    try (intros [= <-]; discriminate).
  destruct (find_status_column headers 0) as [idx|];
    [|intros [= <-]; discriminate].
  intros [= <-]. apply pending_rows_increasing.
Qed.

Lemma pending_records_in_sheet_order_witness :
  ∃ pending_records r1 r2,
    get_pending_records MoreSamples.sheet_two_pending = Ret pending_records
    ∧ pending_records !! 0 = Some r1 ∧ pending_records !! 1 = Some r2
    ∧ (2 ≤ row_number r1 < row_number r2)%Z.
Proof.
  eexists _, _, _. split; [reflexivity|]. split; [reflexivity|].
  split; [reflexivity|].
  eapply (pending_records_in_sheet_order MoreSamples.sheet_two_pending _ 0 1);
    [reflexivity..|lia].
Defined.

(** X2. Under a header row with a status column, a data row is returned
    exactly when its cell in that column reads "pending" in any letter
    case; the record carries the row's sheet number (data row [i] is
    sheet row [i+2]) and its dictionary. A row that ends before the status
    column is skipped. *)
Theorem pending_records_are_the_pending_rows s headers rows idx :
  values_get s = Ret (Some (headers :: rows)) →
  find_status_column headers 0 = Some idx →
  ∃ pending_records,
    get_pending_records s = Ret pending_records
    ∧ ∀ r,
        In r pending_records
        ↔ ∃ i row status,
            rows !! i = Some row ∧ row !! idx = Some status
            ∧ Text.lower status = "pending"
            ∧ r = {| row_number := 2 + Z.of_nat i;
                     data := record_data headers row 0 ∅ |}.
Proof.
  intros Hget Hidx. exists (pending_rows headers idx rows 2). split.
  - unfold get_pending_records, get_pending_records_body.
    rewrite Hget. simpl. by rewrite Hidx.
  - intros r. rewrite pending_rows_spec.
    split; intros (i & row & status & Hi & Hst & Hp & ->);
      exists i, row, status; repeat split; auto; by apply is_pending_lower.
Qed.

Lemma pending_records_are_the_pending_rows_witness :
  ∃ pending_records,
    get_pending_records Samples.sheet_row5 = Ret pending_records
    ∧ In {| row_number := 5;
            data := record_data
                      ["VISA NO"; "NATIONALITY"; "Passport NO"; "STATUS"]
                      ["V123"; "India"; "P1"; "Pending"] 0 ∅ |}
         pending_records.
Proof.
  destruct (pending_records_are_the_pending_rows Samples.sheet_row5
              ["VISA NO"; "NATIONALITY"; "Passport NO"; "STATUS"]
              [ ["V120"; "Egypt"; "P0"; "done"];
                ["V121"; "Egypt"; "P0"; "done"];
                ["V122"; "Egypt"; "P0"; "done"];
                ["V123"; "India"; "P1"; "Pending"] ] 3)
    as (pending_records & Hrun & Hspec); [reflexivity..|].
  exists pending_records. split; [exact Hrun|].
  apply Hspec. exists 3, ["V123"; "India"; "P1"; "Pending"], "Pending".
  repeat split; reflexivity.
Defined.

Lemma record_data_lookup headers row : ∀ k acc key v,
  record_data headers row k acc !! key = Some v
  ↔ (∃ i, row !! i = Some v ∧ SheetsTerms.column_key headers (k + i) = key
          ∧ ∀ j, i < j < length row →
                 SheetsTerms.column_key headers (k + j) ≠ key)
    ∨ (acc !! key = Some v
       ∧ ∀ j, j < length row → SheetsTerms.column_key headers (k + j) ≠ key).
Proof.
  induction row as [|value rest IH]; intros k acc key v.
  - simpl. split.
    + intros H. right. split; [done|]. intros j Hj. lia.
    + intros [(i & Hi & _)|[H _]]; [by destruct i|done].
  - change (record_data headers (value :: rest) k acc)
      with (record_data headers rest (S k)
              (<[SheetsTerms.column_key headers k := value]> acc)).
    rewrite IH. clear IH. split.
    + intros [(i & Hi & Hkey & Hlater)|[Hacc Hlater]].
      * left. exists (S i). split; [done|].
        split; [by rewrite Nat.add_succ_r|].
        intros j Hj. destruct j as [|j]; [lia|].
        rewrite Nat.add_succ_r. apply Hlater. simpl in Hj. lia.
      * destruct (decide (SheetsTerms.column_key headers k = key)) as [Heq|Hne].
        -- subst key. rewrite lookup_insert_eq in Hacc. injection Hacc as ->.
           left. exists 0. split; [done|]. split; [by rewrite Nat.add_0_r|].
           intros j Hj. destruct j as [|j]; [lia|].
           rewrite Nat.add_succ_r. apply Hlater. simpl in Hj. lia.
        -- rewrite lookup_insert_ne in Hacc by done.
           right. split; [done|]. intros j Hj. destruct j as [|j].
           ++ by rewrite Nat.add_0_r.
           ++ rewrite Nat.add_succ_r. apply Hlater. simpl in Hj. lia.
    + intros [(i & Hi & Hkey & Hlater)|[Hacc Hlater]].
      * destruct i as [|i].
        -- injection Hi as ->. rewrite Nat.add_0_r in Hkey. subst key.
           right. split; [by rewrite lookup_insert_eq|].
           intros j Hj. specialize (Hlater (S j)).
           rewrite Nat.add_succ_r in Hlater. apply Hlater. simpl. lia.
        -- left. exists i. split; [done|].
           split; [by rewrite Nat.add_succ_r in Hkey|].
           intros j Hj. specialize (Hlater (S j)).
           rewrite Nat.add_succ_r in Hlater. apply Hlater. simpl. lia.
      * right. split.
        -- rewrite lookup_insert_ne; [done|].
           specialize (Hlater 0). rewrite Nat.add_0_r in Hlater.
           apply Hlater. simpl. lia.
        -- intros j Hj. specialize (Hlater (S j)).
           rewrite Nat.add_succ_r in Hlater. apply Hlater. simpl. lia.
Qed.

(** X3. The dictionary of a record holds, under a key, the LAST cell of
    the row filed under that key: a cell is filed under its header, or
    under [Column_<i+1>] past the last header, and a later cell with the
    same key overwrites an earlier one. Nothing else is in the
    dictionary. *)
Theorem record_data_holds_last_cell_of_each_key headers row key v :
  record_data headers row 0 ∅ !! key = Some v
  ↔ ∃ i, row !! i = Some v ∧ SheetsTerms.column_key headers i = key
         ∧ ∀ j, i < j < length row → SheetsTerms.column_key headers j ≠ key.
Proof.
  rewrite record_data_lookup. simpl. split.
  - intros [H|[H _]]; [done|by rewrite lookup_empty in H].
  - intros H. by left.
Qed.

Lemma find_status_column_first headers : ∀ k idx,
  find_status_column headers k = Some idx
  ↔ ∃ i header,
      idx = k + i ∧ headers !! i = Some header
      ∧ is_status_header header = true
      ∧ ∀ j h, j < i → headers !! j = Some h → is_status_header h = false.
Proof.
  induction headers as [|header rest IH]; intros k idx.
  - simpl. split; [done|]. by intros (i & h & _ & Hi & _).
  - simpl. destruct (is_status_header header) eqn:Hh.
    + split.
      * intros [= <-]. exists 0, header. rewrite Nat.add_0_r.
        repeat split; auto. intros j h Hj. lia.
      * intros (i & h & -> & Hi & Hst & Hfirst). destruct i as [|i].
        -- by rewrite Nat.add_0_r.
        -- specialize (Hfirst 0 header). rewrite Hfirst in Hh; [done|lia|done].
    + rewrite IH. split.
      * intros (i & h & -> & Hi & Hst & Hfirst). exists (S i), h.
        split; [lia|]. repeat split; auto.
        intros j h' Hj Hl. destruct j as [|j].
        -- by injection Hl as <-.
        -- apply (Hfirst j); [lia|done].
      * intros (i & h & -> & Hi & Hst & Hfirst). destruct i as [|i].
        -- injection Hi as ->. congruence.
        -- exists i, h. split; [lia|]. repeat split; auto.
           intros j h' Hj Hl. apply (Hfirst (S j)); [lia|done].
Qed.

(** X4. The status column is the FIRST header that is non-empty and
    contains "status" in any letter case: the search yields [idx] exactly
    when header [idx] is such a header and no earlier one is. *)
Theorem status_column_is_first_status_header headers idx :
  find_status_column headers 0 = Some idx
  ↔ (∃ header, headers !! idx = Some header
               ∧ is_status_header header = true)
    ∧ ∀ j h, j < idx → headers !! j = Some h → is_status_header h = false.
Proof.
  rewrite find_status_column_first. split.
  - intros (i & header & -> & Hi & Hst & Hfirst). eauto.
  - intros [(header & Hi & Hst) Hfirst]. exists idx, header. auto.
Qed.

Lemma write_cell_commute c1 c2 r1 r2 v1 v2 s :
  c1 ≠ c2 →
  (write_cell c2 r2 v2 (write_cell c1 r1 v1 s).2).2
  = (write_cell c1 r1 v1 (write_cell c2 r2 v2 s).2).2.
Proof.
  intros Hne. unfold write_cell, values_update.
  destruct (accepts_updates s) eqn:Hacc; simpl;
    destruct (1 <=? r1)%Z eqn:H1, (1 <=? r2)%Z eqn:H2; simpl;
    rewrite ?Hacc, ?H1, ?H2; simpl; try reflexivity.
  f_equal. apply insert_insert_ne. congruence.
Qed.

(** X5. The three writers work on different columns (H, M, N), so they
    commute: the sheet after a status write, an e-mail write and an error
    write does not depend on the order of the calls, whatever the rows
    and values and whether or not the sheet accepts updates. *)
Theorem writers_commute r1 r2 r3 status email message s :
  (update_email_used r2 email (update_record_status r1 status s).2).2
  = (update_record_status r1 status (update_email_used r2 email s).2).2
  ∧ (log_error r3 message (update_record_status r1 status s).2).2
    = (update_record_status r1 status (log_error r3 message s).2).2
  ∧ (log_error r3 message (update_email_used r2 email s).2).2
    = (update_email_used r2 email (log_error r3 message s).2).2.
Proof.
  unfold update_record_status, update_email_used, log_error.
  repeat split; by apply write_cell_commute.
Qed.

End SheetsMore.

(** ** OTP extraction: when a code is found, and which *)

Module OtpMore.
Import Re ReFacts Otp OtpFacts.

Lemma is_code_passes m :
  is_code m = true →
  (4 <=? String.length m) && (String.length m <=? 6) && Text.isdigit m = true.
Proof.
  unfold is_code, all_decimal, Text.isdigit. intros H.
  apply andb_prop in H as [Hlen Hall]. rewrite Hlen. simpl.
  apply andb_prop in Hlen as [H4 _]. apply Nat.leb_le in H4.
  apply andb_true_intro. split.
  - destruct m; [simpl in H4; lia|reflexivity].
  - rewrite forallb_forall in *. intros x Hx. specialize (Hall x Hx).
    unfold Text.is_digit_char. unfold Text.is_decimal in Hall.
    by rewrite Hall.
Qed.

Lemma digit_run_at_lookup t i n k :
  digit_run_at t i n = true → k < n →
  ∃ x, t !! (i + k) = Some x ∧ Text.is_decimal x = true.
Proof.
  unfold digit_run_at. intros H Hk. apply andb_prop in H as [Hlen Hall].
  apply Nat.leb_le in Hlen.
  destruct (lookup_lt_is_Some_2 t (i + k)) as [x Hx]; [lia|].
  exists x. split; [done|].
  rewrite forallb_forall in Hall. apply Hall.
  apply list_elem_of_In. apply (list_elem_of_lookup_2 _ k).
  rewrite lookup_take_lt by done. by rewrite lookup_drop.
Qed.

(** The greedy loop over [\d] finds a match wherever enough digits
    follow. *)
Lemma repeat_digit_complete ic t lo h : ∀ n fuel count pos cap,
  lo ≤ count + n → count + n ≤ h → n ≤ fuel →
  (∀ k, k < n → ∃ x, t !! (pos + k) = Some x ∧ Text.is_decimal x = true) →
  repeat_loop (run ic t Digit) lo (Some h) fuel count pos cap ≠ [].
Proof.
  induction n as [|n IH]; intros fuel count pos cap Hlo Hhi Hfuel Hd.
  - assert (Hstop : (lo <=? count) = true) by (apply Nat.leb_le; lia).
    destruct fuel as [|fuel]; simpl; rewrite Hstop; [done|].
    intros Happ. by apply app_eq_nil in Happ as [_ ?].
  - destruct fuel as [|fuel]; [lia|]. simpl.
    assert (Hlt : (count <? h) = true) by (apply Nat.ltb_lt; lia).
    rewrite Hlt. destruct (Hd 0) as (x & Hx & Hdec); [lia|].
    rewrite Nat.add_0_r in Hx. unfold one. rewrite Hx, Hdec. simpl.
    assert (Hne : (S pos =? pos) = false) by (apply Nat.eqb_neq; lia).
    simpl in Hne. rewrite Hne, app_nil_r.
    intros Happ. apply app_eq_nil in Happ as [Hnil _].
    revert Hnil. apply (IH fuel (S count) (S pos) cap); [lia..|].
    intros k Hk. destruct (Hd (S k)) as (y & Hy & Hdy); [lia|].
    exists y. split; [|done]. by rewrite Nat.add_succ_r in Hy.
Qed.

Lemma bare_digits_complete t i n :
  4 ≤ n → digit_run_at t i n = true →
  run true t Patterns.bare_digits i None ≠ [].
Proof.
  intros Hn Hrun. unfold Patterns.bare_digits, Patterns.digits_4_6.
  change (run true t (Group (Repeat 4 (Some 6) Digit)) i None)
    with (map (fun '(p, _) => (p, Some (i, p)))
              (repeat_loop (run true t Digit) 4 (Some 6) (S (length t)) 0 i
                           None)).
  intros Hmap. apply map_eq_nil in Hmap. revert Hmap.
  apply (repeat_digit_complete true t 4 6 4); [lia..| |].
  - unfold digit_run_at in Hrun. apply andb_prop in Hrun as [Hlen _].
    apply Nat.leb_le in Hlen. lia.
  - intros k Hk. apply (digit_run_at_lookup t i n k); [done|lia].
Qed.

(** The scan reports something as soon as the pattern matches at some
    position it still has to visit. *)
Lemma scan_complete ic t r p : ∀ fuel pos,
  run ic t r p None ≠ [] → pos ≤ p ≤ length t → p - pos < fuel →
  scan ic t r fuel pos ≠ [].
Proof.
  induction fuel as [|fuel IH]; intros pos Hrun Hp Hfuel; [lia|]. simpl.
  assert (Hlen : (length t <? pos) = false) by (apply Nat.ltb_ge; lia).
  rewrite Hlen. destruct (run ic t r pos None) as [|[e c] rest] eqn:Hpos;
    [|done].
  assert (pos ≠ p) by (intros ->; done).
  apply IH; [done|lia|lia].
Qed.

Lemma findall_bare_digits s :
  has_digit_run s = true →
  findall_ignorecase Patterns.bare_digits s ≠ [].
Proof.
  unfold has_digit_run, findall_ignorecase. intros H.
  apply existsb_exists in H as (i & Hi & H). apply in_seq in Hi.
  apply existsb_exists in H as (n & Hn & Hrun).
  apply (scan_complete true _ _ i); [|lia|lia].
  apply (bare_digits_complete _ i n); [|done].
  simpl in Hn. lia.
Qed.

(** The length and digit check of the second service never rejects what
    the patterns find. *)
Lemma extract_with_search ps s :
  (∀ r, In r ps → In r Patterns.otp_patterns) →
  TempEmailV2.extract_with ps s = TempEmail.search ps s.
Proof.
  induction ps as [|r ps IH]; intros Hps; [done|].
  cbn [TempEmailV2.extract_with TempEmail.search].
  rewrite IH by (intros; apply Hps; by right).
  destruct (findall_ignorecase r s) as [|m ms] eqn:Hf; [done|].
  destruct (findall_otp_pattern r s m) as [Hcode _];
    [apply Hps; by left|rewrite Hf; by left|].
  by rewrite (is_code_passes m Hcode).
Qed.

Lemma search_complete ps r s :
  In r ps → findall_ignorecase r s ≠ [] → is_Some (TempEmail.search ps s).
Proof.
  induction ps as [|r' ps IH]; intros Hin Hf; [destruct Hin|]. simpl.
  destruct (findall_ignorecase r' s) as [|m ms] eqn:Hr'; [|eauto].
  destruct Hin as [->|Hin]; [done|auto].
Qed.

Lemma search_finds_run s :
  has_digit_run s = true → is_Some (TempEmail.search Patterns.otp_patterns s).
Proof.
  intros H. apply (search_complete _ Patterns.bare_digits).
  - unfold Patterns.otp_patterns. simpl. auto 10.
  - by apply findall_bare_digits.
Qed.

(** X6. [_extract_otp_from_text] finds a code exactly when the text has
    four decimal digits in a row somewhere: no text with such a run is
    answered with [None], whatever surrounds the digits. *)
Theorem otp_found_iff_digit_run text :
  is_Some (TempEmailV2._extract_otp_from_text text)
  ↔ has_digit_run text = true.
Proof.
  unfold TempEmailV2._extract_otp_from_text. split.
  - intros [otp Hotp]. destruct (has_digit_run text) eqn:Hrun; [done|].
    rewrite extract_with_no_run in Hotp; done.
  - intros Hrun. rewrite extract_with_search by done.
    by apply search_finds_run.
Qed.

(** X7. The two services extract the same code: the unchecked search of
    [extract_otp_from_email] over one text and the checked one of
    [_extract_otp_from_text] agree on every text, because every match of
    the five patterns passes the length and digit check. *)
Theorem both_services_extract_the_same_code text :
  TempEmail.search Patterns.otp_patterns text
  = TempEmailV2._extract_otp_from_text text.
Proof.
  symmetry. by apply extract_with_search.
Qed.

Lemma string_of_list_ascii_app l1 l2 :
  string_of_list_ascii (l1 ++ l2)%list
  = string_of_list_ascii l1 ++ string_of_list_ascii l2.
Proof.
  induction l1 as [|a l1 IH]; [done|].
  change (String a (string_of_list_ascii (l1 ++ l2)%list)
          = String a (string_of_list_ascii l1 ++ string_of_list_ascii l2)).
  by rewrite IH.
Qed.

(** A span of the text splits the text around it. *)
Lemma slice_occurs s i j :
  i ≤ j → j ≤ length (list_ascii_of_string s) →
  ∃ before after,
    s = before ++ slice (list_ascii_of_string s) i j ++ after.
Proof.
  intros Hij Hj. set (t := list_ascii_of_string s).
  exists (string_of_list_ascii (take i t)),
         (string_of_list_ascii (drop j t)).
  unfold slice. rewrite <- !string_of_list_ascii_app.
  rewrite <- (string_of_list_ascii_of_string s) at 1. fold t. f_equal.
  rewrite <- (take_drop i t) at 1. f_equal.
  rewrite <- (take_drop (j - i) (drop i t)) at 1. f_equal.
  rewrite drop_drop. f_equal. lia.
Qed.

Lemma extract_with_found ps s otp :
  TempEmailV2.extract_with ps s = Some otp →
  ∃ r, In r ps ∧ In otp (findall_ignorecase r s).
Proof.
  induction ps as [|r ps IH]; [done|].
  cbn [TempEmailV2.extract_with].
  destruct (findall_ignorecase r s) as [|m ms] eqn:Hf.
  - intros H. destruct (IH H) as (r' & ? & ?). exists r'. split; [by right|done].
  - destruct (_ && Text.isdigit m).
    + intros [= <-]. exists r. split; [by left|]. rewrite Hf. by left.
    + intros H. destruct (IH H) as (r' & ? & ?).
      exists r'. split; [by right|done].
Qed.

(** X8. A code returned by [_extract_otp_from_text] is copied from the
    text: it occurs in the text as a contiguous piece. The method never
    builds a code from digits that are apart. *)
Theorem extracted_code_occurs_in_text text otp :
  TempEmailV2._extract_otp_from_text text = Some otp →
  ∃ before after, text = before ++ otp ++ after.
Proof.
  intros H. apply extract_with_found in H as (r & Hr & Hm).
  unfold findall_ignorecase in Hm.
  apply scan_inv in Hm as (p & e & c & Hrun & ->).
  apply otp_pattern_report in Hrun as (i & j & -> & Hlen & Hd); [|done].
  apply slice_occurs; [lia|].
  apply (digits_between_bound _ i j); [lia|done].
Qed.

Lemma extracted_code_occurs_in_text_witness :
  ∃ before after, "Your code is 482913" = before ++ "482913" ++ after.
Proof.
  apply (extracted_code_occurs_in_text "Your code is 482913" "482913").
  reflexivity.
Defined.

(** X9. [extract_otp_from_email] prefers the body: when the body has
    four digits in a row the result is the body's code, whatever the
    subject says; the subject is searched only when the body has no such
    run. A code is found exactly when one of the two has a run. *)
Theorem body_is_searched_before_subject content :
  TempEmail.extract_otp_from_email content
  = (if has_digit_run (TempEmail.body content)
     then TempEmail.search Patterns.otp_patterns (TempEmail.body content)
     else TempEmail.search Patterns.otp_patterns (TempEmail.subject content))
  ∧ (is_Some (TempEmail.extract_otp_from_email content)
     ↔ has_digit_run (TempEmail.body content)
       || has_digit_run (TempEmail.subject content) = true).
Proof.
  unfold TempEmail.extract_otp_from_email.
  destruct (has_digit_run (TempEmail.body content)) eqn:Hbody.
  - destruct (search_finds_run _ Hbody) as [otp Hotp]. rewrite Hotp.
    split; [done|]. split; [done|eauto].
  - rewrite (search_no_run _ _ (fun r H => H) Hbody). split; [done|].
    rewrite orb_false_l. split.
    + intros [otp Hotp].
      destruct (has_digit_run (TempEmail.subject content)) eqn:Hs; [done|].
      by rewrite (search_no_run _ _ (fun r H => H) Hs) in Hotp.
    + apply search_finds_run.
Qed.

End OtpMore.

(** ** The second e-mail service: getting an address *)

Module MailServiceFacts.
Import Eff TempEmailServiceV2 MailTerms.

Lemma prefix_append s : ∀ t, String.prefix s (s ++ t) = true.
Proof.
  induction s as [|c s IH]; intros t; [by destruct t|].
  change (String c s ++ t) with (String c (s ++ t)). simpl.
  destruct (ascii_dec c c); [apply IH|done].
Qed.

Lemma contains_append before sub after :
  Text.contains sub (before ++ sub ++ after) = true.
Proof.
  induction before as [|c before IH].
  - change ("" ++ sub ++ after) with (sub ++ after).
    pose proof (prefix_append sub after) as Hp.
    destruct (sub ++ after); unfold Text.contains; by rewrite Hp.
  - change (String c before ++ sub ++ after)
      with (String c (before ++ sub ++ after)).
    simpl. rewrite IH. apply orb_true_r.
Qed.

Lemma contains_truthy sub s :
  Text.truthy sub = true → Text.contains sub s = true → Text.truthy s = true.
Proof. destruct sub; [done|]. by destruct s. Qed.

Ltac no_address := eexists None, _; split; [reflexivity|exact I].

Lemma _try_10minutemail_serves web :
  serves ["10MinuteMail"] (_try_10minutemail web).
Proof.
  intros st. unfold _try_10minutemail, try_except, bind, send, modify, ret.
  destruct (ten_minute_mail web) as [[code text]|e]; simpl; [|no_address].
  destruct (code =? 200); [|no_address].
  destruct (Text.contains "@" (strip text)) eqn:Hat; [|no_address].
  eexists _, _. split; [reflexivity|]. simpl. eauto 10.
Qed.

Lemma _try_tempmail_serves web : serves ["TempMail"] (_try_tempmail web).
Proof.
  intros st. unfold _try_tempmail, try_except, bind, send, modify, ret.
  destruct (tempmail web) as [[code [email|]]|e]; simpl; [| |no_address];
    (destruct (code =? 200); [|no_address]); [|no_address].
  destruct (Text.truthy email); simpl; [|no_address].
  destruct (Text.contains "@" email) eqn:Hat; [|no_address].
  eexists _, _. split; [reflexivity|]. simpl. eauto 10.
Qed.

Lemma _generate_fake_email_serves web st :
  ∃ address st',
    _generate_fake_email web st = (Ret (Some address), st')
    ∧ Text.contains "@" address = true
    ∧ email_address st' = Some address
    ∧ service_used st' = Some "FakeEmail".
Proof.
  eexists _, _. split; [reflexivity|]. split; [|done].
  apply (contains_append _ "@" "tempmail.org").
Qed.

#[local] Opaque random_string.

(** [_try_mailtm] does not raise. An address it returns contains "@",
    is stored with the service name, comes with a non-empty token, and
    cost exactly the three requests for that address. *)
Lemma _try_mailtm_outcome web st :
  ∃ r st',
    _try_mailtm web st = (Ret r, st')
    ∧ match r with
      | Some address =>
          Text.contains "@" address = true
          ∧ email_address st' = Some address
          ∧ service_used st' = Some "Mail.tm"
          ∧ truthy_opt (auth_token st') = true
          ∧ contacted st'
            = (contacted st
               ++ [GetDomains; PostAccounts address; PostToken address])%list
      | None => True
      end.
Proof.
  unfold _try_mailtm, try_except, bind, send, modify, ret, raise, gets.
  destruct (domains web) as [[code members]|e]; simpl; [|no_address].
  destruct (code =? 200); simpl; [|no_address].
  destruct members as [|[domain|] others]; simpl; [no_address| |no_address].
  destruct (accounts web _) as [[code_a id]|e]; simpl; [|no_address].
  destruct (code_a =? 201); simpl; [|no_address].
  destruct (token web _) as [[code_t tok]|e]; simpl; [|no_address].
  destruct (code_t =? 200); simpl; [|no_address].
  destruct (truthy_opt tok) eqn:Htok; simpl; [|no_address].
  eexists _, _. split; [reflexivity|]. simpl.
  split; [apply contains_append|]. repeat split; [done|].
  by rewrite <- !app_assoc.
Qed.

Lemma try_services_unfold f rest st r st' :
  f st = (Ret r, st') →
  try_services (f :: rest) st
  = match r with
    | Some address =>
        if Text.truthy address && Text.contains "@" address
        then (Ret address, st')
        else try_services rest st'
    | None => try_services rest st'
    end.
Proof.
  intros Hrun. cbn [try_services]. unfold bind, try_except. rewrite Hrun.
  destruct r as [address|]; [|done].
  by destruct (Text.truthy address && Text.contains "@" address).
Qed.

(** One round of the fallback loop: the service's address is returned,
    or the loop goes on with the rest. *)
Lemma try_services_step names f rest st :
  serves names f →
  (∃ address st',
     try_services (f :: rest) st = (Ret address, st')
     ∧ Text.contains "@" address = true
     ∧ email_address st' = Some address
     ∧ ∃ name, service_used st' = Some name ∧ In name names)
  ∨ (∃ st', try_services (f :: rest) st = try_services rest st').
Proof.
  intros Hf. destruct (Hf st) as (r & st' & Hrun & Hr).
  pose proof (try_services_unfold f rest st r st' Hrun) as Hstep.
  destruct r as [address|]; [|right; by exists st'].
  destruct Hr as (Hat & Hstored & Hname).
  rewrite Hat, (contains_truthy "@" address) in Hstep by done.
  left. exists address, st'. auto.
Qed.

Lemma fallback_outcome web st :
  ∃ address st',
    try_services
      [_try_10minutemail web; _try_tempmail web; _generate_fake_email web] st
    = (Ret address, st')
    ∧ Text.contains "@" address = true
    ∧ email_address st' = Some address
    ∧ ∃ name, service_used st' = Some name
              ∧ In name ["10MinuteMail"; "TempMail"; "FakeEmail"].
Proof.
  destruct (try_services_step _ _ [_try_tempmail web;
              _generate_fake_email web] st (_try_10minutemail_serves web))
    as [(a & st1 & -> & ? & ? & name & ? & Hin)|[st1 ->]].
  { exists a, st1. repeat split; try done. exists name. split; [done|].
    destruct Hin as [<-|[]]. by left. }
  destruct (try_services_step _ _ [_generate_fake_email web] st1
              (_try_tempmail_serves web))
    as [(a & st2 & -> & ? & ? & name & ? & Hin)|[st2 ->]].
  { exists a, st2. repeat split; try done. exists name. split; [done|].
    destruct Hin as [<-|[]]. right. by left. }
  destruct (_generate_fake_email_serves web st2)
    as (a & st3 & Hrun & Hat & ? & ?).
  pose proof (try_services_unfold _ [] st2 (Some a) st3 Hrun) as Hstep.
  cbv iota beta in Hstep.
  rewrite Hat, (contains_truthy "@" a) in Hstep by done.
  exists a, st3. repeat split; try done. exists "FakeEmail". split; [done|].
  right. right. by left.
Qed.

(** The outcome of [generate_email]: an address from Mail.tm with its
    token, or one of a fallback service. *)
Lemma generate_email_outcome web st :
  ∃ address st',
    generate_email web st = (Ret address, st')
    ∧ Text.contains "@" address = true
    ∧ email_address st' = Some address
    ∧ ((service_used st' = Some "Mail.tm"
        ∧ truthy_opt (auth_token st') = true
        ∧ contacted st'
          = (contacted st
             ++ [GetDomains; PostAccounts address; PostToken address])%list)
       ∨ ∃ name, service_used st' = Some name
                 ∧ In name ["10MinuteMail"; "TempMail"; "FakeEmail"]).
Proof.
  unfold generate_email.
  destruct (_try_mailtm_outcome web st) as (r & st1 & Hrun & Hr).
  unfold try_except, bind. rewrite Hrun. cbv zeta.
  destruct r as [address|].
  - destruct Hr as (Hat & ? & ? & ? & ?).
    rewrite (contains_truthy "@" address) by done.
    exists address, st1. repeat split; try done. by left.
  - destruct (fallback_outcome web st1) as (a & st2 & -> & ? & ? & ?).
    exists a, st2. repeat split; try done. by right.
Qed.

(** X10. [generate_email] always returns an address: whatever the three
    services answer, and whatever the object held before, it does not
    raise (the final [ValueError] is out of reach, the made-up address
    being always available), the address contains "@", and it is stored
    in [email_address] together with the name of the service it came
    from. *)
Theorem generate_email_always_returns_an_address web st :
  ∃ address st',
    generate_email web st = (Ret address, st')
    ∧ Text.contains "@" address = true
    ∧ email_address st' = Some address
    ∧ ∃ name, service_used st' = Some name
              ∧ In name ["Mail.tm"; "10MinuteMail"; "TempMail"; "FakeEmail"].
Proof.
  destruct (generate_email_outcome web st)
    as (address & st' & Hrun & Hat & Hstored & Hname).
  exists address, st'. repeat split; try done.
  destruct Hname as [(Hm & _)|(name & Hn & Hin)].
  - exists "Mail.tm". split; [done|by left].
  - exists name. split; [done|by right].
Qed.

(** X11. [test_service] of the second service cannot fail: it returns
    [True] for every behaviour of the network, also when no service
    answers. *)
Theorem test_service_always_passes web st :
  (test_service web st).1 = Ret true.
Proof.
  destruct (generate_email_outcome web st)
    as (address & st' & Hrun & Hat & _).
  unfold test_service, try_except, bind. rewrite Hrun.
  by rewrite Hat, (contains_truthy "@" address).
Qed.

(** X12. After [generate_email], [get_otp] can find a code only for a
    Mail.tm address: either the address came from Mail.tm and a
    non-empty token is stored, or [get_otp] returns [None] whatever the
    inbox holds. An address of a fallback service never receives its
    code. *)
Theorem only_mailtm_addresses_can_get_an_otp web st :
  let st' := (generate_email web st).2 in
  (service_used st' = Some "Mail.tm" ∧ truthy_opt (auth_token st') = true)
  ∨ (∀ api email, TempEmailV2.get_otp api (as_service st') email = None).
Proof.
  destruct (generate_email_outcome web st)
    as (address & st' & Hrun & _ & _ & Hname).
  rewrite Hrun. cbv zeta. cbn [snd].
  destruct Hname as [(Hm & Htok & _)|(name & Hn & Hin)]; [by left|].
  right. intros api email. unfold TempEmailV2.get_otp, as_service.
  cbn [TempEmailV2.service_used]. rewrite Hn.
  rewrite bool_decide_eq_false_2; [done|].
  intros [= ->]. destruct Hin as [H|[H|[H|[]]]]; discriminate H.
Qed.

(** X13. An address from Mail.tm costs exactly three requests, in this
    order: the domains, the account for the address, the token for the
    address. No fallback service is contacted. *)
Theorem mailtm_address_costs_three_requests web st address st' :
  generate_email web st = (Ret address, st') →
  service_used st' = Some "Mail.tm" →
  contacted st'
  = (contacted st ++ [GetDomains; PostAccounts address; PostToken address])%list.
Proof.
  intros Hrun Hm.
  destruct (generate_email_outcome web st)
    as (a & st2 & Hrun' & _ & _ & Hname).
  rewrite Hrun in Hrun'. injection Hrun' as <- <-.
  destruct Hname as [(_ & _ & Hc)|(name & Hn & Hin)]; [done|].
  rewrite Hm in Hn. injection Hn as <-.
  destruct Hin as [H|[H|[H|[]]]]; discriminate H.
Qed.

#[local] Transparent random_string.

Lemma mailtm_address_costs_three_requests_witness :
  contacted (generate_email MailTerms.mailtm_web new_service).2
  = [GetDomains; PostAccounts "abcdefghijkl@example.org";
     PostToken "abcdefghijkl@example.org"].
Proof.
  apply (mailtm_address_costs_three_requests MailTerms.mailtm_web new_service
           "abcdefghijkl@example.org"
           (generate_email MailTerms.mailtm_web new_service).2);
    reflexivity.
Defined.

(** With no network at all the made-up address is returned. *)
Example offline_address_is_made_up :
  (generate_email MailTerms.offline_web new_service).1
  = Ret "abcdefghij@tempmail.org"
  ∧ service_used (generate_email MailTerms.offline_web new_service).2
    = Some "FakeEmail".
Proof. split; reflexivity. Qed.

End MailServiceFacts.

(** ** The first e-mail service: getting an address *)

Module GuerrillaFacts.
Import Eff TempEmailService MailTerms.

(** The request part of [generate_email]: the site is asked exactly when
    the request to the API fails, and the response kept is that of the
    endpoint asked last. *)
Lemma get_with_fallback g st :
  try_except (get g Api) (fun _ => get g Site) st
  = if request_succeeds g Api
    then (answer g Api, note_endpoint Api st)
    else
      (match answer g Site with
       | Ret r =>
           if is_error_status (status_code r)
           then Raise (HttpError "error status") else Ret r
       | Raise e => Raise e
       end,
       note_endpoint Site (note_endpoint Api st)).
Proof.
  unfold request_succeeds, try_except, get, bind, raise_for_status, raise, ret.
  destruct (answer g Api) as [r|e]; simpl.
  - destruct (is_error_status (status_code r)); simpl; [|done].
    destruct (answer g Site) as [r'|e']; [|done].
    by destruct (is_error_status (status_code r')).
  - destruct (answer g Site) as [r'|e']; [|done].
    by destruct (is_error_status (status_code r')).
Qed.

Lemma generate_email_contacted g st r st1 :
  try_except (get g Api) (fun _ => get g Site) st = (r, st1) →
  contacted (generate_email g st).2 = contacted st1.
Proof.
  intros Hget. unfold generate_email, try_except at 1, bind at 1.
  rewrite Hget. destruct r as [resp|e]; [|done].
  unfold bind, lift, modify, gets, raise, ret.
  destruct (json resp) as [[[address|] sid]|e]; simpl; try done.
  by destruct (negb (Text.truthy address)).
Qed.

(** X14. [generate_email] of the first service asks the API endpoint,
    and the site only when that request fails (it raises, or the answer
    has a 4xx or 5xx status). An answer that goes through is final: when
    it holds no address, the site is not asked. *)
Theorem site_is_asked_only_when_api_request_fails g st :
  contacted (generate_email g st).2
  = (contacted st
     ++ if request_succeeds g Api then [Api] else [Api; Site])%list.
Proof.
  pose proof (get_with_fallback g st) as Hget.
  destruct (request_succeeds g Api).
  - by rewrite (generate_email_contacted g st _ _ Hget).
  - rewrite (generate_email_contacted g st _ _ Hget). simpl.
    by rewrite <- app_assoc.
Qed.

(** What [generate_email] makes of the response it kept. *)
Lemma generate_email_from_response g st r st1 :
  try_except (get g Api) (fun _ => get g Site) st = (r, st1) →
  (generate_email g st).1
  = match r with
    | Ret response =>
        match json response with
        | Ret (Some address, _) =>
            if Text.truthy address then Ret address
            else Raise (OtherException "Failed to generate email address")
        | Ret (None, _) =>
            Raise (OtherException "Failed to generate email address")
        | Raise e => Raise e
        end
    | Raise e => Raise e
    end.
Proof.
  intros Hget. unfold generate_email, try_except at 1, bind at 1.
  rewrite Hget. destruct r as [resp|e]; [|done].
  unfold bind, lift, modify, gets, raise, ret.
  destruct (json resp) as [[[address|] sid]|e]; simpl; try done.
  by destruct (Text.truthy address).
Qed.

(** The address [generate_email] returns, read off the answer of the
    endpoint that counts. *)
Lemma generate_email_result g st :
  (generate_email g st).1
  = match answer g (if request_succeeds g Api then Api else Site) with
    | Ret r =>
        if is_error_status (status_code r)
        then Raise (HttpError "error status")
        else
          match json r with
          | Ret (Some address, _) =>
              if Text.truthy address then Ret address
              else Raise (OtherException "Failed to generate email address")
          | Ret (None, _) =>
              Raise (OtherException "Failed to generate email address")
          | Raise e => Raise e
          end
    | Raise e => Raise e
    end.
Proof.
  pose proof (get_with_fallback g st) as Hget.
  destruct (request_succeeds g Api) eqn:Hapi.
  - rewrite (generate_email_from_response g st _ _ Hget).
    unfold request_succeeds in Hapi.
    destruct (answer g Api) as [r|e]; [|done].
    by apply negb_true_iff in Hapi as ->.
  - rewrite (generate_email_from_response g st _ _ Hget).
    destruct (answer g Site) as [r|e]; [|done].
    by destruct (is_error_status (status_code r)).
Qed.

(** X15. [generate_email] of the first service returns an address
    exactly when the endpoint that counts (the API, or the site when the
    API request failed) answers without an error status and its body
    holds a non-empty ['email_addr']; that address is the result. In
    every other case it raises. *)
Theorem address_comes_from_the_endpoint_that_answered g st address :
  (generate_email g st).1 = Ret address
  ↔ ∃ r sid,
      answer g (if request_succeeds g Api then Api else Site) = Ret r
      ∧ is_error_status (status_code r) = false
      ∧ json r = Ret (Some address, sid)
      ∧ Text.truthy address = true.
Proof.
  rewrite generate_email_result.
  destruct (answer g _) as [r|e]; [|split; [done|by intros (? & ? & ? & _)]].
  split.
  - destruct (is_error_status (status_code r)) eqn:Herr; [done|].
    destruct (json r) as [[[a|] sid]|e] eqn:Hjson; try done.
    destruct (Text.truthy a) eqn:Ha; [|done].
    intros [= <-]. by exists r, sid.
  - intros (r' & sid & [= <-] & -> & -> & ->). done.
Qed.

Lemma address_truthy g st address :
  (generate_email g st).1 = Ret address → Text.truthy address = true.
Proof.
  rewrite generate_email_result.
  destruct (answer g _) as [r|e]; [|done].
  destruct (is_error_status (status_code r)); [done|].
  destruct (json r) as [[[a|] sid]|e]; try done.
  destruct (Text.truthy a) eqn:Ha; [|done]. by intros [= <-].
Qed.

(** X16. [test_service] of the first service does not raise, and it
    returns [True] exactly when the endpoint that counts (the API, or
    the site when the API request failed) answers without an error
    status and its body holds an ['email_addr'] that contains "@". The
    two tests the method makes on the address come down to this one: an
    address that contains "@" is not empty. Every failure of the network
    gives [False]. *)
Theorem test_service_passes_iff_endpoint_gives_address g st :
  (∃ b, (test_service g st).1 = Ret b)
  ∧ ((test_service g st).1 = Ret true
     ↔ ∃ r sid address,
         answer g (if request_succeeds g Api then Api else Site) = Ret r
         ∧ is_error_status (status_code r) = false
         ∧ json r = Ret (Some address, sid)
         ∧ Text.contains "@" address = true).
Proof.
  pose proof (generate_email_result g st) as Hresult.
  pose proof (address_truthy g st) as Htruthy.
  assert (Htest :
    (test_service g st).1
    = Ret match (generate_email g st).1 with
          | Ret address => Text.contains "@" address
          | Raise _ => false
          end).
  { unfold test_service, try_except, bind.
    destruct (generate_email g st) as [[address|e] st']; simpl in *; [|done].
    rewrite (Htruthy address eq_refl). simpl.
    by destruct (Text.contains "@" address). }
  split; [rewrite Htest; eauto|].
  rewrite Htest, Hresult. clear Htest Hresult Htruthy.
  destruct (answer g _) as [r|e];
    [|split; [done|by intros (? & ? & ? & ? & _)]].
  split.
  - destruct (is_error_status (status_code r)) eqn:Herr; [done|].
    destruct (json r) as [[[a|] sid]|e] eqn:Hjson; try done.
    destruct (Text.truthy a) eqn:Ha; [|done].
    intros [= Hat]. by exists r, sid, a.
  - intros (r' & sid & a & [= <-] & -> & -> & Hat).
    by rewrite (MailServiceFacts.contains_truthy "@" a), Hat.
Qed.

(** An API answer without address ends the call: the site, which would
    have had one, is not asked. *)
Example empty_api_answer_is_final :
  (generate_email MailTerms.empty_api new_service).1
  = Raise (OtherException "Failed to generate email address")
  ∧ contacted (generate_email MailTerms.empty_api new_service).2 = [Api].
Proof. split; reflexivity. Qed.

End GuerrillaFacts.

(** ** The spreadsheet service: the QR column *)

Module QrFacts.
Import GoogleSheetsRanges.

Lemma prefix_of_longer a b : ∀ s,
  String.prefix (a ++ b) s = true → String.prefix a s = true.
Proof.
  induction a as [|c a IH]; intros s; [by destruct s|].
  change (String c a ++ b) with (String c (a ++ b)).
  destruct s as [|c' s]; simpl; [done|].
  destruct (ascii_dec c c'); [apply IH|done].
Qed.

Lemma contains_shorter a b s :
  Text.contains (a ++ b) s = true → Text.contains a s = true.
Proof.
  induction s as [|c s IH]; unfold Text.contains; fold Text.contains.
  - rewrite !orb_false_r. apply prefix_of_longer.
  - intros H. apply orb_prop in H as [H|H].
    + by rewrite (prefix_of_longer _ _ _ H).
    + rewrite (IH H). apply orb_true_r.
Qed.

(** The first alternative of the header test is covered by the
    second. *)
Lemma is_qr_header_short header :
  is_qr_header header = Text.contains "QR" (Text.upper header).
Proof.
  unfold is_qr_header.
  destruct (Text.contains "QR_CODE_URL" (Text.upper header)) eqn:Hlong;
    [|done].
  symmetry. apply (contains_shorter "QR" "_CODE_URL"), Hlong.
Qed.

Lemma find_qr_column_first headers : ∀ k,
  match find_qr_column headers k with
  | Some idx =>
      ∃ i header,
        idx = k + i ∧ headers !! i = Some header
        ∧ is_qr_header header = true
        ∧ ∀ j h, j < i → headers !! j = Some h → is_qr_header h = false
  | None => ∀ h, In h headers → is_qr_header h = false
  end.
Proof.
  induction headers as [|header rest IH]; intros k; simpl; [by intros ? []|].
  destruct (is_qr_header header) eqn:Hh.
  - exists 0, header. rewrite Nat.add_0_r. repeat split; auto.
    intros j h Hj. lia.
  - specialize (IH (S k)). destruct (find_qr_column rest (S k)) as [idx|].
    + destruct IH as (i & h & -> & Hi & Hqr & Hfirst).
      exists (S i), h. split; [lia|]. repeat split; auto.
      intros j h' Hj Hl. destruct j as [|j].
      * by injection Hl as <-.
      * apply (Hfirst j); [lia|done].
    + intros h [<-|Hin]; [done|auto].
Qed.

Lemma column_letter_range i :
  i < 14 →
  In (column_letter i)
     ["A"; "B"; "C"; "D"; "E"; "F"; "G"; "H"; "I"; "J"; "K"; "L"; "M"; "N"].
Proof.
  intros Hi.
  change ["A"; "B"; "C"; "D"; "E"; "F"; "G"; "H"; "I"; "J"; "K"; "L"; "M"; "N"]
    with (map column_letter (seq 0 14)).
  apply in_map, in_seq. lia.
Qed.

(** X17. With a header row of at most fourteen cells (what the range
    A1:N1 can hold), an accepting sheet and a row number from 1 on,
    [add_qr_code_url] succeeds and writes exactly one cell: the URL, in
    the given row, in the column of the first header whose upper-case
    form contains "QR", or in column M when no header does. The column
    is one of A to N and nothing else changes. *)
Theorem qr_url_goes_to_the_first_qr_column row url b headers others :
  range_get b "A1:N1" = Ret (Some (headers :: others)) →
  length headers ≤ 14 →
  accepts_batch b = true →
  (1 ≤ row)%Z →
  ∃ i,
    add_qr_code_url row url b
    = (Ret tt,
       {| range_get := range_get b;
          accepts_batch := accepts_batch b;
          first_tab := <[(column_letter i, row) := url]> (first_tab b) |})
    ∧ In (column_letter i)
         ["A"; "B"; "C"; "D"; "E"; "F"; "G"; "H"; "I"; "J"; "K"; "L"; "M";
          "N"]
    ∧ ((∃ header,
          headers !! i = Some header
          ∧ Text.contains "QR" (Text.upper header) = true
          ∧ ∀ j h, j < i → headers !! j = Some h →
                   Text.contains "QR" (Text.upper h) = false)
       ∨ (i = 12
          ∧ ∀ h, In h headers → Text.contains "QR" (Text.upper h) = false)).
Proof.
  intros Hget Hlen Hacc Hrow.
  assert (Hok : accepts_batch b && (1 <=? row)%Z = true).
  { rewrite Hacc. simpl. apply Z.leb_le. lia. }
  unfold add_qr_code_url, read_sheet_data, batch_update.
  rewrite Hget. simpl default. cbv beta iota zeta. rewrite Hok.
  pose proof (find_qr_column_first headers 0) as Hfind.
  destruct (find_qr_column headers 0) as [idx|].
  - destruct Hfind as (i & header & -> & Hi & Hqr & Hfirst). simpl.
    exists i. split; [done|].
    pose proof (lookup_lt_Some _ _ _ Hi) as Hlt.
    split; [apply column_letter_range; lia|].
    left. exists header. rewrite <- is_qr_header_short.
    repeat split; try done.
    intros j h Hj Hl. rewrite <- is_qr_header_short. eauto.
  - exists 12. split; [done|]. split; [apply column_letter_range; lia|].
    right. split; [done|]. intros h Hin. rewrite <- is_qr_header_short. auto.
Qed.

Lemma qr_url_goes_to_the_first_qr_column_witness :
  add_qr_code_url 5 "https://qr.example/5" book_with_qr
  = (Ret tt,
     {| range_get := range_get book_with_qr;
        accepts_batch := true;
        first_tab := {[ ("C", 5%Z) := "https://qr.example/5" ]} |}).
Proof.
  destruct (qr_url_goes_to_the_first_qr_column 5 "https://qr.example/5"
              book_with_qr ["NAME"; "Status"; "qr link"] [])
    as (i & Hrun & _ & Hcol); [reflexivity|simpl; lia|reflexivity|lia|].
  rewrite Hrun. clear Hrun.
  destruct Hcol as [(header & Hi & Hqr & Hfirst)|[_ Hnone]].
  - destruct i as [|[|[|i]]]; try discriminate Hi.
    + injection Hi as <-. discriminate Hqr.
    + injection Hi as <-. discriminate Hqr.
    + reflexivity.
  - specialize (Hnone "qr link"). simpl in Hnone.
    discriminate Hnone. auto.
Defined.

(** X18. When [test_connection] reports [False] (the header range cannot
    be read, or holds nothing), [add_qr_code_url] raises and leaves the
    sheet as it was, for every row and URL. *)
Theorem qr_url_needs_a_readable_header_row row url b :
  test_connection b = false →
  ∃ e, add_qr_code_url row url b = (Raise e, b).
Proof.
  unfold test_connection, add_qr_code_url, read_sheet_data.
  destruct (range_get b "A1:N1") as [[[|headers others]|]|e]; simpl;
    try done; eauto.
Qed.

Lemma qr_url_needs_a_readable_header_row_witness :
  ∃ e, add_qr_code_url 5 "https://qr.example/5" unreadable_book
       = (Raise e, unreadable_book).
Proof.
  apply (qr_url_needs_a_readable_header_row 5 "https://qr.example/5"
           unreadable_book).
  reflexivity.
Defined.

End QrFacts.

(** ** The run: what every pending row ends with *)

Module RunFacts.
Import Eff NusukBot RunTerms.

(** *** Rules for reasoning about outcomes *)

Lemma wp_mono {S A} (m : Eff S A) (Q Q' : Result exn A → S → Prop) s :
  wp m Q s → (∀ r s', Q r s' → Q' r s') → wp m Q' s.
Proof. unfold wp. auto. Qed.

Lemma wp_bind {S A B} (m : Eff S A) (k : A → Eff S B) Q s :
  wp m (fun r s' => match r with
                    | Ret a => wp (k a) Q s'
                    | Raise e => Q (Raise e) s'
                    end) s →
  wp (bind m k) Q s.
Proof. unfold wp, bind. by destruct (m s) as [[a|e] s']. Qed.

Lemma wp_try_except {S A} (m : Eff S A) h Q s :
  wp m (fun r s' => match r with
                    | Ret a => Q (Ret a) s'
                    | Raise e => wp (h e) Q s'
                    end) s →
  wp (try_except m h) Q s.
Proof. unfold wp, try_except. by destruct (m s) as [[a|e] s']. Qed.

Lemma wp_try_finally {S A} (m : Eff S A) cleanup Q s :
  wp m (fun r s' =>
          wp cleanup (fun c s'' => match c with
                                   | Ret _ => Q r s''
                                   | Raise e => Q (Raise e) s''
                                   end) s') s →
  wp (try_finally m cleanup) Q s.
Proof.
  unfold wp, try_finally. destruct (m s) as [r s']. simpl.
  by destruct (cleanup s') as [[c|e] s''].
Qed.

Lemma wp_ret {S A} (a : A) (Q : Result exn A → S → Prop) s :
  Q (Ret a) s → wp (ret a) Q s.
Proof. done. Qed.

Lemma wp_raise {S A} e (Q : Result exn A → S → Prop) s :
  Q (Raise e) s → wp (raise e) Q s.
Proof. done. Qed.

Lemma wp_gets {S A} (f : S → A) Q s : Q (Ret (f s)) s → wp (gets f) Q s.
Proof. done. Qed.

Lemma wp_modify {S} (f : S → S) Q s : Q (Ret tt) (f s) → wp (modify f) Q s.
Proof. done. Qed.

(** Code of the bot leaves everything but the bot alone. *)
Lemma wp_on_bot {A} (m : M A) Q w :
  (∀ r st', Q r (set_bot st' w)) → wp (on_bot m) Q w.
Proof.
  intros H. unfold wp, on_bot, zoom. destruct (m (bot w)) as [r st']. apply H.
Qed.

Lemma wp_invoke name (step : M bool) Q w :
  (∀ r st', Q r (set_bot st' (note_invoked name w))) →
  wp (invoke name step) Q w.
Proof.
  intros H. unfold invoke. apply wp_bind, wp_modify. by apply wp_on_bot.
Qed.

Lemma wp_on_sheet write Q w :
  Q (Ret (write (sheet w)).1) (set_sheet (write (sheet w)).2 w) →
  wp (on_sheet write) Q w.
Proof. unfold wp, on_sheet. by destruct (write (sheet w)). Qed.

(** *** The writers and the status column *)

Lemma write_status_kept s0 s row value :
  value = "In Progress" ∨ value = "Failed" →
  statuses_kept s0 s → (1 ≤ row)%Z →
  statuses_kept s0 (GoogleSheets.write_cell "H" row value s).2
  ∧ has_status (GoogleSheets.write_cell "H" row value s).2 row.
Proof.
  intros Hvalue [Hacc Hkept] Hrow. unfold GoogleSheets.write_cell, GoogleSheets.values_update.
  rewrite Hacc. replace (1 <=? row)%Z with true by (symmetry; by apply Z.leb_le).
  simpl. unfold statuses_kept, has_status. simpl. split; [split; [done|]|].
  - intros row' Hrow'. destruct (decide (row' = row)) as [->|Hne].
    + rewrite lookup_insert_eq. destruct Hvalue as [-> | ->]; auto.
    + rewrite lookup_insert_ne by congruence. by apply Hkept.
  - rewrite lookup_insert_eq. destruct Hvalue as [-> | ->]; auto.
Qed.

Lemma write_other_kept s0 s column row value :
  column ≠ "H" → statuses_kept s0 s →
  statuses_kept s0 (GoogleSheets.write_cell column row value s).2
  ∧ ∀ row', has_status s row' →
            has_status (GoogleSheets.write_cell column row value s).2 row'.
Proof.
  intros Hcol [Hacc Hkept].
  assert (Hsame : ∀ row', has_status s row' →
            has_status (GoogleSheets.write_cell column row value s).2 row').
  { intros row'. unfold has_status.
    by rewrite SheetsFacts.write_cell_other by congruence. }
  split; [|done]. split; [|auto].
  unfold GoogleSheets.write_cell, GoogleSheets.values_update. rewrite Hacc.
  by destruct (1 <=? row)%Z.
Qed.

(** *** Every record ends with a status *)

(** The [except] branch of [process_record] keeps the statuses. *)
Lemma process_record_handler_kept s0 row message w :
  statuses_kept s0 (sheet w) →
  wp (bind (on_sheet (GoogleSheets.log_error row message))
           (fun _ => ret false))
     (fun r w' =>
        ∃ b, r = Ret b ∧ statuses_kept s0 (sheet w')
             ∧ (b = true → has_status (sheet w') row)) w.
Proof.
  intros Hkept. apply wp_bind, wp_on_sheet. apply wp_ret.
  exists false. split; [done|]. split; [|done].
  by apply write_other_kept.
Qed.

(** One step of [process_record]: whatever the step does, the sheet is
    as before, and what follows is reached only when it returned
    [True]. *)
Ltac step_outcome Hkept :=
  apply wp_bind, wp_invoke; intros [[|]|?] ?;
  lazy beta iota delta [negb];
  [ | apply wp_ret; exists false; split; [done|]; split; [exact Hkept|done]
    | by apply process_record_handler_kept ].

Lemma process_record_status steps record s0 w :
  statuses_kept s0 (sheet w) → (1 ≤ GoogleSheets.row_number record)%Z →
  wp (process_record steps record)
     (fun r w' =>
        ∃ b, r = Ret b ∧ statuses_kept s0 (sheet w')
             ∧ (b = true → has_status (sheet w')
                             (GoogleSheets.row_number record))) w.
Proof.
  intros Hkept Hrow. unfold process_record. apply wp_try_except.
  apply wp_bind, wp_on_bot. intros [[]|e] st0;
    [|by apply process_record_handler_kept].
  do 7 step_outcome Hkept.
  apply wp_bind, wp_on_sheet.
  destruct (write_status_kept s0 (sheet w) (GoogleSheets.row_number record)
              "In Progress" ltac:(auto) Hkept Hrow) as [Hkept1 Hstatus].
  apply wp_bind, wp_gets.
  match goal with
  | |- context [current_email ?b] => destruct (current_email b) as [email|]
  end; [|apply wp_ret; exists true; auto].
  destruct (Text.truthy email); [|apply wp_ret; exists true; auto].
  apply wp_bind, wp_on_sheet, wp_ret. exists true. split; [done|].
  destruct (write_other_kept s0 _ "M" (GoogleSheets.row_number record) email
              ltac:(done) Hkept1) as [Hkept2 Hsame].
  split; [exact Hkept2|]. intros _. by apply Hsame.
Qed.

Lemma wp_on_bot_sleep p Q w :
  Q (Ret tt) (set_bot (log_event (Slept p) (bot w)) w) →
  wp (on_bot (sleep p)) Q w.
Proof. done. Qed.

(** The loop body: the [except] branch of the loop is never entered,
    since [process_record] catches what its steps raise. *)
Lemma process_one_status steps record s0 w :
  statuses_kept s0 (sheet w) → (1 ≤ GoogleSheets.row_number record)%Z →
  wp (process_one steps record)
     (fun r w' =>
        r = Ret tt ∧ statuses_kept s0 (sheet w')
        ∧ has_status (sheet w') (GoogleSheets.row_number record)) w.
Proof.
  intros Hkept Hrow. unfold process_one.
  apply wp_try_except, wp_bind.
  eapply wp_mono; [by apply (process_record_status steps record s0)|].
  intros r w1 (b & -> & Hk1 & Hb). cbv beta iota.
  apply wp_bind. destruct b.
  - apply wp_ret, wp_on_bot_sleep. auto.
  - apply wp_bind, wp_on_sheet, wp_ret, wp_on_bot_sleep.
    destruct (write_status_kept s0 (sheet w1) (GoogleSheets.row_number record)
                "Failed" ltac:(auto) Hk1 Hrow) as [Hk2 Hst].
    auto.
Qed.

(** X19. After the loop of [run_automation] no record is left without a
    status, whatever the step methods do, return or raise: on a sheet
    that accepts updates, every processed row (numbered from 1 on) has
    "In Progress" or "Failed" in column H, and the loop itself does not
    raise. *)
Theorem every_processed_row_gets_a_status steps pending_records w :
  GoogleSheets.accepts_updates (sheet w) = true →
  (∀ record, In record pending_records →
             (1 ≤ GoogleSheets.row_number record)%Z) →
  ∃ w',
    process_all steps pending_records w = (Ret tt, w')
    ∧ ∀ record, In record pending_records →
                has_status (sheet w') (GoogleSheets.row_number record).
Proof.
  intros Hacc Hrows.
  assert (Hloop : ∀ s0 w0,
    statuses_kept s0 (sheet w0) →
    wp (process_all steps pending_records)
       (fun r w' =>
          r = Ret tt ∧ statuses_kept s0 (sheet w')
          ∧ ∀ record, In record pending_records →
                      has_status (sheet w')
                        (GoogleSheets.row_number record)) w0).
  { induction pending_records as [|record rest IH]; intros s0 w0 Hkept.
    - apply wp_ret. split; [done|]. split; [done|]. by intros ? [].
    - cbn [process_all]. apply wp_bind.
      eapply wp_mono;
        [apply (process_one_status steps record s0); [done|]; apply Hrows;
         by left|].
      intros r w1 (-> & Hk1 & Hst).
      eapply wp_mono;
        [apply (IH (fun r H => Hrows r (or_intror H)) (sheet w1) w1);
         split; [by destruct Hk1|auto]|].
      intros r w2 (-> & [Hacc2 Hk2] & Hrest). split; [done|].
      split.
      + split; [done|]. intros row Hrow. apply Hk2. by apply Hk1.
      + intros record' [<-|Hin]; [by apply Hk2|by apply Hrest]. }
  specialize (Hloop (sheet w) w (conj Hacc (fun _ H => H))).
  unfold wp in Hloop. destruct (process_all steps pending_records w) as [r w'].
  cbn [fst snd] in Hloop. destruct Hloop as (-> & _ & Hall). by exists w'.
Qed.

Lemma every_processed_row_gets_a_status_witness :
  ∃ w',
    process_all (steps_raising_at_language TimeoutException)
      [record_row5] (running_world Samples.sheet_row5)
    = (Ret tt, w')
    ∧ has_status (sheet w') 5.
Proof.
  destruct (every_processed_row_gets_a_status
              (steps_raising_at_language TimeoutException)
              [record_row5] (running_world Samples.sheet_row5))
    as (w' & Hrun & Hall).
  - reflexivity.
  - intros record [<-|[]]. simpl. lia.
  - exists w'. split; [exact Hrun|]. apply (Hall record_row5). by left.
Defined.

(** *** A step that raises *)

(** X20. A step method that raises ends the record like one that
    fails, and leaves a trace in the sheet: for every position [k] in the
    pipeline, if the steps before [k] return [True] and step [k] raises
    [e], then [process_record] returns [False] (it does not raise), the
    steps invoked are exactly the first [k+1], and the only thing written
    is [str(e)], by [log_error] into column N of the row: the message of
    an exception that has one, and "Message: " with a newline for a
    Selenium exception raised without message. *)
Theorem raising_step_is_logged steps record w k name step st_k e st' :
  let stages := pipeline steps (GoogleSheets.data record) in
  stages !! k = Some (name, step) →
  all_succeed (take k stages) (set_current_record record (bot w))
    = Some st_k →
  step st_k = (Raise e, st') →
  process_record steps record w
  = (Ret false,
     {| bot := st';
        sheet := (GoogleSheets.log_error (GoogleSheets.row_number record)
                    (str_of_exn e) (sheet w)).2;
        dirs := dirs w; dirs_made := dirs_made w; live := live w;
        launched := launched w;
        invoked := invoked w ++ (take (S k) stages).*1 |}).
Proof.
  intros stages Hk Hbefore Hfail. subst stages. unfold pipeline in *.
  unfold process_record.
  do 7 (destruct k as [|k];
        [simpl in Hk; injection Hk as <- <-;
         cbn [take all_succeed] in Hbefore;
         BotFacts.stage_equations Hbefore;
         injection Hbefore as Hst; subst st_k;
         erewrite BotFacts.try_except_raises; cycle 1;
         [rewrite (BotFacts.bind_returns _ _ w tt
                     (set_bot (set_current_record record (bot w)) w))
            by reflexivity;
          repeat BotFacts.next_step;
          apply BotFacts.bind_raises, BotFacts.invoke_eq;
          lazy beta iota delta [bot set_bot note_invoked]; eassumption
         |erewrite BotFacts.bind_returns
            by (apply BotFacts.on_sheet_eq, surjective_pairing);
          lazy beta iota delta
            [ret set_sheet set_bot note_invoked take fmap list_fmap fst bot
             sheet dirs dirs_made live launched invoked];
          rewrite <- ?app_assoc; reflexivity]|]).
  discriminate Hk.
Qed.

Lemma raising_step_is_logged_witness :
  let w' :=
    (process_record (steps_raising_at_language TimeoutException) record_row5
       (running_world Samples.sheet_row5)).2 in
  (process_record (steps_raising_at_language TimeoutException) record_row5
     (running_world Samples.sheet_row5)).1 = Ret false
  ∧ GoogleSheets.cells (sheet w')
    = {[ ("N", 5%Z) := "Message: " ++ String "010"%char "" ]}
  ∧ invoked w' = [Navigate; SwitchLanguage].
Proof.
  rewrite (raising_step_is_logged (steps_raising_at_language TimeoutException)
             record_row5 (running_world Samples.sheet_row5) 1 SwitchLanguage
             (raise TimeoutException)
             (set_current_record record_row5 running_bot) TimeoutException
             (set_current_record record_row5 running_bot));
    [|reflexivity..].
  cbv zeta. split; [reflexivity|]. split; [|reflexivity].
  apply map_eq. intros key. vm_compute. reflexivity.
Defined.

(** *** What a run writes *)

Lemma keeps_sheet_ret {A} (a : A) : keeps_sheet (ret a).
Proof. done. Qed.

Lemma keeps_sheet_raise {A} e : keeps_sheet (raise e : W A).
Proof. done. Qed.

Lemma keeps_sheet_gets {A} (f : World → A) : keeps_sheet (gets f).
Proof. done. Qed.

Lemma keeps_sheet_on_bot {A} (m : M A) : keeps_sheet (on_bot m).
Proof. intros w. unfold on_bot, zoom. by destruct (m (bot w)). Qed.

Lemma keeps_sheet_bind {A B} (m : W A) (k : A → W B) :
  keeps_sheet m → (∀ a, keeps_sheet (k a)) → keeps_sheet (bind m k).
Proof.
  intros Hm Hk w. unfold bind. specialize (Hm w).
  destruct (m w) as [[a|e] w1]; simpl in *; [|done].
  by rewrite Hk.
Qed.

Lemma keeps_sheet_try_except {A} (m : W A) h :
  keeps_sheet m → (∀ e, keeps_sheet (h e)) → keeps_sheet (try_except m h).
Proof.
  intros Hm Hh w. unfold try_except. specialize (Hm w).
  destruct (m w) as [[a|e] w1]; simpl in *; [done|].
  by rewrite Hh.
Qed.

Lemma keeps_sheet_host env {A} (c : call A) : keeps_sheet (host env c).
Proof. apply keeps_sheet_on_bot. Qed.

Lemma keeps_sheet_launch env c : keeps_sheet (launch env c).
Proof.
  unfold launch. apply keeps_sheet_bind; [apply keeps_sheet_host|done].
Qed.

Lemma keeps_sheet_mkdtemp env : keeps_sheet (mkdtemp env).
Proof.
  unfold mkdtemp. apply keeps_sheet_bind; [apply keeps_sheet_host|done].
Qed.

Lemma keeps_sheet_rmtree dir : keeps_sheet (rmtree dir).
Proof. done. Qed.

Create HintDb keeps_sheet.
#[local] Hint Resolve keeps_sheet_ret keeps_sheet_raise keeps_sheet_gets
  keeps_sheet_on_bot keeps_sheet_host keeps_sheet_launch keeps_sheet_mkdtemp
  keeps_sheet_rmtree : keeps_sheet.

(** Take a computation apart along its binds, handlers and branches. *)
Ltac keeps_sheet_steps :=
  repeat first
    [ solve [auto with keeps_sheet]
    | solve [intros ?; reflexivity]
    | progress intros
    | match goal with
      | |- keeps_sheet (if ?b then _ else _) => destruct b
      | |- keeps_sheet (match ?x with _ => _ end) => destruct x
      end
    | apply keeps_sheet_bind
    | apply keeps_sheet_try_except ].

Lemma keeps_sheet_create_profile env :
  keeps_sheet (_create_stealth_profile env).
Proof.
  unfold _create_stealth_profile.
  keeps_sheet_steps.
Qed.

Lemma keeps_sheet_cleanup : keeps_sheet _cleanup_stealth_profile.
Proof. unfold _cleanup_stealth_profile. keeps_sheet_steps. Qed.

Lemma keeps_sheet_setup_driver env : keeps_sheet (setup_driver env).
Proof.
  pose proof (keeps_sheet_create_profile env).
  unfold setup_driver, _setup_firefox_driver, _setup_undetected_driver,
    _setup_standard_driver.
  keeps_sheet_steps.
Qed.

Lemma keeps_sheet_quit_driver env : keeps_sheet (quit_driver env).
Proof. unfold quit_driver. keeps_sheet_steps. Qed.

Lemma wp_keeps_sheet {A} (m : W A) Q w :
  keeps_sheet m → (∀ r w', sheet w' = sheet w → Q r w') → wp m Q w.
Proof. intros Hm HQ. apply HQ, Hm. Qed.

Lemma wp_invoke_total name (step : M bool) Q w :
  never_raises step →
  (∀ b st', Q (Ret b) (set_bot st' (note_invoked name w))) →
  wp (invoke name step) Q w.
Proof.
  intros Htotal H. unfold invoke. apply wp_bind, wp_modify.
  unfold wp, on_bot, zoom.
  destruct (Htotal (bot (note_invoked name w))) as (b & st' & ->). apply H.
Qed.

(** A method whose body is wrapped in [except Exception: return v]
    returns. *)
Lemma try_except_total {S A} (m : Eff S A) (v : A) :
  never_raises (try_except m (fun _ => ret v)).
Proof.
  intros s. unfold try_except. destruct (m s) as [[a|e] s']; eauto.
Qed.

(** Each step method of the bot has such a body. *)
Lemma nusuk_steps_never_raise env url :
  steps_never_raise (nusuk_steps env url).
Proof.
  repeat split; intros; apply try_except_total.
Qed.

Lemma only_status_and_email_refl s : only_status_and_email_written s s.
Proof. done. Qed.

Lemma write_keeps_other_columns s0 s column row value :
  column = "H" ∨ column = "M" →
  only_status_and_email_written s0 s →
  only_status_and_email_written s0
    (GoogleSheets.write_cell column row value s).2.
Proof.
  intros Hcol (Hget & Hacc & Hcells).
  unfold GoogleSheets.write_cell, GoogleSheets.values_update.
  destruct (_ && _); [|done]. repeat split; [done..|].
  intros column' row' HH HM. simpl.
  rewrite lookup_insert_ne; [by apply Hcells|].
  intros [= <- _]. by destruct Hcol.
Qed.

Lemma process_record_writes steps record s0 w :
  steps_never_raise steps →
  only_status_and_email_written s0 (sheet w) →
  wp (process_record steps record)
     (fun r w' =>
        (∃ b, r = Ret b) ∧ only_status_and_email_written s0 (sheet w')) w.
Proof.
  intros (Hnav & Hlang & Hguest & Hid & Hpers & Hacc & Hotp) Hkept.
  unfold process_record. apply wp_try_except.
  apply wp_bind. unfold wp at 1. cbn [fst snd on_bot zoom modify].
  do 7 (apply wp_bind, wp_invoke_total; [done|]; intros [|] ?;
        lazy beta iota delta [negb];
        [|apply wp_ret; split; [by exists false|exact Hkept]]).
  apply wp_bind, wp_on_sheet.
  pose proof (write_keeps_other_columns s0 (sheet w) "H"
                (GoogleSheets.row_number record) "In Progress"
                ltac:(auto) Hkept) as Hkept1.
  apply wp_bind, wp_gets.
  match goal with
  | |- context [current_email ?b] => destruct (current_email b) as [email|]
  end; [|apply wp_ret; split; [by exists true|exact Hkept1]].
  destruct (Text.truthy email);
    [|apply wp_ret; split; [by exists true|exact Hkept1]].
  apply wp_bind, wp_on_sheet, wp_ret. split; [by exists true|].
  by apply write_keeps_other_columns; [right|].
Qed.

Lemma process_all_writes steps pending_records : ∀ s0 w,
  steps_never_raise steps →
  only_status_and_email_written s0 (sheet w) →
  wp (process_all steps pending_records)
     (fun r w' => only_status_and_email_written s0 (sheet w')) w.
Proof.
  induction pending_records as [|record rest IH]; intros s0 w Hsteps Hkept.
  - by apply wp_ret.
  - cbn [process_all]. apply wp_bind.
    assert (Hone :
      wp (process_one steps record)
         (fun r w' =>
            r = Ret tt ∧ only_status_and_email_written s0 (sheet w')) w).
    { unfold process_one. apply wp_try_except, wp_bind.
      eapply wp_mono; [by apply (process_record_writes steps record s0)|].
      intros r w1 ([b ->] & Hk1). cbv beta iota.
      apply wp_bind. destruct b.
      - by apply wp_ret, wp_on_bot_sleep.
      - apply wp_bind, wp_on_sheet, wp_ret, wp_on_bot_sleep.
        split; [done|]. by apply write_keeps_other_columns; [left|]. }
    eapply wp_mono; [exact Hone|].
    intros r w1 (-> & Hk1). by apply IH.
Qed.

(** X21. With the bot's own step methods (each of which catches
    whatever goes wrong and returns [False]) a whole run writes nothing
    but status cells (column H) and e-mail cells (column M): every other
    cell of the sheet is as before, for every behaviour of the browser
    and of the site. In particular the error column N is never
    written. *)
Theorem own_steps_write_only_status_and_email env url w :
  let w' := (run_automation env (nusuk_steps env url) w).2 in
  only_status_and_email_written (sheet w) (sheet w')
  ∧ ∀ row, GoogleSheets.cells (sheet w') !! ("N", row)
           = GoogleSheets.cells (sheet w) !! ("N", row).
Proof.
  assert (Hrun :
    wp (run_automation env (nusuk_steps env url))
       (fun r w' => only_status_and_email_written (sheet w) (sheet w')) w).
  { unfold run_automation.
    assert (Hcleanup : ∀ (r : Result exn unit) w1,
      only_status_and_email_written (sheet w) (sheet w1) →
      wp (bind (quit_driver env) (fun _ => _cleanup_stealth_profile))
         (fun c w2 =>
            match c with
            | Ret _ => only_status_and_email_written (sheet w) (sheet w2)
            | Raise e => only_status_and_email_written (sheet w) (sheet w2)
            end) w1).
    { intros _ w1 Hk1. apply wp_keeps_sheet.
      - apply keeps_sheet_bind; [apply keeps_sheet_quit_driver|].
        intros _. apply keeps_sheet_cleanup.
      - intros [c|e] w2 ->; exact Hk1. }
    apply wp_try_finally.
    eapply wp_mono; [|intros r w1 Hk1; exact (Hcleanup r w1 Hk1)].
    apply wp_try_except, wp_bind.
    apply wp_keeps_sheet; [apply keeps_sheet_setup_driver|].
    intros [ok|e] w1 Hsheet; [|by apply wp_ret; rewrite Hsheet].
    apply wp_bind. unfold wp at 1, get_pending_records. cbn [fst snd].
    destruct (GoogleSheets.get_pending_records (sheet w1))
      as [[|record rest]|e]; [by apply wp_ret; rewrite Hsheet| |
                              by apply wp_ret; rewrite Hsheet].
    eapply wp_mono.
    - apply process_all_writes; [apply nusuk_steps_never_raise|].
      by rewrite Hsheet.
    - intros [[]|e] w2 Hk2; [done|by apply wp_ret]. }
  unfold wp in Hrun. cbv zeta. split; [exact Hrun|].
  intros row. by apply Hrun.
Qed.

(** *** A run without a browser *)

Lemma host_raises env {A} (c : call A) w e :
  env A (trace (bot w)) c = Raise e →
  host env c w
  = (Raise e, set_bot (log_event (Called c (Raise e)) (bot w)) w).
Proof.
  intros H. unfold host, on_bot, zoom, perform. by rewrite H.
Qed.

(** Without a driver the first step fails at its first request. *)
Lemma navigate_without_driver env url st :
  driver st = None → navigate_to_nusuk env url st = (Ret false, st).
Proof.
  intros Hnone. unfold navigate_to_nusuk.
  erewrite BotFacts.try_except_raises; [reflexivity|].
  apply BotFacts.bind_raises. unfold on_driver. by rewrite Hnone.
Qed.

(** When neither driver can be imported, [setup_driver] returns
    [False]: no browser is started and the bot has no driver. *)
Lemma setup_driver_without_browser env w :
  no_browser env →
  ∃ st',
    setup_driver env w = (Ret false, set_bot st' w)
    ∧ driver st' = driver (bot w)
    ∧ temp_dir st' = temp_dir (bot w).
Proof.
  intros [Hfirefox Hundetected].
  destruct (Hfirefox (trace (bot w))) as [e1 He1].
  set (w1 := set_bot (log_event (Called ImportFirefox (Raise e1)) (bot w)) w).
  destruct (Hundetected (trace (bot w1))) as [e2 He2].
  exists (log_event (Called ImportUndetected (Raise e2)) (bot w1)).
  split; [|done].
  assert (Hff : _setup_firefox_driver env w = (Ret false, w1)).
  { unfold _setup_firefox_driver. apply BotFacts.try_except_returns.
    erewrite BotFacts.bind_returns; cycle 1.
    { erewrite BotFacts.try_except_raises; cycle 1.
      { apply BotFacts.bind_raises. by apply host_raises. }
      reflexivity. }
    reflexivity. }
  assert (Hud : _setup_undetected_driver env w1
                = (Raise (OtherException "undetected_chromedriver is required"),
                   set_bot (log_event (Called ImportUndetected (Raise e2))
                              (bot w1)) w1)).
  { unfold _setup_undetected_driver.
    erewrite BotFacts.try_except_raises; cycle 1.
    { apply BotFacts.bind_raises.
      erewrite BotFacts.try_except_raises; cycle 1.
      { by apply host_raises. }
      reflexivity. }
    reflexivity. }
  unfold setup_driver.
  erewrite BotFacts.try_except_raises; cycle 1.
  { erewrite BotFacts.bind_returns by exact Hff. cbv beta iota.
    apply BotFacts.bind_raises. exact Hud. }
  reflexivity.
Qed.

Lemma process_one_without_driver env url record w :
  driver (bot w) = None →
  process_one (nusuk_steps env url) record w
  = (Ret tt,
     {| bot := log_event (Slept (Uniform 5000 10000))
                 (set_current_record record (bot w));
        sheet := (GoogleSheets.update_record_status
                    (GoogleSheets.row_number record) "Failed" (sheet w)).2;
        dirs := dirs w; dirs_made := dirs_made w; live := live w;
        launched := launched w;
        invoked := invoked w ++ [Navigate] |}).
Proof.
  intros Hnone.
  assert (Hrec : process_record (nusuk_steps env url) record w
                 = (Ret false,
                    {| bot := set_current_record record (bot w);
                       sheet := sheet w; dirs := dirs w;
                       dirs_made := dirs_made w; live := live w;
                       launched := launched w;
                       invoked := invoked w ++ [Navigate] |})).
  { unfold process_record. apply BotFacts.try_except_returns.
    rewrite (BotFacts.bind_returns _ _ w tt
               (set_bot (set_current_record record (bot w)) w))
      by reflexivity.
    erewrite BotFacts.bind_returns
      by (apply BotFacts.invoke_eq; apply navigate_without_driver;
          exact Hnone).
    reflexivity. }
  unfold process_one. apply BotFacts.try_except_returns.
  erewrite BotFacts.bind_returns by exact Hrec. cbv beta iota.
  erewrite BotFacts.bind_returns; cycle 1.
  { erewrite BotFacts.bind_returns
      by (apply BotFacts.on_sheet_eq, surjective_pairing).
    reflexivity. }
  reflexivity.
Qed.

Lemma process_all_without_driver env url pending_records : ∀ w,
  driver (bot w) = None →
  ∃ st',
    process_all (nusuk_steps env url) pending_records w
    = (Ret tt,
       {| bot := st';
          sheet := mark_failed (sheet w) pending_records;
          dirs := dirs w; dirs_made := dirs_made w; live := live w;
          launched := launched w;
          invoked := invoked w
                     ++ replicate (length pending_records) Navigate |})
    ∧ driver st' = None ∧ temp_dir st' = temp_dir (bot w).
Proof.
  induction pending_records as [|record rest IH]; intros w Hnone.
  - exists (bot w). simpl. rewrite app_nil_r. by destruct w.
  - cbn [process_all].
    rewrite (BotFacts.bind_returns _ _ _ _ _
               (process_one_without_driver env url record w Hnone)).
    match goal with
    | |- context [process_all _ rest ?w1] =>
        destruct (IH w1) as (st' & -> & Hd & Ht); [exact Hnone|]
    end.
    exists st'. simpl. rewrite <- app_assoc. by repeat split.
Qed.

(** The [finally] block when the bot has no driver: at most a
    directory is removed. *)
Lemma cleanup_without_driver env w :
  driver (bot w) = None →
  ∃ ds made,
    bind (quit_driver env) (fun _ => _cleanup_stealth_profile) w
    = (Ret tt, set_dirs ds made w).
Proof.
  destruct w as [b sh ds made lv ln inv]. simpl. intros Hnone.
  unfold quit_driver, bind, gets. simpl. rewrite Hnone.
  unfold _cleanup_stealth_profile, try_except, bind, gets, ret. simpl.
  destruct (temp_dir b); eexists _, _; reflexivity.
Qed.

(** X22. A run on a host where neither browser driver can be imported
    still goes through the sheet: [setup_driver] returns [False], which
    [run_automation] does not look at, and every pending record is then
    handed to [process_record] without a browser. The first step of each
    fails, so that every pending row is marked "Failed" and nothing else
    is written; no browser is started and no other step is invoked. *)
Theorem run_without_browser_fails_every_pending_row env url w :
  no_browser env →
  driver (bot w) = None →
  ∃ pending_records,
    GoogleSheets.get_pending_records (sheet w) = Ret pending_records
    ∧ let w' := (run_automation env (nusuk_steps env url) w).2 in
      sheet w' = mark_failed (sheet w) pending_records
      ∧ invoked w'
        = (invoked w ++ replicate (length pending_records) Navigate)%list
      ∧ launched w' = launched w
      ∧ live w' = live w.
Proof.
  intros Hhost Hnone.
  destruct (SheetsFacts.get_pending_records_total (sheet w))
    as [pending_records Hpending].
  exists pending_records. split; [exact Hpending|].
  destruct (setup_driver_without_browser env w Hhost)
    as (st1 & Hsetup & Hd1 & Ht1).
  rewrite Hnone in Hd1.
  destruct (process_all_without_driver env url pending_records
              (set_bot st1 w) Hd1) as (st2 & Hall & Hd2 & Ht2).
  assert (Hbody : ∃ st3,
    try_except
      (bind (setup_driver env)
         (fun _ =>
            bind get_pending_records
              (fun pending_records =>
                 match pending_records with
                 | [] => ret tt
                 | _ :: _ =>
                     process_all (nusuk_steps env url) pending_records
                 end)))
      (fun _ => ret tt) w
    = (Ret tt,
       {| bot := st3;
          sheet := mark_failed (sheet w) pending_records;
          dirs := dirs w; dirs_made := dirs_made w; live := live w;
          launched := launched w;
          invoked := invoked w
                     ++ replicate (length pending_records) Navigate |})
    ∧ driver st3 = None).
  { destruct pending_records as [|record rest].
    - exists st1. split; [|done]. apply BotFacts.try_except_returns.
      erewrite BotFacts.bind_returns by exact Hsetup.
      unfold bind, get_pending_records. cbn [sheet set_bot].
      rewrite Hpending. simpl. by rewrite app_nil_r.
    - exists st2. split; [|done]. apply BotFacts.try_except_returns.
      erewrite BotFacts.bind_returns by exact Hsetup.
      unfold bind at 1, get_pending_records. cbn [sheet set_bot].
      rewrite Hpending. exact Hall. }
  destruct Hbody as (st3 & Hbody & Hd3).
  cbv zeta. unfold run_automation, try_finally. rewrite Hbody.
  match goal with
  | |- context [bind (quit_driver env) _ ?w3] =>
      destruct (cleanup_without_driver env w3 Hd3) as (ds & made & ->)
  end.
  done.
Qed.

Lemma run_without_browser_fails_every_pending_row_witness :
  GoogleSheets.cells
    (sheet (run_automation dead_host (nusuk_steps dead_host base_url)
              (initial_world Samples.sheet_row5)).2)
  = {[ ("H", 5%Z) := "Failed" ]}.
Proof.
  destruct (run_without_browser_fails_every_pending_row dead_host base_url
              (initial_world Samples.sheet_row5))
    as (pending_records & Hpending & Hsheet & _).
  - split; intros history; eexists; reflexivity.
  - reflexivity.
  - rewrite Hsheet. vm_compute in Hpending. injection Hpending as <-.
    reflexivity.
Defined.

End RunFacts.

(** ** The forms: what is typed into the fields *)

Module FormFacts.
Import Eff NusukBot.

Lemma bind_inv {S A B} (m : Eff S A) (k : A → Eff S B) s b s' :
  bind m k s = (Ret b, s') →
  ∃ a s1, m s = (Ret a, s1) ∧ k a s1 = (Ret b, s').
Proof.
  unfold bind. destruct (m s) as [[a|e] s1]; [eauto|discriminate].
Qed.

Lemma try_except_lookup_inv {S A} (m h : Eff S A) s b s' :
  try_except_lookup m h s = (Ret b, s') →
  m s = (Ret b, s')
  ∨ ∃ e s1, m s = (Raise e, s1) ∧ h s1 = (Ret b, s').
Proof.
  unfold try_except_lookup, try_except.
  destruct (m s) as [[a|e] s1]; [intros [= <- <-]; by left|].
  destruct (is_lookup_failure e); [eauto|discriminate].
Qed.

(** A key that is not text leaves the text of the field alone. *)
Lemma perform_tab_text (env : Env) e e' st :
  field_text e (trace (perform env (SendKeys e' TAB) st).2)
  = field_text e (trace st).
Proof.
  rewrite BotFacts.perform_eq. cbn [snd trace log_event].
  rewrite BotFacts.field_text_snoc. unfold typed_by.
  by destruct (env _ (trace st) (SendKeys e' TAB)).
Qed.

Lemma contains_char_cons a c s :
  Text.contains (String a "") (String c s)
  = Ascii.eqb c a || Text.contains (String a "") s.
Proof.
  unfold Text.contains at 1. fold Text.contains. f_equal.
  simpl. destruct (ascii_dec a c) as [->|Hne].
  - rewrite Ascii.eqb_refl. by destruct s.
  - symmetry. apply Ascii.eqb_neq. congruence.
Qed.

Lemma replace_char_absent a b s :
  Text.contains (String a "") s = false → Text.replace_char a b s = s.
Proof.
  induction s as [|c s IH]; [done|]. rewrite contains_char_cons.
  intros H. apply orb_false_elim in H as [Hc Hs]. simpl.
  by rewrite Hc, IH.
Qed.


(** The date as the loop types it. *)
Lemma dob_with_dashes dob :
  (if Text.contains "/" dob then Text.replace_char "/" "-" dob else dob)
  = Text.replace_char "/" "-" dob.
Proof.
  destruct (Text.contains "/" dob) eqn:H; [done|].
  symmetry. by apply replace_char_absent.
Qed.

Lemma fill_dob_attempt (env : Env) record_data selector st b st' :
  (element <- until env presence_of_element_located XPATH selector ;;
   perform env (Clear element) ;;
   sleep (Seconds 1) ;;
   let dob_value := get_field record_data "DOB" in
   if Text.truthy dob_value then
     let dob_value :=
       if Text.contains "/" dob_value
       then Text.replace_char "/" "-" dob_value
       else dob_value in
     simulate_human_typing env element dob_value ;;
     perform env (SendKeys element TAB) ;;
     sleep (Seconds 1) ;;
     ret true
   else ret false)%eff st = (Ret b, st') →
  if Text.truthy (get_field record_data "DOB")
  then b = true
       ∧ ∃ e, field_text e (trace st')
              = Text.replace_char "/" "-" (get_field record_data "DOB")
  else b = false.
Proof.
  intros Hrun.
  apply bind_inv in Hrun as (e & st1 & _ & Hrun).
  apply bind_inv in Hrun as ([] & st2 & _ & Hrun).
  apply bind_inv in Hrun as ([] & st3 & _ & Hrun).
  cbv zeta in Hrun. rewrite dob_with_dashes in Hrun.
  destruct (Text.truthy (get_field record_data "DOB"));
    [|by injection Hrun as <- _].
  apply bind_inv in Hrun as ([] & st4 & Htyped & Hrun).
  apply BotFacts.simulate_human_typing_text in Htyped.
  apply bind_inv in Hrun as ([] & st5 & Htab & Hrun).
  apply bind_inv in Hrun as ([] & st6 & Hsleep & Hrun).
  injection Hrun as <- <-. split; [done|]. exists e.
  replace st6 with (sleep (Seconds 1) st5).2 by (by rewrite Hsleep).
  rewrite BotFacts.sleep_text.
  replace st5 with (perform env (SendKeys e TAB) st4).2 by (by rewrite Htab).
  by rewrite perform_tab_text.
Qed.

Lemma fill_dob_outcome (env : Env) record_data selectors : ∀ st b st',
  fill_dob env record_data selectors st = (Ret b, st') →
  if Text.truthy (get_field record_data "DOB")
  then b = true →
       ∃ e, field_text e (trace st')
            = Text.replace_char "/" "-" (get_field record_data "DOB")
  else b = false.
Proof.
  induction selectors as [|selector rest IH]; intros st b st' Hrun.
  - injection Hrun as <- _. by destruct (Text.truthy _).
  - cbn [fill_dob] in Hrun.
    apply try_except_lookup_inv in Hrun as [Hrun|(e & st1 & _ & Hrun)];
      [|by apply IH in Hrun].
    apply fill_dob_attempt in Hrun.
    destruct (Text.truthy (get_field record_data "DOB")); [|done].
    by destruct Hrun as [_ ?].
Qed.

(** X23. A record without a date of birth cannot pass
    [fill_personal_details]: whatever the page shows and however the
    browser answers, the method returns [False] (the date loop gives up
    at the first field it finds, or finds none). *)
Theorem no_date_of_birth_fails_personal_details (env : Env) record_data st :
  Text.truthy (get_field record_data "DOB") = false →
  (fill_personal_details env record_data st).1 = Ret false.
Proof.
  intros Hdob. unfold fill_personal_details, try_except.
  destruct (bind (fill_dob env record_data dob_selectors) _ st)
    as [[b|e] st1] eqn:Hbody; [|done].
  apply bind_inv in Hbody as (dob_filled & st0 & Hfill & Hrest).
  apply fill_dob_outcome in Hfill. rewrite Hdob in Hfill. subst dob_filled.
  by injection Hrest as <- _.
Qed.

Lemma no_date_of_birth_fails_personal_details_witness :
  (fill_personal_details (site_env FormSamples.personal_site)
     FormSamples.record_without_dob running_bot).1
  = Ret false.
Proof.
  apply (no_date_of_birth_fails_personal_details
           (site_env FormSamples.personal_site)
           FormSamples.record_without_dob running_bot).
  reflexivity.
Defined.








End FormFacts.

(** ** The hand-off steps: what they do to the page and to the sheet *)

Module HandOffFacts.
Import Eff NusukBot StepTerms.

Section Stable.
Variable env : Env.
Variable ok : event → bool.
Variable P : State → Prop.
Hypothesis Hlooking : survives ok P.

Lemma stable_ret {A} (a : A) : stable P (ret a).
Proof. by intros st. Qed.

Lemma stable_raise {A} e : stable P (raise e : M A).
Proof. by intros st. Qed.

Lemma stable_bind {A B} (m : M A) (k : A → M B) :
  stable P m → (∀ a, stable P (k a)) → stable P (bind m k).
Proof.
  intros Hm Hk st HP. unfold bind. specialize (Hm st HP).
  destruct (m st) as [[a|e] st1]; [by apply Hk|done].
Qed.

Lemma stable_try_except {A} (m : M A) h :
  stable P m → (∀ e, stable P (h e)) → stable P (try_except m h).
Proof.
  intros Hm Hh st HP. unfold try_except. specialize (Hm st HP).
  destruct (m st) as [[a|e] st1]; [done|by apply Hh].
Qed.

Lemma stable_sleep p : ok (Slept p) = true → stable P (sleep p).
Proof. intros Hp st HP. by apply Hlooking. Qed.

Lemma stable_perform {A} (c : call A) :
  (∀ r, ok (Called c r) = true) → stable P (perform env c).
Proof. intros Hc st HP. by apply Hlooking. Qed.

Lemma stable_on_driver {A} (c : session → call A) :
  (∀ d r, ok (Called (c d) r) = true) → stable P (on_driver env c).
Proof.
  intros Hc st HP. unfold on_driver.
  destruct (driver st); [by apply stable_perform|done].
Qed.

End Stable.

Section Looking.
Variable env : Env.
Variable P : State → Prop.
Hypothesis Hlooking : survives passive P.

Lemma stable_countdown n : stable P (countdown n).
Proof.
  induction n as [|n IH]; [apply (stable_ret P)|].
  apply (stable_bind P); [by apply (stable_sleep passive P)|done].
Qed.

Lemma stable_probe read_text selectors :
  stable P (probe env read_text selectors).
Proof.
  induction selectors as [|selector rest IH]; [apply (stable_ret P)|].
  apply (stable_bind P).
  - apply (stable_try_except P); [|intros; apply (stable_ret P)].
    apply (stable_bind P); [by apply (stable_on_driver env passive P)|]. intros element.
    apply (stable_bind P); [by apply (stable_perform env passive P)|]. intros [|];
      [|apply (stable_ret P)].
    destruct read_text; [|apply (stable_ret P)].
    apply (stable_bind P); [by apply (stable_perform env passive P)|]. intros; apply (stable_ret P).
  - intros [|]; [apply (stable_ret P)|apply IH].
Qed.

Lemma stable_report_errors selectors :
  stable P (report_errors env selectors).
Proof.
  induction selectors as [|selector rest IH]; [apply (stable_ret P)|].
  apply (stable_bind P); [|done].
  apply (stable_try_except P); [|intros; apply (stable_ret P)].
  apply (stable_bind P); [by apply (stable_on_driver env passive P)|]. intros element.
  apply (stable_bind P); [by apply (stable_perform env passive P)|]. intros [|];
    [|apply (stable_ret P)].
  apply (stable_bind P); [by apply (stable_perform env passive P)|]. intros; apply (stable_ret P).
Qed.

Lemma stable_check_page_status : stable P (check_page_status env).
Proof.
  unfold check_page_status.
  apply (stable_bind P); [by apply (stable_on_driver env passive P)|]. intros _.
  apply (stable_bind P); [by apply (stable_on_driver env passive P)|]. intros _.
  apply (stable_bind P); [by apply (stable_on_driver env passive P)|]. intros page_source.
  cbv zeta. repeat (destruct (_ || _)); apply (stable_ret P).
Qed.

(** [verify_email_otp] changes nothing that looking does not change. *)
Lemma stable_verify_email_otp : stable P (verify_email_otp env).
Proof.
  unfold verify_email_otp.
  apply (stable_try_except P); [|intros; apply (stable_ret P)].
  apply (stable_bind P); [by apply (stable_sleep passive P)|]. intros _.
  apply (stable_bind P); [apply stable_probe|].
  intros [|]; lazy beta iota delta [negb].
  - apply (stable_bind P); [apply stable_countdown|]. intros _.
    unfold check_otp_verified.
    apply (stable_try_except P); [|intros; apply (stable_ret P)].
    apply (stable_bind P); [apply stable_probe|]. intros; apply (stable_ret P).
  - apply stable_check_page_status.
Qed.

(** [create_account] besides sets the e-mail marker. *)
Lemma stable_create_account record_data :
  (∀ st, P st → P (set_current_email manual_input_completed st)) →
  stable P (create_account env record_data).
Proof.
  intros Hmark.
  assert (Hset : stable P
                   (bind (modify (set_current_email manual_input_completed))
                         (fun _ => ret true))).
  { intros st HP. by apply Hmark. }
  unfold create_account.
  apply (stable_try_except P); [|intros; apply (stable_ret P)].
  apply (stable_bind P); [apply stable_countdown|]. intros _.
  unfold check_account_created.
  apply (stable_try_except P); [|intros; exact Hset].
  apply (stable_bind P); [apply stable_probe|]. intros success_found.
  apply (stable_bind P); [|intros; exact Hset].
  destruct success_found; lazy beta iota delta [negb];
    [apply (stable_ret P)|apply stable_report_errors].
Qed.

End Looking.

Lemma only_looked_refl st : only_looked st st.
Proof. exists []. by rewrite app_nil_r. Qed.

Lemma only_looked_survives st0 : survives passive (only_looked st0).
Proof.
  intros ev st Hev (added & Htrace & Hall).
  exists (added ++ [ev])%list. simpl. rewrite Htrace, app_assoc.
  split; [done|]. rewrite forallb_app, Hall. simpl. by rewrite Hev.
Qed.

(** X26. The two hand-off steps only look at the page: everything
    [create_account] and [verify_email_otp] add to the history of the
    browser is a pause or a reading request (element lookup, visibility,
    text, URL, title, page source). They never click, type, clear, run a
    script or load a page, whatever the page shows. *)
Theorem hand_off_steps_only_look (env : Env) record_data st :
  only_looked st (create_account env record_data st).2
  ∧ only_looked st (verify_email_otp env st).2.
Proof.
  split.
  - apply (stable_create_account env (only_looked st)
             (only_looked_survives st)); [|apply only_looked_refl].
    by intros st1 (added & Htrace & Hall); exists added.
  - apply (stable_verify_email_otp env (only_looked st)
             (only_looked_survives st)), only_looked_refl.
Qed.

Lemma wp_any {S A} (m : Eff S A) (Q : Result exn A → S → Prop) s :
  (∀ r s', Q r s') → RunTerms.wp m Q s.
Proof. intros H. apply H. Qed.

Lemma wp_invoke_step name (step : M bool) Q w :
  (∀ r st', step (bot w) = (r, st') →
            Q r (set_bot st' (note_invoked name w))) →
  RunTerms.wp (invoke name step) Q w.
Proof.
  intros H. unfold invoke. apply RunFacts.wp_bind, RunFacts.wp_modify.
  unfold RunTerms.wp, on_bot, zoom. cbn [bot note_invoked].
  destruct (step (bot w)) as [r st'] eqn:Hstep. by apply H.
Qed.

(** [create_account] returns [True] only with the marker in place of
    the e-mail address. *)
Lemma create_account_marks (env : Env) record_data st st' :
  create_account env record_data st = (Ret true, st') →
  current_email st' = Some manual_input_completed.
Proof.
  assert (Hmark : ∀ st1,
    RunTerms.wp (bind (modify (set_current_email manual_input_completed))
                      (fun _ => ret true))
      (fun r st2 =>
         r = Ret true → current_email st2 = Some manual_input_completed)
      st1) by done.
  assert (Hwp :
    RunTerms.wp (create_account env record_data)
      (fun r st2 =>
         r = Ret true → current_email st2 = Some manual_input_completed)
      st).
  { unfold create_account.
    apply RunFacts.wp_try_except, RunFacts.wp_bind, wp_any.
    intros [[]|e] st1; [|by apply RunFacts.wp_ret].
    unfold check_account_created.
    apply RunFacts.wp_try_except, RunFacts.wp_bind, wp_any.
    intros [success_found|e] st2; [|apply Hmark].
    apply RunFacts.wp_bind, wp_any. intros [[]|e] st3; [apply Hmark|].
    apply Hmark. }
  unfold RunTerms.wp in Hwp. intros Hrun. rewrite Hrun in Hwp. by apply Hwp.
Qed.

Lemma verify_email_otp_keeps_email (env : Env) st :
  current_email (verify_email_otp env st).2 = current_email st.
Proof.
  apply (stable_verify_email_otp env
           (fun st' => current_email st' = current_email st)); [|done].
  by intros ev st' _.
Qed.

(** X27. A row that reaches "In Progress" gets the marker, not an
    address: with the bot's [create_account] and [verify_email_otp] as
    the last two steps, whenever [process_record] returns [True] on a
    sheet that accepts updates, it has written exactly two cells of the
    row: "In Progress" in column H and "MANUAL_INPUT_COMPLETED" in the
    e-mail column M. *)
Theorem rows_in_progress_get_the_manual_marker
    (env : Env) steps record w w' :
  let row := GoogleSheets.row_number record in
  do_create_account steps = create_account env →
  do_verify_email_otp steps = verify_email_otp env →
  GoogleSheets.accepts_updates (sheet w) = true →
  (1 ≤ row)%Z →
  process_record steps record w = (Ret true, w') →
  GoogleSheets.cells (sheet w')
  = <[("M", row) := "MANUAL_INPUT_COMPLETED"]>
      (<[("H", row) := "In Progress"]> (GoogleSheets.cells (sheet w))).
Proof.
  intros row Hcreate Hverify Hacc Hrow Hrun.
  assert (Hwp :
    RunTerms.wp (process_record steps record)
      (fun r w1 =>
         r = Ret true →
         GoogleSheets.cells (sheet w1)
         = <[("M", row) := "MANUAL_INPUT_COMPLETED"]>
             (<[("H", row) := "In Progress"]>
                (GoogleSheets.cells (sheet w)))) w).
  { assert (Hhandler : ∀ message w1,
      RunTerms.wp
        (bind (on_sheet (GoogleSheets.log_error row message))
              (fun _ => ret false))
        (fun r w2 =>
           r = Ret true →
           GoogleSheets.cells (sheet w2)
           = <[("M", row) := "MANUAL_INPUT_COMPLETED"]>
               (<[("H", row) := "In Progress"]>
                  (GoogleSheets.cells (sheet w)))) w1).
    { intros message w1. apply RunFacts.wp_bind, RunFacts.wp_on_sheet.
      by apply RunFacts.wp_ret. }
    unfold process_record. apply RunFacts.wp_try_except.
    apply RunFacts.wp_bind, RunFacts.wp_on_bot.
    intros [[]|e] st0; [|apply Hhandler].
    do 5 (apply RunFacts.wp_bind, RunFacts.wp_invoke; intros [[|]|?] ?;
          lazy beta iota delta [negb];
          [|by apply RunFacts.wp_ret|apply Hhandler]).
    apply RunFacts.wp_bind, wp_invoke_step. rewrite Hcreate.
    intros [[|]|e] st6 Hstep6; lazy beta iota delta [negb];
      [|by apply RunFacts.wp_ret|apply Hhandler].
    apply create_account_marks in Hstep6.
    apply RunFacts.wp_bind, wp_invoke_step. rewrite Hverify.
    intros r st7 Hstep7.
    assert (Hemail : current_email st7 = Some manual_input_completed).
    { replace st7 with (verify_email_otp env st6).2
        by (cbn [bot set_bot] in Hstep7; by rewrite Hstep7).
      by rewrite verify_email_otp_keeps_email. }
    destruct r as [[|]|e]; lazy beta iota delta [negb];
      [|by apply RunFacts.wp_ret|apply Hhandler].
    apply RunFacts.wp_bind, RunFacts.wp_on_sheet.
    apply RunFacts.wp_bind, RunFacts.wp_gets.
    cbn [bot set_sheet set_bot]. rewrite Hemail.
    change (Text.truthy manual_input_completed) with true. cbv iota.
    apply RunFacts.wp_bind, RunFacts.wp_on_sheet, RunFacts.wp_ret.
    intros _. cbn [sheet set_sheet set_bot note_invoked].
    unfold GoogleSheets.update_email_used, GoogleSheets.update_record_status.
    fold row.
    rewrite (BotFacts.write_cell_accepted "H" row "In Progress" (sheet w))
      by done.
    by rewrite BotFacts.write_cell_accepted. }
  unfold RunTerms.wp in Hwp. rewrite Hrun in Hwp. by apply Hwp.
Qed.

Lemma rows_in_progress_get_the_manual_marker_witness :
  GoogleSheets.cells
    (sheet (process_record (hand_off_steps (site_env blank_site)) record_row5
              (running_world Samples.sheet_row5)).2)
  = {[ ("H", 5%Z) := "In Progress";
       ("M", 5%Z) := "MANUAL_INPUT_COMPLETED" ]}.
Proof.
  rewrite (rows_in_progress_get_the_manual_marker (site_env blank_site)
             (hand_off_steps (site_env blank_site)) record_row5
             (running_world Samples.sheet_row5)
             (process_record (hand_off_steps (site_env blank_site))
                record_row5 (running_world Samples.sheet_row5)).2);
    [|reflexivity|reflexivity|reflexivity|simpl; lia|vm_compute; reflexivity].
  apply map_eq. intros key. vm_compute. reflexivity.
Defined.

End HandOffFacts.

(** ** The first step: when the site counts as reached *)

Module NavigationFacts.
Import Eff NusukBot StepTerms.

Lemma grown_refl st : grown st st.
Proof. exists []. by rewrite app_nil_r. Qed.

Lemma grown_survives st0 : survives (fun _ => true) (grown st0).
Proof.
  intros ev st _ [added Htrace]. exists (added ++ [ev])%list.
  simpl. by rewrite Htrace, app_assoc.
Qed.

(** Take a computation of the bot apart: every request and every pause
    only adds to the history. *)
Ltac history_grows :=
  repeat first
    [ apply HandOffFacts.stable_ret
    | apply HandOffFacts.stable_raise
    | apply (HandOffFacts.stable_sleep (fun _ => true));
      [apply grown_survives|reflexivity]
    | apply (HandOffFacts.stable_on_driver _ (fun _ => true));
      [apply grown_survives|reflexivity]
    | apply HandOffFacts.stable_bind
    | apply HandOffFacts.stable_try_except
    | progress intros
    | match goal with
      | |- stable _ (if ?b then _ else _) => destruct b
      | |- stable _ (match ?x with _ => _ end) => destruct x
      end ].

Lemma grown_step {A} (m : M A) st r st' :
  stable (grown st) m → m st = (r, st') → grown st st'.
Proof.
  intros Hm Hrun. specialize (Hm st (grown_refl st)). by rewrite Hrun in Hm.
Qed.

Lemma on_driver_inv (env : Env) {A} (c : session → call A) st a st' :
  on_driver env c st = (Ret a, st') →
  ∃ d, st' = log_event (Called (c d) (Ret a)) st.
Proof.
  unfold on_driver. destruct (driver st) as [d|]; [|discriminate].
  rewrite BotFacts.perform_eq. intros [= Hr <-]. exists d. by rewrite Hr.
Qed.

Lemma try_except_true_inv {S} (m : Eff S bool) s s' :
  try_except m (fun _ => ret false) s = (Ret true, s') →
  m s = (Ret true, s').
Proof.
  unfold try_except. by destruct (m s) as [[b|e] s1].
Qed.

(** X28. [navigate_to_nusuk] reports the site as reached only on
    evidence it has read itself: its first request loads
    [NUSUK_BASE_URL], and when it returns [True] it has, after that,
    read a title that contains "nusuk" in some letter case, or a page
    source of more than 1000 characters. *)
Theorem navigation_succeeds_only_on_evidence (env : Env) url st st' :
  navigate_to_nusuk env url st = (Ret true, st') →
  ∃ d rest,
    trace st' = (trace st ++ Called (Get d url) (Ret tt) :: rest)%list
    ∧ ((∃ d' title,
          In (Called (Title d') (Ret title)) rest
          ∧ Text.contains "nusuk" (Text.lower title) = true)
       ∨ (∃ d' page_source,
            In (Called (PageSource d') (Ret page_source)) rest
            ∧ 1000 < String.length page_source)).
Proof.
  intros Hrun. apply try_except_true_inv in Hrun.
  apply FormFacts.bind_inv in Hrun as ([] & st1 & Hget & Hrun).
  apply on_driver_inv in Hget as [d ->].
  exists d.
  set (st1 := log_event (Called (Get d url) (Ret tt)) st) in *.
  assert (Hfrom : ∀ st_end,
    (∃ d' title rest,
       trace st_end = (trace st1 ++ rest)%list
       ∧ In (Called (Title d') (Ret title)) rest
       ∧ Text.contains "nusuk" (Text.lower title) = true)
    ∨ (∃ d' page_source rest,
         trace st_end = (trace st1 ++ rest)%list
         ∧ In (Called (PageSource d') (Ret page_source)) rest
         ∧ 1000 < String.length page_source) →
    ∃ rest,
      trace st_end = (trace st ++ Called (Get d url) (Ret tt) :: rest)%list
      ∧ ((∃ d' title,
            In (Called (Title d') (Ret title)) rest
            ∧ Text.contains "nusuk" (Text.lower title) = true)
         ∨ (∃ d' page_source,
              In (Called (PageSource d') (Ret page_source)) rest
              ∧ 1000 < String.length page_source))).
  { intros st_end [(d' & title & rest & Ht & Hin & Hc)
                  |(d' & src & rest & Ht & Hin & Hc)];
      exists rest; (split; [by rewrite Ht; simpl; rewrite <- app_assoc|]);
      [left|right]; eauto. }
  apply Hfrom. clear Hfrom. clearbody st1.
  apply FormFacts.bind_inv in Hrun as ([] & st2 & H12 & Hrun).
  apply FormFacts.bind_inv in Hrun as ([] & st3 & H23 & Hrun).
  apply FormFacts.bind_inv in Hrun as ([] & st4 & H34 & Hrun).
  apply FormFacts.bind_inv in Hrun as ([] & st5 & H45 & Hrun).
  assert (H15 : grown st1 st5).
  { apply grown_step in H12; [|history_grows].
    apply grown_step in H23; [|unfold try_except_timeout; history_grows].
    apply grown_step in H34; [|unfold try_except_timeout; history_grows].
    apply grown_step in H45; [|history_grows].
    destruct H12 as [a1 E1], H23 as [a2 E2], H34 as [a3 E3], H45 as [a4 E4].
    exists (a1 ++ a2 ++ a3 ++ a4)%list.
    by rewrite E4, E3, E2, E1, <- !app_assoc. }
  destruct H15 as [before H15].
  apply FormFacts.bind_inv in Hrun as (title & st6 & Htitle & Hrun).
  apply on_driver_inv in Htitle as [d1 ->].
  destruct (Text.contains "nusuk" (Text.lower title)) eqn:Hnusuk.
  - left. apply grown_step in Hrun as [after Hafter]; [|history_grows].
    exists d1, title,
      (before ++ Called (Title d1) (Ret title) :: after)%list.
    split; [|split; [|done]].
    + rewrite Hafter. cbn [trace log_event].
      by rewrite H15, <- !app_assoc.
    + apply in_or_app. right. by left.
  - right.
    apply FormFacts.bind_inv in Hrun as (title2 & st7 & H67 & Hrun).
    apply FormFacts.bind_inv in Hrun as (nonblank & st8 & H78 & Hrun).
    destruct nonblank; [|discriminate].
    apply FormFacts.bind_inv in Hrun as (title3 & st9 & H89 & Hrun).
    apply FormFacts.bind_inv in Hrun as (page_source & st10 & Hsrc & Hrun).
    apply on_driver_inv in Hsrc as [d2 ->].
    destruct (1000 <? String.length page_source) eqn:Hlong; [|discriminate].
    injection Hrun as <-. apply Nat.ltb_lt in Hlong.
    apply grown_step in H67 as [a1 E1]; [|history_grows].
    apply grown_step in H78 as [a2 E2]; [|history_grows].
    apply grown_step in H89 as [a3 E3]; [|history_grows].
    exists d2, page_source,
      (before ++ Called (Title d1) (Ret title) :: a1 ++ a2 ++ a3
       ++ [Called (PageSource d2) (Ret page_source)])%list.
    split; [|split; [|done]].
    + cbn [trace log_event]. rewrite E3, E2, E1. cbn [trace log_event].
      rewrite H15. by rewrite <- !app_assoc.
    + apply in_or_app. right. right. rewrite !app_assoc.
      apply in_or_app. right. by left.
Qed.

Lemma navigation_succeeds_only_on_evidence_witness :
  ∃ d rest,
    trace (navigate_to_nusuk (site_env blank_site) base_url running_bot).2
    = Called (Get d base_url) (Ret tt) :: rest
    ∧ In (Called (Title d) (Ret "Nusuk")) rest.
Proof.
  destruct (navigation_succeeds_only_on_evidence (site_env blank_site)
              base_url running_bot
              (navigate_to_nusuk (site_env blank_site) base_url
                 running_bot).2)
    as (d & rest & Htrace & _); [vm_compute; reflexivity|].
  exists 0, rest. split.
  - rewrite Htrace. vm_compute in Htrace. by injection Htrace as <- _.
  - vm_compute in Htrace. injection Htrace as _ <-. simpl. auto.
Defined.

End NavigationFacts.

(** ** The inbox: text and HTML of a message *)

Module InboxFacts.
Import Re ReFacts Otp OtpFacts.

Lemma list_ascii_of_string_app (a b : string) :
  list_ascii_of_string (a ++ b)
  = (list_ascii_of_string a ++ list_ascii_of_string b)%list.
Proof.
  induction a as [|c a IH]; [done|].
  change (String c a ++ b) with (String c (a ++ b)). simpl. by rewrite IH.
Qed.

(** A text has a digit run exactly when four decimal digits follow one
    another somewhere in it. *)
Lemma has_digit_run_window s :
  has_digit_run s = true
  ↔ ∃ i, ∀ k, k < 4 →
         ∃ x, list_ascii_of_string s !! (i + k) = Some x
              ∧ Text.is_decimal x = true.
Proof.
  split.
  - unfold has_digit_run. intros H.
    apply existsb_exists in H as (i & _ & H).
    apply existsb_exists in H as (n & Hn & Hrun).
    exists i. intros k Hk.
    apply (OtpMore.digit_run_at_lookup _ i n k Hrun).
    simpl in Hn. lia.
  - intros [i Hi]. apply (digit_run_at_has_run s i 4); [lia|].
    assert (Hd : digits_between (list_ascii_of_string s) i (i + 4)).
    { intros k Hk. replace k with (i + (k - i)) by lia. apply Hi. lia. }
    unfold digit_run_at. apply andb_true_intro. split.
    + apply Nat.leb_le. apply (digits_between_bound _ i); [lia|done].
    + apply digits_between_forallb in Hd.
      by replace (i + 4 - i) with 4 in Hd by lia.
Qed.

(** A space between two texts keeps their digits apart. *)
Lemma has_digit_run_joined a b :
  has_digit_run (a ++ " " ++ b) = true
  ↔ has_digit_run a = true ∨ has_digit_run b = true.
Proof.
  rewrite !has_digit_run_window, !list_ascii_of_string_app.
  change (list_ascii_of_string " ") with [" "%char].
  set (la := list_ascii_of_string a). set (lb := list_ascii_of_string b).
  split.
  - intros [i Hi].
    destruct (decide (i + 4 ≤ length la)) as [Hleft|Hnot].
    + left. exists i. intros k Hk. destruct (Hi k Hk) as (x & Hx & Hdec).
      exists x. split; [|done]. by rewrite lookup_app_l in Hx by lia.
    + destruct (decide (length la < i)) as [Hright|Hmid].
      * right. exists (i - length la - 1). intros k Hk.
        destruct (Hi k Hk) as (x & Hx & Hdec). exists x. split; [|done].
        rewrite lookup_app_r in Hx by lia.
        replace (i + k - length la) with (S (i - length la - 1 + k)) in Hx
          by lia.
        exact Hx.
      * destruct (Hi (length la - i)) as (x & Hx & Hdec); [lia|].
        replace (i + (length la - i)) with (length la) in Hx by lia.
        rewrite lookup_app_r, Nat.sub_diag in Hx by lia.
        injection Hx as <-. discriminate Hdec.
  - intros [[i Hi]|[i Hi]].
    + exists i. intros k Hk. destruct (Hi k Hk) as (x & Hx & Hdec).
      exists x. split; [|done]. by apply lookup_app_l_Some.
    + exists (length la + 1 + i). intros k Hk.
      destruct (Hi k Hk) as (x & Hx & Hdec). exists x. split; [|done].
      rewrite lookup_app_r by lia.
      replace (length la + 1 + i + k - length la) with (S (i + k)) by lia.
      exact Hx.
Qed.

(** X29. [_get_mailtm_otp] searches the text of a message and its HTML
    joined by a space, and the joint never yields a code of its own: a
    code is found in the joined text exactly when one is found in the
    text or in the HTML. Digits at the end of the text and at the start
    of the HTML do not add up to a code. *)
Theorem joined_content_has_a_code_iff_a_part_has text html :
  is_Some (TempEmailV2._extract_otp_from_text (text ++ " " ++ html))
  ↔ is_Some (TempEmailV2._extract_otp_from_text text)
    ∨ is_Some (TempEmailV2._extract_otp_from_text html).
Proof.
  assert (Hrun : ∀ s,
    is_Some (TempEmailV2._extract_otp_from_text s)
    ↔ has_digit_run s = true).
  { intros s. unfold TempEmailV2._extract_otp_from_text. split.
    - intros [otp Hotp]. destruct (has_digit_run s) eqn:Hs; [done|].
      rewrite extract_with_no_run in Hotp; done.
    - intros Hs. rewrite OtpMore.extract_with_search by done.
      by apply OtpMore.search_finds_run. }
  rewrite !Hrun. apply has_digit_run_joined.
Qed.

End InboxFacts.
